(** * PixDB: a promise facade over IndexedDB

    The development embeds [src/pixdb.js] in three layers:

    - [JS]: the fragment of the host language the class relies on
      (exceptions, truthiness, single-settlement promises);
    - [IDB]: a reference model of the storage engine the class drives
      (keys and their order, key ranges, object stores, indexes,
      all-or-nothing transactions, requests and cursors).  The engine is
      not part of the repository; it is modelled after the W3C Indexed
      Database API, restricted to what the class calls;
    - [PixDB]: the class itself, method by method.

    After the definitions come the vocabulary the properties are stated
    in, a sample database, the repository's test page run on the model,
    auxiliary facts, and the properties of the specification, C1 to C10. *)

From stdpp Require Import base strings gmap list.
From Stdlib Require Import ZArith Lia.

Local Open Scope string_scope.
Local Open Scope list_scope.
Local Open Scope Z_scope.

Set Warnings "-register-all".

(* ===================================================================== *)
(** ** Host language fragment *)
(* ===================================================================== *)

Module JS.

(** Names of the DOM exceptions the engine raises. *)
Inductive ExName :=
| ConstraintError
| DataError
| NotFoundError
| AbortError
| InvalidStateError
| ReadOnlyError
| VersionError
| UnknownError.

Record DOMException := { ex_name : ExName; ex_message : string }.

(** An error event as seen by a handler: [e.target.error], and the two
    legacy properties [e.target.errorCode] and [e.target.message]
    rendered as text. *)
Record Event := {
  target_error : DOMException;
  target_errorCode : string;
  target_message : string
}.

(** What can be thrown, or given to [reject]. *)
Inductive Reason :=
| TypeError                               (* raised by the runtime *)
| DOM (d : DOMException)                  (* raised or reported by the engine *)
| Error (message : string) (cause : option Event)   (* [new Error(message, { cause })] *)
| JsFalse.                                (* the literal [false] *)

(** Synchronous code either returns or throws. *)
Inductive Res (A : Type) :=
| Ok (a : A)
| Throw (e : Reason).
Arguments Ok {A} a.
Arguments Throw {A} e.

(** A promise settles at most once: later calls of [resolve] or
    [reject] are ignored. *)
Inductive Promise (A : Type) :=
| Pending
| Fulfilled (v : A)
| Rejected (r : Reason).
Arguments Pending {A}.
Arguments Fulfilled {A} v.
Arguments Rejected {A} r.

Definition resolve {A} (p : Promise A) (v : A) : Promise A :=
  match p with Pending => Fulfilled v | _ => p end.

Definition reject {A} (p : Promise A) (r : Reason) : Promise A :=
  match p with Pending => Rejected r | _ => p end.

(** [p.then(f)] for a handler [f] that returns a plain value. *)
Definition then_ {A B} (p : Promise A) (f : A -> B) : Promise B :=
  match p with
  | Pending => Pending
  | Fulfilled v => Fulfilled (f v)
  | Rejected r => Rejected r
  end.

(** [p.catch(f)] for a handler [f] that returns a plain value. *)
Definition catch_ {A} (p : Promise A) (f : Reason -> A) : Promise A :=
  match p with
  | Pending => Pending
  | Fulfilled v => Fulfilled v
  | Rejected r => Fulfilled (f r)
  end.

(** Truthiness of an optional string ([undefined], [null] and the empty
    string are falsy). *)
Definition truthy_string (s : option string) : bool :=
  match s with
  | Some s => negb (String.eqb s "")
  | None => false
  end.

(** Truthiness of an optional number ([undefined], [null] and [0] are
    falsy). *)
Definition truthy_number (n : option Z) : bool :=
  match n with
  | Some n => negb (n =? 0)
  | None => false
  end.

End JS.

(* ===================================================================== *)
(** ** Storage engine model *)
(* ===================================================================== *)

Module IDB.
Import JS.

(** *** Keys *)

(** Valid keys: numbers (integral ones), dates (as timestamps), strings
    and arrays of keys. Binary keys are left out. *)
Inductive Key :=
| KNum (n : Z)
| KDate (t : Z)
| KStr (s : string)
| KArr (ks : list Key).

Fixpoint Key_eq_dec (a b : Key) {struct a} : {a = b} + {a <> b}.
Proof.
  decide equality.
  - apply Z.eq_dec.
  - apply Z.eq_dec.
  - apply String.string_dec.
  - apply (Stdlib.Lists.List.list_eq_dec Key_eq_dec).
Defined.

#[export] Instance Key_eqdec : EqDecision Key := Key_eq_dec.

(** Truthiness of a key used as a JavaScript value: [0] and the empty
    string are falsy, dates and arrays (the empty one too) are truthy. *)
Definition truthy_key (k : Key) : bool :=
  match k with
  | KNum n => negb (n =? 0)
  | KStr s => negb (String.eqb s "")
  | KDate _ => true
  | KArr _ => true
  end.

(** Truthiness of an optional key argument; [None] is [undefined]. *)
Definition truthy (v : option Key) : bool :=
  match v with
  | Some k => truthy_key k
  | None => false
  end.

(** Rank of the key types: Number < Date < String < Array. *)
Definition key_rank (k : Key) : Z :=
  match k with
  | KNum _ => 0
  | KDate _ => 1
  | KStr _ => 2
  | KArr _ => 3
  end.

(** The engine's key comparison. *)
Fixpoint key_cmp (a b : Key) {struct a} : comparison :=
  match a, b with
  | KNum x, KNum y => x ?= y
  | KDate x, KDate y => x ?= y
  | KStr x, KStr y => String.compare x y
  | KArr xs, KArr ys =>
      (fix go (xs ys : list Key) {struct xs} : comparison :=
         match xs, ys with
         | [], [] => Eq
         | [], _ :: _ => Lt
         | _ :: _, [] => Gt
         | x :: xs', y :: ys' =>
             match key_cmp x y with
             | Eq => go xs' ys'
             | c => c
             end
         end) xs ys
  | _, _ => key_rank a ?= key_rank b
  end.

Definition key_leb (a b : Key) : bool :=
  match key_cmp a b with Gt => false | _ => true end.

(** *** Key ranges *)

(** [IDBKeyRange], both ends closed when present. *)
Record IDBKeyRange := { lower : option Key; upper : option Key }.

Definition invalid_key : Reason :=
  DOM {| ex_name := DataError; ex_message := "The parameter is not a valid key." |}.

(** [IDBKeyRange.bound(lower, upper)]: refuses a value that is not a key
    ([undefined] here) and an inverted pair. *)
Definition IDBKeyRange_bound (l u : option Key) : Res IDBKeyRange :=
  match l, u with
  | Some l, Some u =>
      match key_cmp l u with
      | Gt => Throw (DOM {| ex_name := DataError;
                            ex_message := "The lower key is greater than the upper key." |})
      | _ => Ok {| lower := Some l; upper := Some u |}
      end
  | _, _ => Throw invalid_key
  end.

(** [IDBKeyRange.lowerBound(lower)]. *)
Definition IDBKeyRange_lowerBound (l : option Key) : Res IDBKeyRange :=
  match l with
  | Some l => Ok {| lower := Some l; upper := None |}
  | None => Throw invalid_key
  end.

(** [IDBKeyRange.upperBound(upper)]. *)
Definition IDBKeyRange_upperBound (u : option Key) : Res IDBKeyRange :=
  match u with
  | Some u => Ok {| lower := None; upper := Some u |}
  | None => Throw invalid_key
  end.

(** [IDBKeyRange.only(k)], what a bare key stands for as a query. *)
Definition IDBKeyRange_only (k : Key) : IDBKeyRange :=
  {| lower := Some k; upper := Some k |}.

Definition includes (r : IDBKeyRange) (k : Key) : bool :=
  match lower r with Some l => key_leb l k | None => true end
  && match upper r with Some u => key_leb k u | None => true end.

(** A query is a range or nothing ([undefined]: every key). *)
Definition in_query (q : option IDBKeyRange) (k : Key) : bool :=
  match q with
  | Some r => includes r k
  | None => true
  end.

(** *** Records, stores, databases *)

(** A stored record: the key found at the store's key path, the other
    properties that hold a valid key (the ones an index can be built
    on), and the rest of the value as an opaque payload. *)
Record Rec := { rkey : Key; rfields : list (string * Key); rdata : Z }.

Record IndexDef := { ix_keyPath : string; ix_unique : bool }.

Record Store := { st_records : list Rec; st_indexes : gmap string IndexDef }.

Record Database := { db_version : Z; db_stores : gmap string Store }.

Inductive Mode := ReadOnly | ReadWrite.
Inductive Durability := Default | Strict.

(** An open connection ([IDBDatabase]). *)
Record IDBDatabase := { conn_name : string }.

Inductive WriteReq := WAdd (v : Rec) | WPut (v : Rec).

Record IDBTransaction := {
  tx_db : string;
  tx_store : string;
  tx_mode : Mode;
  tx_durability : Durability;
  tx_queue : list WriteReq       (* requests placed and not yet run *)
}.

(** What a request runs against: an [IDBObjectStore], or an [IDBIndex]
    of it when [src_index] is set. *)
Record Source := {
  src_db : string;
  src_store : string;
  src_mode : Mode;
  src_index : option string
}.

(** JavaScript values handed to the engine's methods. A key that is an
    array is a JavaScript array, as [AList] is. *)
Inductive Arg :=
| AUndefined
| AVal (k : Key)
| ARange (r : IDBKeyRange)
| AList (l : list Arg).

(** [Array.isArray(a) ? a : [ a ]] *)
Definition as_array (a : Arg) : list Arg :=
  match a with
  | AList l => l
  | AVal (KArr ks) => map AVal ks
  | _ => [a]
  end.

(** The calls the engine receives, in order. *)
Inductive Call :=
| CallOpen (name : string) (version : Z)
| CallClose (name : string)
| CallDeleteDatabase (name : string)
| CallTransaction (store : string) (mode : Mode) (durability : Durability)
| CallIndex (store index : string)
| CallMethod (src : Source) (method : string) (args : list Arg)
| CallAdd (store : string) (v : Rec)
| CallPut (store : string) (v : Rec)
| CallCommit (store : string)
| CallOpenCursor (src : Source) (range : option IDBKeyRange) (direction : string)
| CallAdvance (count : Z).

Record Engine := {
  supported : bool;                     (* ['indexedDB' in window] *)
  databases : gmap string Database;
  log : list Call
}.

(** *** Synchronous engine code: state and exceptions *)

Definition Step (A : Type) : Type := Engine -> Engine * Res A.

Definition ret {A} (a : A) : Step A := fun eng => (eng, Ok a).

Definition throw {A} (e : Reason) : Step A := fun eng => (eng, Throw e).

Definition bind {A B} (m : Step A) (k : A -> Step B) : Step B :=
  fun eng =>
    match m eng with
    | (eng', Ok a) => k a eng'
    | (eng', Throw e) => (eng', Throw e)
    end.

Definition lift {A} (r : Res A) : Step A := fun eng => (eng, r).

Definition record_call (c : Call) : Step unit :=
  fun eng =>
    ({| supported := supported eng;
        databases := databases eng;
        log := log eng ++ [c] |}, Ok tt).

Definition with_databases (eng : Engine) (dbs : gmap string Database) : Engine :=
  {| supported := supported eng; databases := dbs; log := log eng |}.

Definition raise (n : ExName) (msg : string) : Reason :=
  DOM {| ex_name := n; ex_message := msg |}.

Definition find_store (eng : Engine) (db store : string) : option Store :=
  match databases eng !! db with
  | Some d => db_stores d !! store
  | None => None
  end.

Definition set_store (eng : Engine) (db store : string) (st : Store) : Engine :=
  match databases eng !! db with
  | Some d =>
      with_databases eng
        (<[db := {| db_version := db_version d;
                    db_stores := <[store := st]> (db_stores d) |}]> (databases eng))
  | None => eng
  end.

Notation "'let!' x ':=' m 'in' k" := (bind m (fun x => k))
  (at level 10, x name, m at level 100, k at level 200).

(** *** Transactions and object stores *)

(** [db.transaction(storeName, mode, { durability })] *)
Definition transaction (db : IDBDatabase) (storeName : string)
    (mode : Mode) (durability : Durability) : Step IDBTransaction :=
  fun eng =>
    match databases eng !! conn_name db with
    | None => throw (raise InvalidStateError "The database connection is closing.") eng
    | Some d =>
        match db_stores d !! storeName with
        | None => throw (raise NotFoundError "One of the specified object stores was not found.") eng
        | Some _ =>
            (let! _ := record_call (CallTransaction storeName mode durability) in
             ret {| tx_db := conn_name db; tx_store := storeName; tx_mode := mode;
                    tx_durability := durability; tx_queue := [] |}) eng
        end
    end.

(** [transaction.objectStore(storeName)] *)
Definition objectStore (tx : IDBTransaction) (storeName : string) : Step Source :=
  if String.eqb storeName (tx_store tx)
  then ret {| src_db := tx_db tx; src_store := storeName;
              src_mode := tx_mode tx; src_index := None |}
  else throw (raise NotFoundError "The specified object store was not found.").

(** [store.index(indexName)] *)
Definition index (store : Source) (indexName : string) : Step Source :=
  fun eng =>
    match find_store eng (src_db store) (src_store store) with
    | None => throw (raise InvalidStateError "The object store has been deleted.") eng
    | Some st =>
        match st_indexes st !! indexName with
        | None => throw (raise NotFoundError "The specified index was not found.") eng
        | Some _ =>
            (let! _ := record_call (CallIndex (src_store store) indexName) in
             ret {| src_db := src_db store; src_store := src_store store;
                    src_mode := src_mode store; src_index := Some indexName |}) eng
        end
    end.

(** *** Reading *)

Definition field (f : string) (r : Rec) : option Key :=
  snd <$> List.find (fun p => String.eqb (fst p) f) (rfields r).

(** An entry of a source: its key in the source's key space (the primary
    key for a store, the indexed property for an index) and the record. *)
Definition Entry : Type := Key * Rec.

Definition entry_leb (a b : Entry) : bool :=
  match key_cmp (fst a) (fst b) with
  | Lt => true
  | Gt => false
  | Eq => key_leb (rkey (snd a)) (rkey (snd b))
  end.

Fixpoint insert_sorted (e : Entry) (l : list Entry) : list Entry :=
  match l with
  | [] => [e]
  | x :: xs => if entry_leb e x then e :: l else x :: insert_sorted e xs
  end.

Definition sort_entries (l : list Entry) : list Entry :=
  foldr insert_sorted [] l.

Definition store_entries (st : Store) : list Entry :=
  map (fun r => (rkey r, r)) (st_records st).

Definition index_entries (d : IndexDef) (st : Store) : list Entry :=
  omap (fun r => match field (ix_keyPath d) r with
                 | Some k => Some (k, r)
                 | None => None
                 end) (st_records st).

(** The entries of a source, ascending. *)
Definition entries (st : Store) (ix : option string) : list Entry :=
  match ix with
  | None => sort_entries (store_entries st)
  | Some i =>
      match st_indexes st !! i with
      | Some d => sort_entries (index_entries d st)
      | None => []
      end
  end.

Definition matching (st : Store) (ix : option string) (q : option IDBKeyRange) : list Entry :=
  List.filter (fun e => in_query q (fst e)) (entries st ix).

(** An array of keys is itself a key. *)
Fixpoint arg_key (a : Arg) : option Key :=
  match a with
  | AVal k => Some k
  | AList l =>
      (fix go (l : list Arg) : option Key :=
         match l with
         | [] => Some (KArr [])
         | x :: xs =>
             match arg_key x, go xs with
             | Some k, Some (KArr ks) => Some (KArr (k :: ks))
             | _, _ => None
             end
         end) l
  | _ => None
  end.

(** Conversion of the [query] argument of a method. A missing argument
    is a [TypeError] where the method requires one; [undefined] stands
    for every key where that is allowed and is a [DataError] otherwise. *)
Definition arg_query (a : option Arg) (required : bool) : Res (option IDBKeyRange) :=
  match a with
  | None => if required then Throw TypeError else Ok None
  | Some AUndefined =>
      if required
      then Throw (raise DataError "No key or key range specified.")
      else Ok None
  | Some (ARange r) => Ok (Some r)
  | Some a =>
      match arg_key a with
      | Some k => Ok (Some (IDBKeyRange_only k))
      | None => Throw (raise DataError "The parameter is not a valid key.")
      end
  end.

(** The largest [unsigned long] and the largest [unsigned long long] the
    engine takes from a number: an argument declared with [EnforceRange]
    is a [TypeError] outside [0] and that. *)
Definition max_unsigned_long : Z := 4294967295.
Definition max_unsigned_long_long : Z := 9007199254740991.

(** Conversion of the [count] argument of [getAll] and [getAllKeys], an
    [EnforceRange unsigned long]: absent, [undefined] and [0] mean no
    limit. *)
Definition arg_count (a : option Arg) : Res (option nat) :=
  match a with
  | None | Some AUndefined => Ok None
  | Some (AVal (KNum n)) =>
      if (n <? 0) || (max_unsigned_long <? n) then Throw TypeError
      else if n =? 0 then Ok None
      else Ok (Some (Z.to_nat n))
  | Some _ => Throw TypeError
  end.

Definition limit {A} (n : option nat) (l : list A) : list A :=
  match n with
  | Some n => take n l
  | None => l
  end.

(** [request.result] *)
Inductive Value :=
| VUndefined
| VNumber (n : Z)
| VRecord (r : Rec)
| VRecords (l : list Rec)
| VKeys (l : list Key).

(** How a request ends: a success event with [request.result], or an
    error event with [request.error]. *)
Inductive Settled :=
| Success (result : Value)
| Failure (error : option DOMException).

Definition get_store (src : Source) : Step Store :=
  fun eng =>
    match find_store eng (src_db src) (src_store src) with
    | Some st => ret st eng
    | None => throw (raise InvalidStateError "The object store has been deleted.") eng
    end.

Definition put_store (src : Source) (st : Store) : Step unit :=
  fun eng => (set_store eng (src_db src) (src_store src) st, Ok tt).

Definition with_records (st : Store) (recs : list Rec) : Store :=
  {| st_records := recs; st_indexes := st_indexes st |}.

(** The write methods exist on object stores only, and need a
    read-write transaction. *)
Definition writable (src : Source) : Step unit :=
  match src_index src, src_mode src with
  | Some _, _ => throw TypeError
  | None, ReadOnly => throw (raise ReadOnlyError "The transaction is read-only.")
  | None, ReadWrite => ret tt
  end.

(** [source[method](...args)]: the request is placed and, the model
    being sequential, run at once. *)
Definition invoke (src : Source) (method : string) (args : list Arg) : Step Settled :=
  let! _ := record_call (CallMethod src method args) in
  let! st := get_store src in
  if String.eqb method "count" then
    let! q := lift (arg_query (args !! 0%nat) false) in
    ret (Success (VNumber (Z.of_nat (length (matching st (src_index src) q)))))
  else if String.eqb method "get" then
    let! q := lift (arg_query (args !! 0%nat) true) in
    ret (Success (match matching st (src_index src) q with
                  | e :: _ => VRecord (snd e)
                  | [] => VUndefined
                  end))
  else if String.eqb method "getAll" then
    let! q := lift (arg_query (args !! 0%nat) false) in
    let! n := lift (arg_count (args !! 1%nat)) in
    ret (Success (VRecords (map snd (limit n (matching st (src_index src) q)))))
  else if String.eqb method "getAllKeys" then
    let! q := lift (arg_query (args !! 0%nat) false) in
    let! n := lift (arg_count (args !! 1%nat)) in
    ret (Success (VKeys (map (fun e => rkey (snd e))
                            (limit n (matching st (src_index src) q)))))
  else if String.eqb method "delete" then
    let! _ := writable src in
    let! q := lift (arg_query (args !! 0%nat) true) in
    let! _ := put_store src
                (with_records st
                   (List.filter (fun r => negb (in_query q (rkey r))) (st_records st))) in
    ret (Success VUndefined)
  else if String.eqb method "clear" then
    let! _ := writable src in
    let! _ := put_store src (with_records st []) in
    ret (Success VUndefined)
  else throw TypeError.

(** *** Writing *)

Definition has_key (k : Key) (recs : list Rec) : bool :=
  existsb (fun r => bool_decide (rkey r = k)) recs.

(** Would storing [v] give two records the same key in a unique index? *)
Definition unique_clash (st : Store) (v : Rec) : bool :=
  existsb
    (fun d =>
       ix_unique d &&
       match field (ix_keyPath d) v with
       | Some k =>
           existsb (fun r => negb (bool_decide (rkey r = rkey v))
                             && bool_decide (field (ix_keyPath d) r = Some k))
                   (st_records st)
       | None => false
       end)
    (map snd (map_to_list (st_indexes st))).

Definition store_put (v : Rec) (recs : list Rec) : list Rec :=
  if has_key (rkey v) recs
  then map (fun r => if bool_decide (rkey r = rkey v) then v else r) recs
  else recs ++ [v].

Definition constraint_error : DOMException :=
  {| ex_name := ConstraintError;
     ex_message := "Key already exists in the object store." |}.

Definition abort_error : DOMException :=
  {| ex_name := AbortError; ex_message := "The transaction was aborted." |}.

(** One write request against the working copy of the store. *)
Definition apply_write (st : Store) (w : WriteReq) : DOMException + Store :=
  match w with
  | WAdd v =>
      if has_key (rkey v) (st_records st) then inl constraint_error
      else if unique_clash st v then inl constraint_error
      else inr (with_records st (st_records st ++ [v]))
  | WPut v =>
      if unique_clash st v then inl constraint_error
      else inr (with_records st (store_put v (st_records st)))
  end.

(** [store.add(v)]: places the request. The value is a record, which
    carries a valid key at the key path of the store; the engine throws
    here, instead of placing the request, for a value it can take no key
    from, which is no [Rec]. *)
Definition add (tx : IDBTransaction) (v : Rec) : Step IDBTransaction :=
  match tx_mode tx with
  | ReadOnly => throw (raise ReadOnlyError "The transaction is read-only.")
  | ReadWrite =>
      let! _ := record_call (CallAdd (tx_store tx) v) in
      ret {| tx_db := tx_db tx; tx_store := tx_store tx; tx_mode := tx_mode tx;
             tx_durability := tx_durability tx;
             tx_queue := tx_queue tx ++ [WAdd v] |}
  end.

(** [store.put(v)]: places the request, for a record as for [add]. *)
Definition put (tx : IDBTransaction) (v : Rec) : Step IDBTransaction :=
  match tx_mode tx with
  | ReadOnly => throw (raise ReadOnlyError "The transaction is read-only.")
  | ReadWrite =>
      let! _ := record_call (CallPut (tx_store tx) v) in
      ret {| tx_db := tx_db tx; tx_store := tx_store tx; tx_mode := tx_mode tx;
             tx_durability := tx_durability tx;
             tx_queue := tx_queue tx ++ [WPut v] |}
  end.

(** Events a transaction's handlers can observe. Error events of
    requests bubble to the transaction. *)
Inductive TxEvent :=
| TxRequestSuccess
| TxRequestError (e : Event)
| TxComplete
| TxAbort.

Definition error_event (d : DOMException) : Event :=
  {| target_error := d; target_errorCode := "undefined"; target_message := "undefined" |}.

(** Runs the queue in order on a working copy. The first failing request
    aborts the transaction (no handler of the class prevents it): the
    working copy is dropped and the requests left get an [AbortError]. *)
Fixpoint run_queue (st : Store) (q : list WriteReq) : option Store * list TxEvent :=
  match q with
  | [] => (Some st, [])
  | w :: q' =>
      match apply_write st w with
      | inr st' =>
          let (r, evs) := run_queue st' q' in (r, TxRequestSuccess :: evs)
      | inl d =>
          (None, TxRequestError (error_event d)
                 :: map (fun _ => TxRequestError (error_event abort_error)) q')
      end
  end.

(** [transaction.commit()], followed by the engine running the
    transaction to its end. *)
Definition commit (tx : IDBTransaction) : Step (list TxEvent) :=
  let! _ := record_call (CallCommit (tx_store tx)) in
  fun eng =>
    match find_store eng (tx_db tx) (tx_store tx) with
    | None => throw (raise InvalidStateError "The object store has been deleted.") eng
    | Some st =>
        match run_queue st (tx_queue tx) with
        | (Some st', evs) =>
            (set_store eng (tx_db tx) (tx_store tx) st', Ok (evs ++ [TxComplete]))
        | (None, evs) => (eng, Ok (evs ++ [TxAbort]))
        end
    end.

(** *** Cursors *)

(** A cursor positioned on an entry. *)
Record IDBCursor := { cur_key : Key; cur_primaryKey : Key; cur_value : Rec }.

Definition to_cursor (e : Entry) : IDBCursor :=
  {| cur_key := fst e; cur_primaryKey := rkey (snd e); cur_value := snd e |}.

(** Of the entries that share a key, the first one only. *)
Fixpoint skip_dups (prev : option Key) (l : list Entry) : list Entry :=
  match l with
  | [] => []
  | e :: l' =>
      if bool_decide (prev = Some (fst e)) then skip_dups prev l'
      else e :: skip_dups (Some (fst e)) l'
  end.

Definition in_direction (direction : string) (l : list Entry) : Res (list Entry) :=
  if String.eqb direction "next" then Ok l
  else if String.eqb direction "nextunique" then Ok (skip_dups None l)
  else if String.eqb direction "prev" then Ok (rev l)
  else if String.eqb direction "prevunique" then Ok (rev (skip_dups None l))
  else Throw TypeError.

(** [source.openCursor(query, direction)]: the positions the cursor
    goes through, in order. *)
Definition openCursor (src : Source) (query : option IDBKeyRange) (direction : string)
  : Step (list IDBCursor) :=
  let! _ := record_call (CallOpenCursor src query direction) in
  let! st := get_store src in
  let! l := lift (in_direction direction (matching st (src_index src) query)) in
  ret (map to_cursor l).

(** [cursor.advance(count)]: the number of positions to move, an
    [EnforceRange unsigned long] which has to be positive. *)
Definition advance (count : Z) : Step nat :=
  let! _ := record_call (CallAdvance count) in
  if (count <=? 0) || (max_unsigned_long <? count) then throw TypeError
  else ret (Z.to_nat count).

(** *** Opening, closing and deleting databases *)

(** What the back end answers to a request on a whole database. A
    request that stays blocked fires nothing and is not modelled. *)
Inductive Reply := Granted | Refused (e : Event).

(** The upgrade routine, as its effect on the database it is given,
    with the old and the new version. *)
Definition UpgradeFn : Type := Database -> Z -> Z -> Database.

Definition empty_database : Database := {| db_version := 0; db_stores := ∅ |}.

Definition version_error : DOMException :=
  {| ex_name := VersionError;
     ex_message := "The requested version is less than the existing version." |}.

(** [indexedDB.open(name, version)] with the [onupgradeneeded] handler
    installed on the request; [null] is read as the name ["null"] and as
    the version [0], which is refused, as is every version that is not
    an [EnforceRange unsigned long long]. The result is the event the
    request fires: error, or success with the connection. *)
Definition open (name : option string) (version : option Z)
    (onupgradeneeded : option UpgradeFn) (reply : Reply) : Step (Event + IDBDatabase) :=
  let n := default "null" name in
  let v := default 0 version in
  let! _ := record_call (CallOpen n v) in
  if (v <=? 0) || (max_unsigned_long_long <? v) then throw TypeError
  else
    match reply with
    | Refused e => ret (inl e)
    | Granted =>
        fun eng =>
          let old := default empty_database (databases eng !! n) in
          if v <? db_version old then (eng, Ok (inl (error_event version_error)))
          else if db_version old <? v then
            let upgraded :=
              match onupgradeneeded with
              | Some f => f old (db_version old) v
              | None => old
              end in
            (with_databases eng
               (<[n := {| db_version := v; db_stores := db_stores upgraded |}]>
                  (databases eng)),
             Ok (inr {| conn_name := n |}))
          else (eng, Ok (inr {| conn_name := n |}))
    end.

(** [db.close()] *)
Definition close (db : IDBDatabase) : Step unit :=
  record_call (CallClose (conn_name db)).

(** [indexedDB.deleteDatabase(name)]; the result is the event the
    request fires. *)
Definition deleteDatabase (name : option string) (reply : Reply) : Step (Event + unit) :=
  let n := default "null" name in
  let! _ := record_call (CallDeleteDatabase n) in
  match reply with
  | Refused e => ret (inl e)
  | Granted =>
      fun eng => (with_databases eng (delete n (databases eng)), Ok (inr tt))
  end.

End IDB.

(* ===================================================================== *)
(** ** The class *)
(* ===================================================================== *)

Module PixDB.
Import JS IDB.

(** The private fields [#db], [#dbName] and [#dbVersion]; [None] is
    [null]. *)
Record t := {
  db : option IDBDatabase;
  dbName : option string;
  dbVersion : option Z
}.

(** A method that returns a promise: the engine after the call and after
    the events it causes have been handled, and the promise as those
    handlers left it. *)
Definition Async (A : Type) : Type := Engine -> Engine * Promise A.

(** [new Promise((resolve, reject) => { body })]: [body] runs at once and
    an exception it throws rejects the promise. *)
Definition new_Promise {A} (body : Step (Promise A)) : Async A :=
  fun eng =>
    match body eng with
    | (eng', Ok p) => (eng', p)
    | (eng', Throw e) => (eng', Rejected e)
    end.

(** A method that also assigns private fields: the object comes back
    with the promise. *)
Definition AsyncThis (A : Type) : Type := Engine -> Engine * (t * Promise A).

(** [a || b] on strings and on numbers *)
Definition or_string (a : option string) (b : string) : string :=
  if truthy_string a then default b a else b.

Definition or_number (a : option Z) (b : Z) : Z :=
  if truthy_number a then default b a else b.

(** [#dbConnect(dbUpgradeFn)]; [reply] is the back end's answer to the
    open request. *)
Definition dbConnect (this : t) (dbUpgradeFn : option UpgradeFn) (reply : Reply)
  : AsyncThis t :=
  fun eng =>
    (* no IndexedDB support *)
    if negb (supported eng)
    then (eng, (this, Rejected (Error "No indexedDB support" None)))
    else
      (* open database *)
      match IDB.open (dbName this) (dbVersion this) dbUpgradeFn reply eng with
      | (eng', Throw e) => (eng', (this, Rejected e))
      | (eng', Ok (inr result)) =>
          (* success *)
          let this' := {| db := Some result;
                          dbName := dbName this;
                          dbVersion := dbVersion this |} in
          (eng', (this', Fulfilled this'))
      | (eng', Ok (inl e)) =>
          (* failure *)
          (eng', (this,
                  Rejected (Error (String.append "IndexedDB error "
                                     (String.append (target_errorCode e)
                                        (String.append ": " (target_message e))))
                                  (Some e))))
      end.

(** [constructor(dbName, dbVersion, dbUpgradeFn)] *)
Definition constructor (dbName : option string) (dbVersion : option Z)
    (dbUpgradeFn : option UpgradeFn) (reply : Reply) : AsyncThis t :=
  dbConnect {| db := None;
               dbName := Some (or_string dbName "db");
               dbVersion := Some (or_number dbVersion 1) |}
            dbUpgradeFn reply.

(** [connect()] *)
Definition connect (this : t) (reply : Reply) : AsyncThis bool :=
  fun eng =>
    let '(eng', (this', p)) := dbConnect this None reply eng in
    (eng', (this', catch_ (then_ p (fun _ => true)) (fun _ => false))).

(** [close()]: [this.#db.close()] on [null] is a [TypeError]. *)
Definition close (this : t) : Step t :=
  match db this with
  | None => throw TypeError
  | Some conn =>
      let! _ := IDB.close conn in
      ret {| db := None; dbName := dbName this; dbVersion := dbVersion this |}
  end.

(** [get isConnected()] *)
Definition isConnected (this : t) : bool :=
  match db this with Some _ => true | None => false end.

(** [get name()] *)
Definition name (this : t) : option string := dbName this.

(** [get version()] *)
Definition version (this : t) : option Z := dbVersion this.

(** What [#query] returns. *)
Record QueryResult := { transaction : IDBTransaction; store : Source }.

(** [#query(storeName, indexName, write)] *)
Definition query (this : t) (storeName : string) (indexName : option string)
    (write : bool) : Step QueryResult :=
  match db this with
  | None => throw TypeError
  | Some conn =>
      let! transaction :=
        IDB.transaction conn storeName
          (if write then ReadWrite else ReadOnly)
          (if write then Strict else Default) in
      let! store := IDB.objectStore transaction storeName in
      let! store :=
        (if truthy_string indexName && negb write
         then IDB.index store (default "" indexName)
         else ret store) in
      ret {| transaction := transaction; store := store |}
  end.

(** [#bound(lowerBound, upperBound)]; the result [None] is [undefined]. *)
Definition bound (lowerBound upperBound : option Key) : Res (option IDBKeyRange) :=
  if truthy lowerBound && truthy upperBound then
    match IDBKeyRange_bound lowerBound upperBound with
    | Ok r => Ok (Some r)
    | Throw e => Throw e
    end
  else if truthy lowerBound then
    match IDBKeyRange_lowerBound lowerBound with
    | Ok r => Ok (Some r)
    | Throw e => Throw e
    end
  else if truthy upperBound then
    match IDBKeyRange_upperBound upperBound with
    | Ok r => Ok (Some r)
    | Throw e => Throw e
    end
  else Ok None.

(** A range, or [undefined], as an argument. *)
Definition of_range (r : option IDBKeyRange) : Arg :=
  match r with Some r => ARange r | None => AUndefined end.

(** A number, or [undefined], as an argument. *)
Definition of_number (n : option Z) : Arg :=
  match n with Some n => AVal (KNum n) | None => AUndefined end.

(** The handlers [#update] installs on the transaction. *)
Definition update_handlers (p : Promise Value) (ev : TxEvent) : Promise Value :=
  match ev with
  | TxComplete => resolve p VUndefined
  | TxRequestError e => reject p (Error (ex_message (target_error e)) (Some e))
  | _ => p
  end.

(** [record.forEach(v => ...)] over the requests placed on a transaction *)
Fixpoint forEach (record : list Rec) (f : IDBTransaction -> Rec -> Step IDBTransaction)
    (tx : IDBTransaction) : Step IDBTransaction :=
  match record with
  | [] => ret tx
  | v :: rest => let! tx := f tx v in forEach rest f tx
  end.

(** The [item] property: one record, or an array of them. *)
Inductive Item := One (r : Rec) | Many (l : list Rec).

(** [#update(storeName, record, overwrite)] *)
Definition update (this : t) (storeName : string) (record : Item) (overwrite : bool)
  : Async Value :=
  new_Promise (
    (* readwrite transaction *)
    let! q := query this storeName None true in
    (* ensure values in an array *)
    let record := match record with Many l => l | One r => [r] end in
    (* write all values *)
    let! tx := forEach record
                 (fun tx v => if overwrite then IDB.put tx v else IDB.add tx v)
                 (transaction q) in
    (* commit changes *)
    let! events := IDB.commit tx in
    ret (foldl update_handlers Pending events)).

(** [add({ store, item = [] })] *)
Definition add (this : t) (store : string) (item : option Item) : Async Value :=
  update this store (default (Many []) item) false.

(** [put({ store, item = [] })] *)
Definition put (this : t) (store : string) (item : option Item) : Async Value :=
  update this store (default (Many []) item) true.

(** The handlers [#exec] installs on the request. *)
Definition exec_handlers (p : Promise Value) (request : Settled) : Promise Value :=
  match request with
  | Success result => resolve p result
  | Failure error =>
      reject p (match error with Some d => DOM d | None => JsFalse end)
  end.

(** [#exec(storeName, indexName, method, args)] *)
Definition exec (this : t) (storeName : string) (indexName : option string)
    (method : string) (args : Arg) : Async Value :=
  new_Promise (
    let args := as_array args in
    let write := String.eqb method "delete" || String.eqb method "clear" in
    let! q := query this storeName indexName write in
    let! request := IDB.invoke (store q) method args in
    ret (exec_handlers Pending request)).

(** A method whose arguments are computed before the promise exists can
    throw instead of returning one. *)
Definition with_bound {A} (lowerBound upperBound : option Key)
    (k : option IDBKeyRange -> Async A) : Engine -> Res (Engine * Promise A) :=
  fun eng =>
    match bound lowerBound upperBound with
    | Ok range => Ok (k range eng)
    | Throw e => Throw e
    end.

(** [count({ store, index, lowerBound, upperBound })] *)
Definition count (this : t) (store : string) (index : option string)
    (lowerBound upperBound : option Key) : Engine -> Res (Engine * Promise Value) :=
  with_bound lowerBound upperBound
    (fun range => exec this store index "count" (of_range range)).

(** [get({ store, index, key })] *)
Definition get (this : t) (store : string) (index : option string) (key : Key)
  : Async Value :=
  exec this store index "get" (AVal key).

(** [getAll({ store, index, lowerBound, upperBound, count })] *)
Definition getAll (this : t) (store : string) (index : option string)
    (lowerBound upperBound : option Key) (count : option Z)
  : Engine -> Res (Engine * Promise Value) :=
  with_bound lowerBound upperBound
    (fun range => exec this store index "getAll"
                    (AList [of_range range; of_number count])).

(** [getAllKeys({ store, index, lowerBound, upperBound, count })] *)
Definition getAllKeys (this : t) (store : string) (index : option string)
    (lowerBound upperBound : option Key) (count : option Z)
  : Engine -> Res (Engine * Promise Value) :=
  with_bound lowerBound upperBound
    (fun range => exec this store index "getAllKeys"
                    (AList [of_range range; of_number count])).

(** [delete({ store, key })] *)
Definition delete (this : t) (store : string) (key : Key) : Async Value :=
  exec this store None "delete" (AList [AVal key]).

(** [deleteAll({ store, index, lowerBound, upperBound })] *)
Definition deleteAll (this : t) (store : string) (index : option string)
    (lowerBound upperBound : option Key) : Engine -> Res (Engine * Promise Value) :=
  with_bound lowerBound upperBound
    (fun range => exec this store index "delete" (AList [of_range range])).

(** [clear({ store })] *)
Definition clear (this : t) (store : string) : Async Value :=
  exec this store None "clear" AUndefined.

(** The [callback] of [getCursor]: it is given the cursor and returns
    a number, or nothing ([None]). *)
Definition Callback : Type := IDBCursor -> option Z.

(** [(callback && callback(cursor)) || 1] *)
Definition advance_count (callback : option Callback) (cursor : IDBCursor) : Z :=
  or_number (match callback with Some f => f cursor | None => None end) 1.

(** What the success handler of [getCursor] does. *)
Inductive Reaction := Advance (count : Z) | Resolve (v : bool).

(** [request.onsuccess] of [getCursor]; [result] is [request.result],
    [None] when the cursor has run out. *)
Definition cursor_onsuccess (callback : option Callback) (result : option IDBCursor)
  : Reaction :=
  match result with
  | Some cursor => Advance (advance_count callback cursor)
  | None => Resolve true
  end.

(** [request.onerror] of [getCursor]: the value given to [reject]. *)
Definition cursor_onerror (error : DOMException) : Reason := DOM error.

(** A failure of the back end during a traversal: [Some (j, e)] makes
    the fetch after [j] delivered positions report the error [e]. *)
Definition Fault : Type := option (nat * DOMException).

Definition due (fault : Fault) : option DOMException :=
  match fault with Some (O, e) => Some e | _ => None end.

Definition tick (fault : Fault) : Fault :=
  match fault with Some (S j, e) => Some (j, e) | _ => fault end.

(** The promise of a traversal and the positions its handler was given. *)
Record Traversal := { promise : Promise bool; visited : list IDBCursor }.

(** The dialogue between the engine and the success handler: [rest] are
    the positions ahead, [skip] how many of them the last [advance] still
    jumps over. An exception in the handler leaves the promise pending
    (nothing settles it any more). *)
Fixpoint traverse (callback : option Callback) (rest : list IDBCursor) (skip : nat)
    (fault : Fault) (seen : list IDBCursor) : Engine -> Engine * Traversal :=
  match rest with
  | [] =>
      fun eng =>
        match due fault with
        | Some e => (eng, {| promise := reject Pending (cursor_onerror e); visited := seen |})
        | None =>
            match cursor_onsuccess callback None with
            | Resolve v => (eng, {| promise := resolve Pending v; visited := seen |})
            | Advance _ => (eng, {| promise := Pending; visited := seen |})
            end
        end
  | cursor :: rest' =>
      match skip with
      | S k => traverse callback rest' k fault seen
      | O =>
          fun eng =>
            match due fault with
            | Some e =>
                (eng, {| promise := reject Pending (cursor_onerror e); visited := seen |})
            | None =>
                match cursor_onsuccess callback (Some cursor) with
                | Resolve v =>
                    (eng, {| promise := resolve Pending v; visited := seen ++ [cursor] |})
                | Advance n =>
                    match IDB.advance n eng with
                    | (eng', Ok k) =>
                        traverse callback rest' (Nat.pred k) (tick fault)
                                 (seen ++ [cursor]) eng'
                    | (eng', Throw _) =>
                        (eng', {| promise := Pending; visited := seen ++ [cursor] |})
                    end
                end
            end
      end
  end.

(** [getCursor({ store, index, lowerBound, upperBound, direction = 'next',
    callback })] *)
Definition getCursor (this : t) (store : string) (index : option string)
    (lowerBound upperBound : option Key) (direction : option string)
    (callback : option Callback) (fault : Fault) : Engine -> Engine * Traversal :=
  fun eng =>
    match (let! q := query this store index false in
           let! range := lift (bound lowerBound upperBound) in
           IDB.openCursor (PixDB.store q) range (default "next" direction)) eng with
    | (eng', Ok positions) => traverse callback positions 0 fault [] eng'
    | (eng', Throw e) => (eng', {| promise := Rejected e; visited := [] |})
    end.

(** [drop()]; [reply] is the back end's answer to the deletion. *)
Definition drop (this : t) (reply : Reply) : AsyncThis bool :=
  fun eng =>
    match close this eng with
    | (eng', Throw e) => (eng', (this, Rejected e))
    | (eng', Ok this') =>
        match IDB.deleteDatabase (dbName this') reply eng' with
        | (eng'', Ok (inr _)) =>
            (eng'', ({| db := db this'; dbName := None; dbVersion := None |},
                     resolve Pending true))
        | (eng'', Ok (inl _)) => (eng'', (this', reject Pending JsFalse))
        | (eng'', Throw e) => (eng'', (this', Rejected e))
        end
    end.

End PixDB.

Import JS IDB.

(* ===================================================================== *)
(** ** Vocabulary of the specification *)
(* ===================================================================== *)

(** What the caller sees when it calls a method that returns a promise:
    the promise is built first, so the call itself returns. *)
Definition call {A} (m : Engine -> Engine * A) : Engine -> Engine * Res A :=
  fun eng => let (eng', a) := m eng in (eng', Ok a).

(** A call throws synchronously. *)
Definition throws {A} (r : Engine * Res A) : Prop :=
  exists e, snd r = Throw e.

(** The calls an operation sent to the engine. *)
Definition issued (before after : Engine) : list Call :=
  drop (length (log before)) (log after).

(** The key space each data request of a list of calls works on: the
    store, and the index if the request goes through one. *)
Definition targets (l : list Call) : list (string * option string) :=
  omap (fun c =>
          match c with
          | CallMethod src _ _ => Some (src_store src, src_index src)
          | CallOpenCursor src _ _ => Some (src_store src, src_index src)
          | CallAdd s _ => Some (s, None)
          | CallPut s _ => Some (s, None)
          | _ => None
          end) l.

(** The records of a batch. *)
Definition items_of (item : option PixDB.Item) : list Rec :=
  match item with
  | Some (PixDB.One r) => [r]
  | Some (PixDB.Many l) => l
  | None => []
  end.

(** The store a connected object reaches under a name. *)
Definition store_at (eng : Engine) (this : PixDB.t) (name : string) : option Store :=
  match PixDB.db this with
  | Some conn => find_store eng (conn_name conn) name
  | None => None
  end.

(** An error is of the class [n]: it is the engine's exception of that
    name, or an [Error] built from an event whose request failed with it. *)
Definition of_class (n : ExName) (r : Reason) : Prop :=
  match r with
  | DOM d => ex_name d = n
  | Error msg (Some e) => ex_name (target_error e) = n /\ msg = ex_message (target_error e)
  | _ => False
  end.

(** A bound the helper recognises as given: absent, or a truthy key. *)
Definition absent_or_truthy (v : option Key) : Prop :=
  match v with
  | Some k => truthy_key k = true
  | None => True
  end.

(** The range the specification describes for a pair of optional bounds,
    both ends closed. *)
Definition range_of (lowerBound upperBound : option Key) : option IDBKeyRange :=
  match lowerBound, upperBound with
  | None, None => None
  | _, _ => Some {| lower := lowerBound; upper := upperBound |}
  end.

(** An index argument naming an index of the store: not the empty name,
    and defined on the store. *)
Definition names_index (st : Store) (index : string) : Prop :=
  index <> "" /\ is_Some (st_indexes st !! index).

(** The engine after it received the calls [cs] and nothing else
    changed. *)
Definition logged (eng : Engine) (cs : list Call) : Engine :=
  {| supported := supported eng; databases := databases eng; log := log eng ++ cs |}.

(** The transaction and the source [#query] hands out. *)
Definition tx_of (conn : IDBDatabase) (s : string) (write : bool) : IDBTransaction :=
  {| tx_db := conn_name conn; tx_store := s;
     tx_mode := if write then ReadWrite else ReadOnly;
     tx_durability := if write then Strict else Default;
     tx_queue := [] |}.

Definition source_of (conn : IDBDatabase) (s : string) (write : bool)
    (index : option string) : Source :=
  {| src_db := conn_name conn; src_store := s;
     src_mode := if write then ReadWrite else ReadOnly;
     src_index := index |}.

(** *** Cursor traversal, in the words of the documentation *)

(** How far a traversal moves after a position: the positive integer the
    callback returned, one otherwise. *)
Definition step_of (callback : option PixDB.Callback) (c : IDBCursor) : nat :=
  match callback with
  | Some f => match f c with Some n => Z.to_nat n | None => 1%nat end
  | None => 1%nat
  end.

(** The positions visited from position [pos] on, by position number. *)
Fixpoint positions_from (callback : option PixDB.Callback) (l : list IDBCursor)
    (pos fuel : nat) : list IDBCursor :=
  match fuel with
  | O => []
  | S fuel' =>
      match l !! pos with
      | Some c => c :: positions_from callback l (pos + step_of callback c) fuel'
      | None => []
      end
  end.

Definition positions (callback : option PixDB.Callback) (l : list IDBCursor)
  : list IDBCursor :=
  positions_from callback l 0 (length l).

(** The callback returns nothing or a positive integer that the engine
    takes as a count. *)
Definition well_behaved (callback : option PixDB.Callback) : Prop :=
  forall f c, callback = Some f ->
    match f c with Some n => 0 < n <= max_unsigned_long | None => True end.

(** With a failure of the back end at fetch [j], the positions delivered
    before it; all of them otherwise. *)
Definition reached (fault : PixDB.Fault) (ps : list IDBCursor) : list IDBCursor :=
  match fault with
  | Some (j, _) => take j ps
  | None => ps
  end.

(** How the operation ends: rejected with the engine's error when a fetch
    fails, be it the one that would find the cursor exhausted; resolved
    with [true] otherwise. *)
Definition outcome (fault : PixDB.Fault) (ps : list IDBCursor) : Promise bool :=
  match fault with
  | Some (j, e) => if (j <=? length ps)%nat then Rejected (DOM e) else Fulfilled true
  | None => Fulfilled true
  end.

(** A traversal as the specification has it for a step that fails:
    when the engine refuses the advance asked for at a position visited,
    the operation rejects with the error the engine reported. *)
Definition failed_step_rejects (callback : option PixDB.Callback)
    (result : PixDB.Traversal) : Prop :=
  forall c e,
    c ∈ PixDB.visited result ->
    (forall eng, snd (IDB.advance (PixDB.advance_count callback c) eng) = Throw e) ->
    PixDB.promise result = Rejected e.

(** The request to advance made at a position. *)
Definition advance_call (callback : option PixDB.Callback) (c : IDBCursor) : Call :=
  CallAdvance (Z.of_nat (step_of callback c)).

(** The transaction with further requests placed. *)
Definition queued (tx : IDBTransaction) (ws : list WriteReq) : IDBTransaction :=
  {| tx_db := tx_db tx; tx_store := tx_store tx; tx_mode := tx_mode tx;
     tx_durability := tx_durability tx; tx_queue := tx_queue tx ++ ws |}.

(** *** What the specification says of [drop] and [close] *)

(** [drop] as the specification has it: the database of the stored name
    is asked to be deleted and the object is left disconnected; when the
    deletion succeeds the promise resolves with [true], the database is
    gone and name and version are [null]; when it fails the promise
    rejects with [false], and the databases, the name and the version are
    as they were. *)
Definition drop_as_stated (this : PixDB.t) (reply : Reply) (eng : Engine) : Prop :=
  let '(eng', (this', p)) := PixDB.drop this reply eng in
  let name := default "null" (PixDB.dbName this) in
  CallDeleteDatabase name ∈ issued eng eng'
  /\ PixDB.isConnected this' = false
  /\ match reply with
     | Granted =>
         p = Fulfilled true
         /\ databases eng' = delete name (databases eng)
         /\ PixDB.name this' = None
         /\ PixDB.version this' = None
     | Refused _ =>
         p = Rejected JsFalse
         /\ databases eng' = databases eng
         /\ PixDB.name this' = PixDB.name this
         /\ PixDB.version this' = PixDB.version this
     end.

(** On a [null] handle both [close] and [drop] throw at the call. *)
Definition null_handle_throws (this : PixDB.t) (reply : Reply) (eng : Engine) : Prop :=
  throws (PixDB.close this eng) /\ throws (call (PixDB.drop this reply) eng).

(** A key that is not an array. *)
Definition scalar (k : Key) : Prop :=
  match k with KArr _ => False | _ => True end.

(** *** What the specification says of the key-range helper *)

(** The helper as the specification has it: the range of the bounds that
    are given. *)
Definition bound_as_stated (lowerBound upperBound : option Key) : Prop :=
  PixDB.bound lowerBound upperBound = Ok (range_of lowerBound upperBound).

(** Both bounds are given and the lower one is the greater. *)
Definition inverted (lowerBound upperBound : option Key) : bool :=
  match lowerBound, upperBound with
  | Some l, Some u => match key_cmp l u with Gt => true | _ => false end
  | _, _ => false
  end.

(** The range each data request of a list of calls was given. *)
Definition ranges (l : list Call) : list (option IDBKeyRange) :=
  omap (fun c =>
          match c with
          | CallMethod _ _ (ARange r :: _) => Some (Some r)
          | CallMethod _ _ (AUndefined :: _) => Some None
          | CallOpenCursor _ r _ => Some r
          | _ => None
          end) l.

(** The engine after a call that may have thrown. *)
Definition after {A} (r : Res (Engine * A)) (eng : Engine) : Engine :=
  match r with
  | Ok (eng', _) => eng'
  | Throw _ => eng
  end.

(** An optional index argument a read can be scoped to: left out, or the
    name of an index of the store. *)
Definition index_of (st : Store) (index : option string) : Prop :=
  match index with
  | Some i => names_index st i
  | None => True
  end.

(** The calls [#query] makes. *)
Definition query_calls (s : string) (index : option string) (write : bool) : list Call :=
  CallTransaction s (if write then ReadWrite else ReadOnly)
                    (if write then Strict else Default)
  :: match index with
     | Some i => [CallIndex s i]
     | None => []
     end.

(** *** What the specification says of index selection *)

(** Each of the five reads, given the index name [index], works on that
    index of the store. *)
Definition reads_scoped (this : PixDB.t) (eng : Engine) (s index : string)
    (lowerBound upperBound : option Key) (key : Key) (limit : option Z)
    (direction : option string) (callback : option PixDB.Callback)
    (fault : PixDB.Fault) : Prop :=
  let on_index := [(s, Some index)] in
  targets (issued eng (after (PixDB.count this s (Some index) lowerBound upperBound eng) eng))
  = on_index
  /\ targets (issued eng (fst (PixDB.get this s (Some index) key eng))) = on_index
  /\ targets (issued eng (after (PixDB.getAll this s (Some index) lowerBound upperBound
                                              limit eng) eng))
     = on_index
  /\ targets (issued eng (after (PixDB.getAllKeys this s (Some index) lowerBound upperBound
                                                  limit eng) eng))
     = on_index
  /\ targets (issued eng (fst (PixDB.getCursor this s (Some index) lowerBound upperBound
                                               direction callback fault eng)))
     = on_index.

(** Each write works on the store itself: one request per record for [add]
    and [put], one request for [delete], [deleteAll] (whatever index
    argument it is given) and [clear]. *)
Definition writes_on_store (this : PixDB.t) (eng : Engine) (s : string)
    (index : option string) (lowerBound upperBound : option Key) (key : Key)
    (item : option PixDB.Item) : Prop :=
  let on_store := (s, @None string) in
  targets (issued eng (fst (PixDB.add this s item eng)))
  = map (fun _ => on_store) (items_of item)
  /\ targets (issued eng (fst (PixDB.put this s item eng)))
     = map (fun _ => on_store) (items_of item)
  /\ targets (issued eng (fst (PixDB.delete this s key eng))) = [on_store]
  /\ targets (issued eng (after (PixDB.deleteAll this s index lowerBound upperBound eng) eng))
     = [on_store]
  /\ targets (issued eng (fst (PixDB.clear this s eng))) = [on_store].

(* ===================================================================== *)
(** ** A sample database *)
(* ===================================================================== *)

(** The store of the test page: [state], keyed by [name], with its two
    indexes, and one more index whose name is the empty string. *)
Module Sample.

Definition a : Rec :=
  {| rkey := KStr "a"; rfields := [("update", KDate 100); ("expire", KDate 107)]; rdata := 1 |}.
Definition b : Rec :=
  {| rkey := KStr "b"; rfields := [("update", KDate 100); ("expire", KDate 106)]; rdata := 2 |}.
Definition c : Rec :=
  {| rkey := KStr "c"; rfields := [("update", KDate 100)]; rdata := 3 |}.
Definition d : Rec :=
  {| rkey := KStr "d"; rfields := [("update", KDate 100); ("expire", KDate 104)]; rdata := 4 |}.

Definition indexes : gmap string IndexDef :=
  {[ "updateIdx" := {| ix_keyPath := "update"; ix_unique := false |};
     "expireIdx" := {| ix_keyPath := "expire"; ix_unique := false |};
     "" := {| ix_keyPath := "expire"; ix_unique := false |} ]}.

Definition state : Store := {| st_records := [b; a; c]; st_indexes := indexes |}.

Definition database : Database :=
  {| db_version := 1; db_stores := {[ "state" := state ]} |}.

Definition engine : Engine :=
  {| supported := true; databases := {[ "test" := database ]}; log := [] |}.

Definition connected : PixDB.t :=
  {| PixDB.db := Some {| conn_name := "test" |};
     PixDB.dbName := Some "test";
     PixDB.dbVersion := Some 1 |}.

Definition closed : PixDB.t :=
  {| PixDB.db := None; PixDB.dbName := Some "test"; PixDB.dbVersion := Some 1 |}.

(** A store with numeric keys. *)
Definition numbered : Store :=
  {| st_records := [ {| rkey := KNum (-1); rfields := []; rdata := 0 |};
                     {| rkey := KNum 2; rfields := []; rdata := 0 |} ];
     st_indexes := ∅ |}.

Definition engine_numbered : Engine :=
  {| supported := true;
     databases := {[ "test" := {| db_version := 1;
                                  db_stores := {[ "state" := numbered ]} |} ]};
     log := [] |}.

(** A callback that jumps two positions at [a] and returns nothing
    elsewhere. *)
Definition hop : PixDB.Callback :=
  fun cursor => if bool_decide (cur_primaryKey cursor = KStr "a") then Some 2 else None.

(** The record of key ["a"] with other contents. *)
Definition a_updated : Rec :=
  {| rkey := KStr "a"; rfields := [("update", KDate 200)]; rdata := 9 |}.

(** A record with a new key and the [expire] property of [a]. *)
Definition e : Rec :=
  {| rkey := KStr "e"; rfields := [("update", KDate 100); ("expire", KDate 107)]; rdata := 5 |}.



(** A callback that returns [-1] at the record of key ["b"] and nothing
    elsewhere. *)
Definition stepping_back : PixDB.Callback :=
  fun cursor => if bool_decide (cur_primaryKey cursor = KStr "b") then Some (-1) else None.

Definition failure : DOMException :=
  {| ex_name := UnknownError; ex_message := "Internal error." |}.

End Sample.

(* ===================================================================== *)
(** ** The test page, run on the model *)
(* ===================================================================== *)

(** The steps of the repository's test page, in order, on an engine with
    no database; dates are counted in days from [update]. *)
Module TestPage.

Definition update : Z := 0.

Definition row (name : string) (value : Z) (days : Z) : Rec :=
  {| rkey := KStr name;
     rfields := [("update", KDate update); ("expire", KDate (update + days))];
     rdata := value |}.

(** The upgrade routine of the page: from version [0], the store [state]
    with its two indexes. *)
Definition upgrade : UpgradeFn :=
  fun db oldVersion newVersion =>
    if oldVersion =? 0
    then {| db_version := db_version db;
            db_stores :=
              <["state" := {| st_records := [];
                              st_indexes :=
                                {[ "updateIdx" := {| ix_keyPath := "update"; ix_unique := false |};
                                   "expireIdx" := {| ix_keyPath := "expire"; ix_unique := false |} ]} |}]>
                (db_stores db) |}
    else db.

Definition fresh : Engine := {| supported := true; databases := ∅; log := [] |}.

(** [await] of a call that may throw: the exception is what is caught. *)
Definition await {A} (r : Res (Engine * Promise A)) (eng : Engine) : Engine * Promise A :=
  match r with
  | Ok x => x
  | Throw e => (eng, Rejected e)
  end.

Definition names (p : Promise Value) : list Key :=
  match p with
  | Fulfilled (VRecords l) => map rkey l
  | Fulfilled (VRecord r) => [rkey r]
  | Fulfilled (VKeys l) => l
  | _ => []
  end.

Definition rejected {A} (p : Promise A) : bool :=
  match p with Rejected _ => true | _ => false end.

(** What the page observes, step by step. *)
Record Observed := {
  o_open : bool * option string * option Z;
  o_cleared : Promise Value;
  o_seven : Promise Value;
  o_add_again : bool;
  o_put_again : Promise Value;
  o_delete_twice : Promise Value * Promise Value;
  o_six : Promise Value;
  o_four : Promise Value;
  o_add_back : Promise Value;
  o_seven_again : Promise Value;
  o_get_a : list Key;
  o_get_by_update : list Key;
  o_all : list Key;
  o_b_to_e : list Key;
  o_keys : list Key;
  o_expire_soon : list Key;
  o_by_expiry : list Key * Promise bool;
  o_closed : bool;
  o_reconnected : Promise bool * bool;
  o_dropped : Promise bool * bool * option string * option Z * nat
}.

Definition run : Observed :=
  let '(e, (db, _)) := PixDB.constructor (Some "test") (Some 1) (Some upgrade) Granted fresh in
  let opened := (PixDB.isConnected db, PixDB.name db, PixDB.version db) in
  let '(e, _) := PixDB.clear db "state" e in
  let '(e, cleared) := await (PixDB.count db "state" None None None e) e in
  let '(e, _) := PixDB.put db "state"
                   (Some (PixDB.Many [row "a" 1 7; row "b" 2 6; row "c" 3 5;
                                      row "d" 4 4; row "e" 5 3; row "f" 6 2])) e in
  let '(e, _) := PixDB.add db "state" (Some (PixDB.One (row "g" 7 1))) e in
  let '(e, seven) := await (PixDB.count db "state" None None None e) e in
  let '(e, add_again) := PixDB.add db "state" (Some (PixDB.One (row "a" 1 7))) e in
  let '(e, put_again) := PixDB.put db "state" (Some (PixDB.One (row "a" 1 7))) e in
  let '(e, delete1) := PixDB.delete db "state" (KStr "a") e in
  let '(e, delete2) := PixDB.delete db "state" (KStr "a") e in
  let '(e, six) := await (PixDB.count db "state" None None None e) e in
  let '(e, _) := await (PixDB.deleteAll db "state" None
                          (Some (KStr "a")) (Some (KStr "c")) e) e in
  let '(e, four) := await (PixDB.count db "state" None None None e) e in
  let '(e, add_back) := PixDB.add db "state"
                          (Some (PixDB.Many [row "a" 1 7; row "b" 2 6; row "c" 3 5])) e in
  let '(e, seven_again) := await (PixDB.count db "state" None None None e) e in
  let '(e, get_a) := PixDB.get db "state" None (KStr "a") e in
  let '(e, get_by_update) := PixDB.get db "state" (Some "updateIdx") (KDate update) e in
  let '(e, all) := await (PixDB.getAll db "state" None None None None e) e in
  let '(e, b_to_e) := await (PixDB.getAll db "state" None
                               (Some (KStr "b")) (Some (KStr "e")) None e) e in
  let '(e, keys) := await (PixDB.getAllKeys db "state" None None None None e) e in
  let '(e, expire_soon) := await (PixDB.getAll db "state" (Some "expireIdx")
                                    None (Some (KDate (update + 3))) None e) e in
  let '(e, by_expiry) := PixDB.getCursor db "state" (Some "expireIdx") None None None
                           (Some (fun _ => None)) None e in
  let '(e, r) := PixDB.close db e in
  let db := match r with Ok db' => db' | Throw _ => db end in
  let closed := PixDB.isConnected db in
  let '(e, (db, reconnected)) := PixDB.connect db Granted e in
  let connected := PixDB.isConnected db in
  let '(e, (db, dropped)) := PixDB.drop db Granted e in
  {| o_open := opened;
     o_cleared := cleared;
     o_seven := seven;
     o_add_again := rejected add_again;
     o_put_again := put_again;
     o_delete_twice := (delete1, delete2);
     o_six := six;
     o_four := four;
     o_add_back := add_back;
     o_seven_again := seven_again;
     o_get_a := names get_a;
     o_get_by_update := names get_by_update;
     o_all := names all;
     o_b_to_e := names b_to_e;
     o_keys := names keys;
     o_expire_soon := names expire_soon;
     o_by_expiry := (map cur_primaryKey (PixDB.visited by_expiry), PixDB.promise by_expiry);
     o_closed := closed;
     o_reconnected := (reconnected, connected);
     o_dropped := (dropped, PixDB.isConnected db, PixDB.name db, PixDB.version db,
                   size (databases e)) |}.

End TestPage.

(* ===================================================================== *)
(** ** Vocabulary of the further properties *)
(* ===================================================================== *)

(** Induction on keys, through the arrays. *)
Fixpoint Key_induction (P : Key -> Prop)
    (HNum : forall n, P (KNum n)) (HDate : forall t, P (KDate t))
    (HStr : forall s, P (KStr s))
    (HArr : forall ks, Forall P ks -> P (KArr ks)) (k : Key) : P k :=
  match k with
  | KNum n => HNum n
  | KDate t => HDate t
  | KStr s => HStr s
  | KArr ks =>
      HArr ks ((fix go (l : list Key) : Forall P l :=
                  match l with
                  | [] => @Stdlib.Lists.List.Forall_nil Key P
                  | x :: l' =>
                      @Stdlib.Lists.List.Forall_cons Key P x l'
                        (Key_induction P HNum HDate HStr HArr x) (go l')
                  end) ks)
  end.

(** The transactions opened by a list of calls. *)
Definition transactions (l : list Call) : list (string * Mode * Durability) :=
  omap (fun c =>
          match c with
          | CallTransaction s m d => Some (s, m, d)
          | _ => None
          end) l.

(** No index of the store is a unique one. *)
Definition no_unique (st : Store) : Prop :=
  forall i d, st_indexes st !! i = Some d -> ix_unique d = false.

(** The records left when those whose key is in the query are removed. *)
Definition without (q : option IDBKeyRange) (recs : list Rec) : list Rec :=
  List.filter (fun r => negb (in_query q (rkey r))) recs.

(** The name and the version the constructor settles on. *)
Definition name_or_default (dbName : option string) : string :=
  match dbName with
  | Some n => if String.eqb n "" then "db" else n
  | None => "db"
  end.

Definition version_or_default (dbVersion : option Z) : Z :=
  match dbVersion with
  | Some v => if v =? 0 then 1 else v
  | None => 1
  end.

(** The database an open at version [v] leaves under a name: the upgrade
    routine, when there is one, is run on what was there (nothing, at
    version [0], for a new name) if [v] is the higher version. *)
Definition opened_database (eng : Engine) (n : string) (v : Z)
    (upgrade : option UpgradeFn) : Database :=
  let old := default empty_database (databases eng !! n) in
  if db_version old <? v
  then {| db_version := v;
          db_stores := db_stores (match upgrade with
                                  | Some f => f old (db_version old) v
                                  | None => old
                                  end) |}
  else old.

(** The objects a program can hold: the one a constructor resolved with,
    and what [connect], [close] and [drop] make of it. *)
Inductive reachable : PixDB.t -> Prop :=
| reach_new dbName dbVersion dbUpgradeFn reply eng eng' this :
    PixDB.constructor dbName dbVersion dbUpgradeFn reply eng = (eng', (this, Fulfilled this)) ->
    reachable this
| reach_connect this reply eng eng' this' p :
    reachable this ->
    PixDB.connect this reply eng = (eng', (this', p)) ->
    reachable this'
| reach_close this eng eng' this' :
    reachable this ->
    PixDB.close this eng = (eng', Ok this') ->
    reachable this'
| reach_drop this reply eng eng' this' p :
    reachable this ->
    PixDB.drop this reply eng = (eng', (this', p)) ->
    reachable this'.

(** What holds of every such object: a connection is to the database of
    the stored name; name and version are [null] together, and then the
    object is not connected; a name is not empty and a version is
    positive. *)
Definition well_formed (this : PixDB.t) : Prop :=
  (forall conn, PixDB.db this = Some conn -> PixDB.dbName this = Some (conn_name conn))
  /\ (PixDB.dbName this = None <-> PixDB.dbVersion this = None)
  /\ (PixDB.dbName this = None -> PixDB.db this = None)
  /\ (forall n, PixDB.dbName this = Some n -> n <> "")
  /\ (forall v, PixDB.dbVersion this = Some v -> 0 < v).

(** A call that asks a cursor to advance. *)
Definition is_advance (c : Call) : Prop := exists n, c = CallAdvance n.

(** The records of a store after the records of a batch were put one
    after the other. *)
Definition put_all (recs : list Rec) (old : list Rec) : list Rec :=
  foldl (fun l v => store_put v l) old recs.

(** The records whose key is not [k]. *)
Definition other_keys (k : Key) (recs : list Rec) : list Rec :=
  List.filter (fun r => negb (bool_decide (rkey r = k))) recs.

(** A callback that moves a traversal one position at a time: it is
    absent, or returns nothing, [0] or [1] at every position. *)
Definition one_by_one (callback : option PixDB.Callback) : Prop :=
  forall f c, callback = Some f -> f c = None \/ f c = Some 0 \/ f c = Some 1.

(* ===================================================================== *)
(** ** The model against the test page *)
(* ===================================================================== *)

(** The model gives what the assertions of the test page expect. *)
Example test_page_passes :
  TestPage.run =
  {| TestPage.o_open := (true, Some "test", Some 1);
     TestPage.o_cleared := Fulfilled (VNumber 0);
     TestPage.o_seven := Fulfilled (VNumber 7);
     TestPage.o_add_again := true;
     TestPage.o_put_again := Fulfilled VUndefined;
     TestPage.o_delete_twice := (Fulfilled VUndefined, Fulfilled VUndefined);
     TestPage.o_six := Fulfilled (VNumber 6);
     TestPage.o_four := Fulfilled (VNumber 4);
     TestPage.o_add_back := Fulfilled VUndefined;
     TestPage.o_seven_again := Fulfilled (VNumber 7);
     TestPage.o_get_a := [KStr "a"];
     TestPage.o_get_by_update := [KStr "a"];
     TestPage.o_all := KStr <$> ["a"; "b"; "c"; "d"; "e"; "f"; "g"];
     TestPage.o_b_to_e := KStr <$> ["b"; "c"; "d"; "e"];
     TestPage.o_keys := KStr <$> ["a"; "b"; "c"; "d"; "e"; "f"; "g"];
     TestPage.o_expire_soon := KStr <$> ["g"; "f"; "e"];
     TestPage.o_by_expiry := (KStr <$> ["g"; "f"; "e"; "d"; "c"; "b"; "a"], Fulfilled true);
     TestPage.o_closed := false;
     TestPage.o_reconnected := (Fulfilled true, true);
     TestPage.o_dropped := (Fulfilled true, false, None, None, 0%nat) |}.
Proof. vm_compute. reflexivity. Qed.

(* ===================================================================== *)
(** ** Auxiliary facts *)
(* ===================================================================== *)

Section Query.

Variables (this : PixDB.t) (conn : IDBDatabase) (eng : Engine) (s : string) (st : Store).
Hypothesis Hconn : PixDB.db this = Some conn.
Hypothesis Hstore : find_store eng (conn_name conn) s = Some st.

(** Without an index in play, [#query] opens a transaction and hands
    out the object store. *)
Lemma query_store index write :
  truthy_string index && negb write = false ->
  PixDB.query this s index write eng =
    (logged eng [CallTransaction s (if write then ReadWrite else ReadOnly)
                                   (if write then Strict else Default)],
     Ok {| PixDB.transaction := tx_of conn s write;
           PixDB.store := source_of conn s write None |}).
Proof.
  intros Hix. unfold PixDB.query. rewrite Hconn.
  unfold find_store in Hstore.
  unfold bind at 1. unfold IDB.transaction.
  destruct (databases eng !! conn_name conn) as [d|] eqn:Hd; [|discriminate].
  rewrite Hstore. cbn.
  unfold bind, objectStore. cbn. rewrite String.eqb_refl. cbn.
  rewrite Hix. reflexivity.
Qed.

(** With a non-empty index name and read access, it hands out the index. *)
Lemma query_index index :
  names_index st index ->
  PixDB.query this s (Some index) false eng =
    (logged eng [CallTransaction s ReadOnly Default; CallIndex s index],
     Ok {| PixDB.transaction := tx_of conn s false;
           PixDB.store := source_of conn s false (Some index) |}).
Proof.
  intros [Hne [d' Hd']]. unfold PixDB.query. rewrite Hconn.
  pose proof Hstore as Hst. unfold find_store in Hst.
  unfold bind at 1. unfold IDB.transaction.
  destruct (databases eng !! conn_name conn) as [d|] eqn:Hd; [|discriminate].
  rewrite Hst. cbn.
  unfold bind, objectStore. cbn. rewrite String.eqb_refl. cbn.
  assert (String.eqb index "" = false) as -> by (apply String.eqb_neq; exact Hne).
  cbn. unfold IDB.index. cbn. unfold find_store. cbn. rewrite Hd, Hst, Hd'. cbn.
  unfold logged. cbn. rewrite <- app_assoc. reflexivity.
Qed.

End Query.

Section Batches.

Lemma handlers_rejected r evs :
  foldl PixDB.update_handlers (Rejected r) evs = Rejected r.
Proof. induction evs as [|ev evs IH]; [reflexivity|]. destruct ev; exact IH. Qed.

(** Placing the requests of a batch: one call per record, in order. *)
Lemma forEach_places (overwrite : bool) recs : forall tx eng,
  tx_mode tx = ReadWrite ->
  PixDB.forEach recs
    (fun tx v => if overwrite then IDB.put tx v else IDB.add tx v) tx eng
  = (logged eng (map (fun v => if overwrite then CallPut (tx_store tx) v
                                else CallAdd (tx_store tx) v) recs),
     Ok (queued tx (map (fun v => if overwrite then WPut v else WAdd v) recs))).
Proof.
  induction recs as [|v recs IH]; intros tx eng Hrw.
  - cbn. unfold ret, logged, queued. rewrite !app_nil_r.
    destruct eng, tx; reflexivity.
  - cbn [PixDB.forEach]. unfold bind at 1.
    assert ((if overwrite then IDB.put tx v else IDB.add tx v) eng
            = (logged eng [if overwrite then CallPut (tx_store tx) v
                           else CallAdd (tx_store tx) v],
               Ok (queued tx [if overwrite then WPut v else WAdd v]))) as ->.
    { destruct overwrite; unfold IDB.put, IDB.add, queued; rewrite Hrw; reflexivity. }
    rewrite IH by exact Hrw.
    unfold logged, queued. cbn. rewrite <- !app_assoc. reflexivity.
Qed.

Lemma has_key_app k recs v :
  has_key k recs = true -> has_key k (recs ++ [v]) = true.
Proof.
  unfold has_key. rewrite existsb_app. intros ->. reflexivity.
Qed.

Lemma has_key_elem (r : Rec) recs :
  r ∈ recs -> has_key (rkey r) recs = true.
Proof.
  intros Hin. unfold has_key. apply existsb_exists. exists r. split.
  - apply list_elem_of_In. exact Hin.
  - apply bool_decide_eq_true. reflexivity.
Qed.

(** A batch of inserts holding a record whose key is in the store does
    not run to its end: the first request to fail fails with
    [ConstraintError], and that is what the handlers reject with. *)
Lemma run_queue_existing_key recs : forall st r,
  r ∈ recs ->
  has_key (rkey r) (st_records st) = true ->
  exists evs,
    run_queue st (map WAdd recs) = (None, evs)
    /\ foldl PixDB.update_handlers Pending (evs ++ [TxAbort])
       = Rejected (Error (ex_message constraint_error)
                         (Some (error_event constraint_error))).
Proof.
  induction recs as [|v recs IH]; intros st r Hin Hkey.
  - inversion Hin.
  - cbn [map run_queue].
    destruct (apply_write st (WAdd v)) as [d|st'] eqn:Hw.
    + eexists. split; [reflexivity|].
      cbn in Hw.
      assert (d = constraint_error) as ->.
      { destruct (has_key (rkey v) (st_records st)); [congruence|].
        destruct (unique_clash st v); congruence. }
      cbn. apply handlers_rejected.
    + cbn in Hw.
      destruct (has_key (rkey v) (st_records st)) eqn:Hv; [discriminate|].
      destruct (unique_clash st v); [discriminate|].
      injection Hw as <-.
      apply elem_of_cons in Hin as [->|Hin]; [congruence|].
      destruct (IH (with_records st (st_records st ++ [v])) r Hin) as (evs & Hrun & Hfold).
      { cbn. apply has_key_app. exact Hkey. }
      rewrite Hrun. eexists. split; [reflexivity|].
      cbn. exact Hfold.
Qed.

End Batches.

Section Stores.

Lemma issued_logged eng cs : issued eng (logged eng cs) = cs.
Proof. unfold issued, logged. cbn. apply drop_app_length. Qed.

(** Writing back the store that is there changes nothing. *)
Lemma set_store_same eng db s st :
  find_store eng db s = Some st ->
  set_store eng db s st = eng.
Proof.
  unfold find_store, set_store. intros H.
  destruct (databases eng !! db) as [d|] eqn:Hd; [|discriminate].
  rewrite (insert_id (db_stores d) s st H).
  destruct d as [v ss]. cbn.
  rewrite (insert_id (databases eng) db _ Hd).
  destruct eng; reflexivity.
Qed.

End Stores.

Section Absence.

Lemma filter_none {A} (f : A -> bool) (l : list A) :
  (forall x, x ∈ l -> f x = false) -> List.filter f l = [].
Proof.
  induction l as [|x l IH]; intros H; [reflexivity|].
  cbn. rewrite (H x) by apply list_elem_of_here.
  apply IH. intros y Hy. apply H. apply list_elem_of_further. exact Hy.
Qed.

(** For a key that is not an array, the range [only k] holds [k] alone. *)
Lemma only_scalar (k x : Key) :
  scalar k -> includes (IDBKeyRange_only k) x = true -> x = k.
Proof.
  intros Hk. unfold includes, IDBKeyRange_only, key_leb. cbn.
  destruct k as [n|t|s|ks]; [| | |contradiction]; destruct x as [m|u|v|xs]; cbn;
    try discriminate.
  - destruct (n ?= m) eqn:H1.
    + apply Z.compare_eq in H1. congruence.
    + rewrite Z.compare_antisym, H1. discriminate.
    + discriminate.
  - destruct (t ?= u) eqn:H1.
    + apply Z.compare_eq in H1. congruence.
    + rewrite Z.compare_antisym, H1. discriminate.
    + discriminate.
  - destruct (String.compare s v) eqn:H1.
    + apply String.compare_eq_iff in H1. congruence.
    + rewrite String.compare_antisym, H1. discriminate.
    + discriminate.
Qed.

Variables (this : PixDB.t) (conn : IDBDatabase) (eng : Engine) (s : string) (st : Store).
Hypothesis Hconn : PixDB.db this = Some conn.
Hypothesis Hstore : find_store eng (conn_name conn) s = Some st.

(** [get] with a key that is not an array and that no entry of the
    store has resolves with [undefined]. *)
Lemma get_absent_scalar_key (key : Key) :
  scalar key ->
  (forall e, e ∈ entries st None -> fst e <> key) ->
  exists eng', PixDB.get this s None key eng = (eng', Fulfilled VUndefined).
Proof.
  intros Hk Habs.
  unfold PixDB.get, PixDB.exec, PixDB.new_Promise, bind.
  cbn [String.eqb Ascii.eqb Bool.eqb orb].
  rewrite (query_store this conn eng s st Hconn Hstore None false eq_refl).
  assert (as_array (AVal key) = [AVal key]) as ->
      by (destruct key; [reflexivity..|contradiction]).
  unfold invoke, bind, record_call, get_store. cbn -[matching].
  pose proof Hstore as Hst. unfold find_store in Hst |- *. cbn -[matching].
  destruct (databases eng !! conn_name conn) as [d|]; [|discriminate].
  rewrite Hst. cbn -[matching].
  assert (matching st None (Some (IDBKeyRange_only key)) = []) as ->.
  { unfold matching. apply filter_none. intros e He. cbn.
    destruct (includes (IDBKeyRange_only key) (fst e)) eqn:Hinc; [|reflexivity].
    apply only_scalar in Hinc; [|exact Hk].
    exfalso. exact (Habs e He Hinc). }
  eexists. reflexivity.
Qed.

(** [delete] resolves, whether the store has the key or not. *)
Lemma delete_always_resolves (key : Key) :
  exists eng', PixDB.delete this s key eng = (eng', Fulfilled VUndefined).
Proof.
  unfold PixDB.delete, PixDB.exec, PixDB.new_Promise, bind.
  cbn [String.eqb Ascii.eqb Bool.eqb orb].
  rewrite (query_store this conn eng s st Hconn Hstore None true eq_refl).
  unfold invoke, bind, record_call, get_store. cbn.
  pose proof Hstore as Hst. unfold find_store in Hst |- *. cbn.
  destruct (databases eng !! conn_name conn) as [d|]; [|discriminate].
  rewrite Hst. cbn.
  eexists. reflexivity.
Qed.

End Absence.

Section Calls.

Lemma log_set_store eng db s st : log (set_store eng db s st) = log eng.
Proof. unfold set_store. destruct (databases eng !! db); reflexivity. Qed.

(** A method call is logged, and logs nothing more. *)
Lemma invoke_log src method args eng :
  log (fst (invoke src method args eng)) = log eng ++ [CallMethod src method args].
Proof.
  unfold invoke, bind, record_call, get_store, lift, writable, put_store, throw, ret.
  cbn.
  repeat (match goal with
          | |- context [match find_store ?e ?d ?s with _ => _ end] =>
              destruct (find_store e d s)
          | |- context [if ?b then _ else _] => destruct b
          | |- context [match arg_query ?a ?r with _ => _ end] =>
              destruct (arg_query a r)
          | |- context [match arg_count ?a with _ => _ end] =>
              destruct (arg_count a)
          | |- context [match src_index ?x with _ => _ end] =>
              destruct (src_index x)
          | |- context [match src_mode ?x with _ => _ end] =>
              destruct (src_mode x)
          end; cbn);
    rewrite ?log_set_store; reflexivity.
Qed.

Variables (this : PixDB.t) (conn : IDBDatabase) (eng : Engine) (s : string) (st : Store).
Hypothesis Hconn : PixDB.db this = Some conn.
Hypothesis Hstore : find_store eng (conn_name conn) s = Some st.

(** A read: [#query] hands out the index when one is named. *)
Lemma query_read index :
  index_of st index ->
  PixDB.query this s index false eng =
    (logged eng (query_calls s index false),
     Ok {| PixDB.transaction := tx_of conn s false;
           PixDB.store := source_of conn s false index |}).
Proof.
  destruct index as [i|]; intros Hix.
  - apply (query_index this conn eng s st Hconn Hstore i Hix).
  - apply (query_store this conn eng s st Hconn Hstore None false eq_refl).
Qed.

(** A write: [#query] hands out the object store, whatever the index
    argument. *)
Lemma query_write index :
  PixDB.query this s index true eng =
    (logged eng (query_calls s None true),
     Ok {| PixDB.transaction := tx_of conn s true;
           PixDB.store := source_of conn s true None |}).
Proof.
  apply (query_store this conn eng s st Hconn Hstore index true).
  apply andb_false_r.
Qed.

(** The calls of [#exec] for a method that reads. *)
Lemma exec_read_issued index method args :
  String.eqb method "delete" || String.eqb method "clear" = false ->
  index_of st index ->
  issued eng (fst (PixDB.exec this s index method args eng))
  = query_calls s index false
    ++ [CallMethod (source_of conn s false index) method (as_array args)].
Proof.
  intros Hm Hix. unfold PixDB.exec, PixDB.new_Promise. rewrite Hm.
  unfold bind at 1. rewrite (query_read index Hix).
  unfold bind at 1. cbn [PixDB.store].
  pose proof (invoke_log (source_of conn s false index) method (as_array args)
                (logged eng (query_calls s index false))) as Hlog.
  destruct (invoke _ method (as_array args) _) as [eng1 [req|e]]; cbn in *;
    unfold issued; rewrite Hlog, <- app_assoc; apply drop_app_length.
Qed.

(** The calls of [#exec] for [delete] and [clear]. *)
Lemma exec_write_issued index method args :
  String.eqb method "delete" || String.eqb method "clear" = true ->
  issued eng (fst (PixDB.exec this s index method args eng))
  = query_calls s None true
    ++ [CallMethod (source_of conn s true None) method (as_array args)].
Proof.
  intros Hm. unfold PixDB.exec, PixDB.new_Promise. rewrite Hm.
  unfold bind at 1. rewrite (query_write index).
  unfold bind at 1. cbn [PixDB.store].
  pose proof (invoke_log (source_of conn s true None) method (as_array args)
                (logged eng (query_calls s None true))) as Hlog.
  destruct (invoke _ method (as_array args) _) as [eng1 [req|e]]; cbn in *;
    unfold issued; rewrite Hlog, <- app_assoc; apply drop_app_length.
Qed.

End Calls.

Section CursorCalls.

(** During a traversal the engine is only asked to advance. *)
Lemma traverse_calls callback rest : forall skip fault seen eng,
  exists cs,
    log (fst (PixDB.traverse callback rest skip fault seen eng)) = log eng ++ cs
    /\ targets cs = [] /\ ranges cs = [].
Proof.
  induction rest as [|cursor rest IH]; intros skip fault seen eng; cbn [PixDB.traverse].
  - exists []. rewrite app_nil_r.
    destruct (PixDB.due fault); cbn; repeat split.
  - destruct skip as [|k]; [|apply IH].
    destruct (PixDB.due fault); cbn [PixDB.cursor_onsuccess].
    + exists []. rewrite app_nil_r. repeat split.
    + unfold advance, bind, record_call. cbn.
      destruct ((PixDB.advance_count callback cursor <=? 0)
                || (max_unsigned_long <? PixDB.advance_count callback cursor)); cbn.
      * exists [CallAdvance (PixDB.advance_count callback cursor)]. repeat split.
      * match goal with
        | |- context [PixDB.traverse _ _ ?k' ?f' ?s' ?e'] =>
            destruct (IH k' f' s' e') as (cs & Hlog & Ht & Hr)
        end.
        exists (CallAdvance (PixDB.advance_count callback cursor) :: cs).
        rewrite Hlog. cbn. rewrite <- app_assoc. repeat split; assumption.
Qed.

Variables (this : PixDB.t) (conn : IDBDatabase) (eng : Engine) (s : string) (st : Store).
Hypothesis Hconn : PixDB.db this = Some conn.
Hypothesis Hstore : find_store eng (conn_name conn) s = Some st.

(** The calls of [getCursor]: the cursor is opened on the source
    [#query] handed out, with the range [#bound] produced. *)
Lemma getCursor_issued index lowerBound upperBound range direction callback fault :
  index_of st index ->
  PixDB.bound lowerBound upperBound = Ok range ->
  exists cs,
    issued eng (fst (PixDB.getCursor this s index lowerBound upperBound
                                     direction callback fault eng))
    = query_calls s index false
      ++ [CallOpenCursor (source_of conn s false index) range (default "next" direction)]
      ++ cs
    /\ targets cs = [] /\ ranges cs = [].
Proof.
  intros Hix Hb. unfold PixDB.getCursor.
  unfold bind at 1. rewrite (query_read this conn eng s st Hconn Hstore index Hix).
  unfold bind at 1, lift. rewrite Hb. cbn [PixDB.store].
  unfold openCursor, bind, record_call, get_store. cbn.
  pose proof Hstore as Hst. unfold find_store in Hst |- *. cbn.
  destruct (databases eng !! conn_name conn) as [d|]; [|discriminate].
  rewrite Hst. cbn.
  destruct (in_direction _ _) as [es|e]; cbn.
  - match goal with
    | |- context [PixDB.traverse ?c ?r ?k ?f ?sn ?e] =>
        destruct (traverse_calls c r k f sn e) as (cs & Hlog & Ht & Hr)
    end.
    exists cs. split; [|split; assumption].
    unfold issued. rewrite Hlog. cbn. rewrite <- !app_assoc. apply drop_app_length.
  - exists []. split; [|split; reflexivity].
    unfold issued. cbn. rewrite <- !app_assoc. apply drop_app_length.
Qed.

End CursorCalls.

Section Ranges.

Lemma ranges_app l k : ranges (l ++ k) = ranges l ++ ranges k.
Proof. apply omap_app. Qed.

Lemma targets_app l k : targets (l ++ k) = targets l ++ targets k.
Proof. apply omap_app. Qed.

Lemma ranges_query_calls s index write : ranges (query_calls s index write) = [].
Proof. destruct index; reflexivity. Qed.

Lemma targets_query_calls s index write : targets (query_calls s index write) = [].
Proof. destruct index; reflexivity. Qed.

(** What [#bound] gives for bounds it recognises as given. *)
Lemma bound_recognised lowerBound upperBound :
  absent_or_truthy lowerBound -> absent_or_truthy upperBound ->
  PixDB.bound lowerBound upperBound
  = if inverted lowerBound upperBound
    then Throw (raise DataError "The lower key is greater than the upper key.")
    else Ok (range_of lowerBound upperBound).
Proof.
  destruct lowerBound as [l|], upperBound as [u|]; cbn; intros Hl Hu;
    unfold PixDB.bound, truthy; rewrite ?Hl, ?Hu; cbn; try reflexivity.
  destruct (key_cmp l u); reflexivity.
Qed.

End Ranges.

Section Writes.

Lemma commit_log tx eng :
  log (fst (commit tx eng)) = log eng ++ [CallCommit (tx_store tx)].
Proof.
  unfold commit, bind, record_call, throw. cbn.
  destruct (find_store _ (tx_db tx) (tx_store tx)) as [st|]; [|reflexivity].
  destruct (run_queue st (tx_queue tx)) as [[st'|] evs]; cbn;
    rewrite ?log_set_store; reflexivity.
Qed.

Lemma targets_writes (overwrite : bool) s recs :
  targets (map (fun v => if overwrite then CallPut s v else CallAdd s v) recs)
  = map (fun _ => (s, None)) recs.
Proof.
  induction recs as [|v recs IH]; [reflexivity|].
  cbn [map]. change (?x :: ?l) with ([x] ++ l) at 1. rewrite targets_app, IH.
  destruct overwrite; reflexivity.
Qed.

Variables (this : PixDB.t) (conn : IDBDatabase) (eng : Engine) (s : string) (st : Store).
Hypothesis Hconn : PixDB.db this = Some conn.
Hypothesis Hstore : find_store eng (conn_name conn) s = Some st.

(** The calls of [#update]: a read-write transaction on the store, one
    request per record, the commit. *)
Lemma update_issued record overwrite :
  issued eng (fst (PixDB.update this s record overwrite eng))
  = query_calls s None true
    ++ map (fun v => if overwrite then CallPut s v else CallAdd s v)
           (match record with PixDB.Many l => l | PixDB.One r => [r] end)
    ++ [CallCommit s].
Proof.
  unfold PixDB.update, PixDB.new_Promise.
  unfold bind at 1. rewrite (query_write this conn eng s st Hconn Hstore None).
  unfold bind at 1. cbn [PixDB.transaction].
  rewrite (forEach_places overwrite) by reflexivity.
  unfold bind at 1.
  match goal with
  | |- context [commit ?tx ?e] =>
      pose proof (commit_log tx e) as Hlog; destruct (commit tx e) as [eng1 [evs|e1]]
  end; cbn in *; unfold issued; rewrite Hlog, <- !app_assoc; apply drop_app_length.
Qed.

End Writes.

Section Traversal.

Variable callback : option PixDB.Callback.
Hypothesis Hwb : well_behaved callback.

(** The count handed to [advance] is the step of the documentation, is
    positive and is one the engine takes. *)
Lemma advance_count_step c :
  PixDB.advance_count callback c = Z.of_nat (step_of callback c)
  /\ (1 <= step_of callback c)%nat
  /\ Z.of_nat (step_of callback c) <= max_unsigned_long.
Proof.
  unfold PixDB.advance_count, step_of, PixDB.or_number, truthy_number, max_unsigned_long.
  destruct callback as [f|]; [|repeat split; lia].
  pose proof (Hwb f c eq_refl) as Hc. unfold max_unsigned_long in Hc.
  destruct (f c) as [n|]; [|repeat split; lia].
  assert ((n =? 0) = false) as -> by lia. cbn. repeat split; lia.
Qed.

Lemma traverse_skip rest : forall skip fault seen eng,
  PixDB.traverse callback rest skip fault seen eng
  = PixDB.traverse callback (drop skip rest) 0 fault seen eng.
Proof.
  induction rest as [|c rest IH]; intros [|k] fault seen eng; try reflexivity.
  cbn [PixDB.traverse drop]. apply IH.
Qed.

Lemma reached_tick fault c ps :
  PixDB.due fault = None ->
  reached fault (c :: ps) = c :: reached (PixDB.tick fault) ps
  /\ outcome fault (c :: ps) = outcome (PixDB.tick fault) ps.
Proof.
  destruct fault as [[[|j] e]|]; cbn; intros H; try discriminate; split; reflexivity.
Qed.

Lemma reached_nil fault :
  reached fault [] = []
  /\ outcome fault [] = match PixDB.due fault with
                        | Some e => Rejected (DOM e)
                        | None => Fulfilled true
                        end.
Proof.
  destruct fault as [[[|j] e]|]; cbn; split; reflexivity.
Qed.

Lemma reached_due fault e ps :
  PixDB.due fault = Some e ->
  reached fault ps = [] /\ outcome fault ps = Rejected (DOM e).
Proof.
  destruct fault as [[[|j] e']|]; cbn; intros H; try discriminate.
  injection H as ->. split; reflexivity.
Qed.

(** The dialogue visits the positions the documentation describes, asks
    the engine to advance by the documented step at each, and ends as
    documented. *)
Lemma traverse_positions l : forall fuel pos fault seen eng,
  (length l - pos <= fuel)%nat ->
  let ps := positions_from callback l pos fuel in
  snd (PixDB.traverse callback (drop pos l) 0 fault seen eng)
  = {| PixDB.promise := outcome fault ps;
       PixDB.visited := seen ++ reached fault ps |}
  /\ log (fst (PixDB.traverse callback (drop pos l) 0 fault seen eng))
     = log eng ++ map (advance_call callback) (reached fault ps).
Proof.
  induction fuel as [|fuel IH]; intros pos fault seen eng Hfuel; cbn zeta.
  - rewrite drop_ge by lia. cbn [positions_from PixDB.traverse].
    destruct (reached_nil fault) as [-> ->].
    rewrite !app_nil_r. destruct (PixDB.due fault); split; reflexivity.
  - cbn [positions_from].
    destruct (l !! pos) as [c|] eqn:Hc.
    + rewrite (drop_S l c pos Hc). cbn [PixDB.traverse].
      destruct (PixDB.due fault) as [e|] eqn:Hdue.
      * destruct (reached_due fault e
                    (c :: positions_from callback l (pos + step_of callback c) fuel) Hdue)
          as [-> ->].
        rewrite !app_nil_r. split; reflexivity.
      * destruct (reached_tick fault c
                    (positions_from callback l (pos + step_of callback c) fuel) Hdue)
          as [-> ->].
        cbn [PixDB.cursor_onsuccess].
        destruct (advance_count_step c) as [Hn [Hpos Hmax]]. rewrite Hn.
        unfold advance, bind, record_call. cbn.
        assert ((Z.of_nat (step_of callback c) <=? 0) = false) as -> by lia.
        assert ((max_unsigned_long <? Z.of_nat (step_of callback c)) = false) as -> by lia.
        cbn. rewrite Nat2Z.id.
        rewrite traverse_skip, drop_drop.
        replace (S pos + Nat.pred (step_of callback c))%nat
          with (pos + step_of callback c)%nat by lia.
        match goal with
        | |- context [PixDB.traverse _ _ 0 ?f' ?s' ?e'] =>
            destruct (IH (pos + step_of callback c)%nat f' s' e') as [Hs Hl]; [lia|]
        end.
        rewrite Hs, Hl. cbn. rewrite <- !app_assoc. split; reflexivity.
    + apply lookup_ge_None in Hc. rewrite drop_ge by lia. cbn [PixDB.traverse].
      destruct (reached_nil fault) as [-> ->].
      rewrite !app_nil_r. destruct (PixDB.due fault); split; reflexivity.
Qed.

End Traversal.

(* ===================================================================== *)
(** ** Properties *)
(* ===================================================================== *)

(** C1. On a connected object, an insert without overwrite ([add]) of a
    batch that holds a record whose key is already in the store rejects
    with an error of the class [ConstraintError], and leaves every
    database, hence the store and its record count, exactly as it was:
    no record of the batch is applied. *)
Theorem add_existing_key_rejects_whole_batch :
  forall (this : PixDB.t) (eng : Engine) (s : string) (st : Store)
         (item : option PixDB.Item) (r : Rec),
    store_at eng this s = Some st ->
    r ∈ items_of item ->
    has_key (rkey r) (st_records st) = true ->
    exists eng' reason,
      PixDB.add this s item eng = (eng', Rejected reason)
      /\ of_class ConstraintError reason
      /\ databases eng' = databases eng
      /\ store_at eng' this s = Some st
      /\ (forall st', store_at eng' this s = Some st' ->
            length (st_records st') = length (st_records st)).
Proof.
  intros this eng s st item r Hat Hin Hkey.
  unfold store_at in Hat.
  destruct (PixDB.db this) as [conn|] eqn:Hconn; [|discriminate].
  assert (items_of item = match default (PixDB.Many []) item with
                          | PixDB.Many l => l
                          | PixDB.One r => [r]
                          end) as Hitems.
  { destruct item as [[?|?]|]; reflexivity. }
  rewrite Hitems in Hin.
  destruct (run_queue_existing_key _ st r Hin Hkey) as (evs & Hrun & Hfold).
  unfold PixDB.add, PixDB.update, PixDB.new_Promise.
  unfold bind at 1.
  rewrite (query_store this conn eng s st Hconn Hat None true eq_refl).
  unfold bind at 1. cbn [PixDB.transaction].
  rewrite (forEach_places false) by reflexivity.
  unfold bind at 1, commit, bind, record_call. cbn.
  unfold find_store in *. cbn.
  destruct (databases eng !! conn_name conn) as [d|] eqn:Hd; [|discriminate].
  rewrite Hat. change (fun v : Rec => WAdd v) with WAdd. rewrite Hrun. cbn.
  eexists _, _. split; [rewrite Hfold; reflexivity|].
  split; [split; reflexivity|].
  split; [reflexivity|].
  unfold store_at. rewrite Hconn. unfold find_store. cbn. rewrite Hd.
  split; [exact Hat|].
  intros st' Hst'. congruence.
Qed.

(** The property at the sample store: a batch of two records, the second
    with the key ["a"] the store holds. *)
Lemma add_existing_key_rejects_whole_batch_witness :
  store_at Sample.engine Sample.connected "state" = Some Sample.state
  /\ Sample.a ∈ items_of (Some (PixDB.Many [Sample.d; Sample.a]))
  /\ has_key (rkey Sample.a) (st_records Sample.state) = true
  /\ exists eng' reason,
       PixDB.add Sample.connected "state"
         (Some (PixDB.Many [Sample.d; Sample.a])) Sample.engine = (eng', Rejected reason)
       /\ of_class ConstraintError reason
       /\ databases eng' = databases Sample.engine
       /\ store_at eng' Sample.connected "state" = Some Sample.state
       /\ (forall st', store_at eng' Sample.connected "state" = Some st' ->
             length (st_records st') = length (st_records Sample.state)).
Proof.
  assert (store_at Sample.engine Sample.connected "state" = Some Sample.state) as H1
      by (vm_compute; reflexivity).
  assert (Sample.a ∈ items_of (Some (PixDB.Many [Sample.d; Sample.a]))) as H2
      by (apply list_elem_of_further, list_elem_of_here).
  assert (has_key (rkey Sample.a) (st_records Sample.state) = true) as H3
      by (vm_compute; reflexivity).
  exact (conj H1 (conj H2 (conj H3
           (add_existing_key_rejects_whole_batch
              Sample.connected Sample.engine "state" Sample.state
              (Some (PixDB.Many [Sample.d; Sample.a])) Sample.a H1 H2 H3)))).
Defined.

(** C2, as stated, fails in two ways. A bound that is falsy as a
    JavaScript value (the number [0], the empty string) is taken as not
    given: a lower bound of [0] alone yields no range at all, so that
    counting from [0] up counts the record with key [-1] too; an empty
    lower bound with an upper bound yields the at-most-upper range. And
    for a lower bound greater than the upper one no range is produced:
    the engine's constructor throws [DataError]. *)
Lemma bound_misses_falsy_and_inverted :
  (~ bound_as_stated (Some (KNum 0)) None
   /\ PixDB.bound (Some (KNum 0)) None = Ok None
   /\ match PixDB.count Sample.connected "state" None (Some (KNum 0)) None
              Sample.engine_numbered with
      | Ok (_, p) => p = Fulfilled (VNumber 2)
      | Throw _ => False
      end)
  /\ (~ bound_as_stated (Some (KStr "")) (Some (KStr "m"))
      /\ PixDB.bound (Some (KStr "")) (Some (KStr "m"))
         = Ok (Some {| lower := None; upper := Some (KStr "m") |}))
  /\ (~ bound_as_stated (Some (KNum 5)) (Some (KNum 1))
      /\ PixDB.bound (Some (KNum 5)) (Some (KNum 1))
         = Throw (raise DataError "The lower key is greater than the upper key.")).
Proof.
  unfold bound_as_stated.
  repeat split; try (vm_compute; reflexivity); vm_compute; discriminate.
Qed.

(** C2, amended. For bounds that are each absent or truthy (any key but
    the number [0] and the empty string), [#bound] gives nothing (every
    key) when neither is given, the at-least-lower range when only the
    lower one is, the at-most-upper range when only the upper one is, and
    the closed range between them when both are and the lower one is not
    the greater; when it is the greater, the engine's range constructor
    throws [DataError]. On a connected object [count], [getAll],
    [getAllKeys], [deleteAll] and [getCursor] all hand the engine the range
    this one helper produced, and fail with its exception when it throws. *)
Theorem bound_of_recognised_bounds :
  forall (this : PixDB.t) (eng : Engine) (s : string) (st : Store)
         (index : option string) (lowerBound upperBound : option Key)
         (limit : option Z) (direction : option string)
         (callback : option PixDB.Callback) (fault : PixDB.Fault),
    absent_or_truthy lowerBound ->
    absent_or_truthy upperBound ->
    store_at eng this s = Some st ->
    index_of st index ->
    PixDB.bound lowerBound upperBound
    = (if inverted lowerBound upperBound
       then Throw (raise DataError "The lower key is greater than the upper key.")
       else Ok (range_of lowerBound upperBound))
    /\ (inverted lowerBound upperBound = false ->
        let range := range_of lowerBound upperBound in
        bound_as_stated lowerBound upperBound
        /\ ranges (issued eng (after (PixDB.count this s index lowerBound upperBound eng) eng))
           = [range]
        /\ ranges (issued eng (after (PixDB.getAll this s index lowerBound upperBound
                                                   limit eng) eng))
           = [range]
        /\ ranges (issued eng (after (PixDB.getAllKeys this s index lowerBound upperBound
                                                       limit eng) eng))
           = [range]
        /\ ranges (issued eng (after (PixDB.deleteAll this s index lowerBound upperBound
                                                      eng) eng))
           = [range]
        /\ ranges (issued eng (fst (PixDB.getCursor this s index lowerBound upperBound
                                                    direction callback fault eng)))
           = [range])
    /\ (forall e, PixDB.bound lowerBound upperBound = Throw e ->
        PixDB.count this s index lowerBound upperBound eng = Throw e
        /\ PixDB.getAll this s index lowerBound upperBound limit eng = Throw e
        /\ PixDB.getAllKeys this s index lowerBound upperBound limit eng = Throw e
        /\ PixDB.deleteAll this s index lowerBound upperBound eng = Throw e
        /\ PixDB.promise (snd (PixDB.getCursor this s index lowerBound upperBound
                                               direction callback fault eng))
           = Rejected e).
Proof.
  intros this eng s st index lb ub limit direction callback fault Hl Hu Hat Hix.
  unfold store_at in Hat.
  destruct (PixDB.db this) as [conn|] eqn:Hconn; [|discriminate].
  pose proof (bound_recognised lb ub Hl Hu) as Hb.
  split; [exact Hb|]. split.
  - intros Hinv. rewrite Hinv in Hb. cbn zeta.
    assert (forall a rest, ranges [CallMethod a rest
                                     (PixDB.of_range (range_of lb ub) :: [])]
                           = [range_of lb ub]) as Hone
        by (intros; destruct (range_of lb ub); reflexivity).
    assert (forall a rest x, ranges [CallMethod a rest
                                       (PixDB.of_range (range_of lb ub) :: [x])]
                             = [range_of lb ub]) as Htwo
        by (intros; destruct (range_of lb ub); reflexivity).
    split; [exact Hb|].
    unfold PixDB.count, PixDB.getAll, PixDB.getAllKeys, PixDB.deleteAll, PixDB.with_bound.
    rewrite Hb. cbn [after].
    repeat split.
    + destruct (PixDB.exec this s index "count" _ eng) as [eng1 p] eqn:He.
      change eng1 with (fst (eng1, p)). rewrite <- He.
      rewrite (exec_read_issued this conn eng s st Hconn Hat index "count" _ eq_refl Hix).
      rewrite ranges_app, ranges_query_calls.
      destruct (range_of lb ub); reflexivity.
    + destruct (PixDB.exec this s index "getAll" _ eng) as [eng1 p] eqn:He.
      change eng1 with (fst (eng1, p)). rewrite <- He.
      rewrite (exec_read_issued this conn eng s st Hconn Hat index "getAll" _ eq_refl Hix).
      rewrite ranges_app, ranges_query_calls. apply Htwo.
    + destruct (PixDB.exec this s index "getAllKeys" _ eng) as [eng1 p] eqn:He.
      change eng1 with (fst (eng1, p)). rewrite <- He.
      rewrite (exec_read_issued this conn eng s st Hconn Hat index "getAllKeys" _ eq_refl Hix).
      rewrite ranges_app, ranges_query_calls. apply Htwo.
    + destruct (PixDB.exec this s index "delete" _ eng) as [eng1 p] eqn:He.
      change eng1 with (fst (eng1, p)). rewrite <- He.
      rewrite (exec_write_issued this conn eng s st Hconn Hat index "delete" _ eq_refl).
      rewrite ranges_app, ranges_query_calls. apply Hone.
    + destruct (getCursor_issued this conn eng s st Hconn Hat index lb ub _
                  direction callback fault Hix Hb) as (cs & Hiss & _ & Hr).
      rewrite Hiss, !ranges_app, ranges_query_calls, Hr. reflexivity.
  - intros e He.
    unfold PixDB.count, PixDB.getAll, PixDB.getAllKeys, PixDB.deleteAll, PixDB.with_bound.
    rewrite He. repeat split.
    unfold PixDB.getCursor. unfold bind at 1.
    rewrite (query_read this conn eng s st Hconn Hat index Hix).
    unfold bind, lift. rewrite He. reflexivity.
Qed.

(** The property at the sample store, for the bounds ["b"] and ["e"] on
    the index [expireIdx]. *)
Lemma bound_of_recognised_bounds_witness :
  absent_or_truthy (Some (KStr "b"))
  /\ absent_or_truthy (Some (KStr "e"))
  /\ store_at Sample.engine Sample.connected "state" = Some Sample.state
  /\ index_of Sample.state (Some "expireIdx")
  /\ PixDB.bound (Some (KStr "b")) (Some (KStr "e"))
     = Ok (Some {| lower := Some (KStr "b"); upper := Some (KStr "e") |})
  /\ ranges (issued Sample.engine
               (after (PixDB.count Sample.connected "state" (Some "expireIdx")
                                   (Some (KStr "b")) (Some (KStr "e")) Sample.engine)
                      Sample.engine))
     = [Some {| lower := Some (KStr "b"); upper := Some (KStr "e") |}].
Proof.
  assert (absent_or_truthy (Some (KStr "b"))) as H1 by reflexivity.
  assert (absent_or_truthy (Some (KStr "e"))) as H2 by reflexivity.
  assert (store_at Sample.engine Sample.connected "state" = Some Sample.state) as H3
      by (vm_compute; reflexivity).
  assert (index_of Sample.state (Some "expireIdx")) as H4.
  { split; [discriminate|]. exists {| ix_keyPath := "expire"; ix_unique := false |}.
    vm_compute. reflexivity. }
  destruct (bound_of_recognised_bounds
              Sample.connected Sample.engine "state" Sample.state (Some "expireIdx")
              (Some (KStr "b")) (Some (KStr "e")) None None None None H1 H2 H3 H4)
    as (Hb & Hops & _).
  destruct (Hops eq_refl) as (_ & Hcount & _).
  exact (conj H1 (conj H2 (conj H3 (conj H4 (conj Hb Hcount))))).
Defined.

(** C3, as stated, fails for the index whose name is the empty string, a
    name an index can have: the name is falsy, [#query] takes it for no
    index, and the read runs on the store. In the sample store the index
    named [""] has two entries and [count] through it answers [3]. *)
Lemma empty_index_name_is_not_scoped :
  is_Some (st_indexes Sample.state !! "")
  /\ ~ reads_scoped Sample.connected Sample.engine "state" ""
         None None (KDate 104) None None None None
  /\ targets (issued Sample.engine
                (after (PixDB.count Sample.connected "state" (Some "") None None
                                    Sample.engine) Sample.engine))
     = [("state", None)]
  /\ length (entries Sample.state (Some "")) = 2%nat
  /\ match PixDB.count Sample.connected "state" (Some "") None None Sample.engine with
     | Ok (_, p) => p = Fulfilled (VNumber 3)
     | Throw _ => False
     end.
Proof.
  split; [eexists; vm_compute; reflexivity|].
  split.
  - unfold reads_scoped. intros (Hcount & _). vm_compute in Hcount. discriminate.
  - repeat split; vm_compute; reflexivity.
Qed.

(** C3, amended. On a connected object, with an index argument that is the
    non-empty name of an index of the store (and bounds [#bound] accepts),
    each read ([count], [get], [getAll], [getAllKeys], [getCursor]) sends
    its request to that index; each write ([add], [put], [delete],
    [deleteAll], [clear]) sends its requests to the store itself, whatever
    index argument [deleteAll] is given. *)
Theorem reads_use_index_writes_use_store :
  forall (this : PixDB.t) (eng : Engine) (s : string) (st : Store)
         (index : string) (any_index : option string)
         (lowerBound upperBound : option Key) (range : option IDBKeyRange)
         (key : Key) (limit : option Z) (direction : option string)
         (callback : option PixDB.Callback) (fault : PixDB.Fault)
         (item : option PixDB.Item),
    store_at eng this s = Some st ->
    names_index st index ->
    PixDB.bound lowerBound upperBound = Ok range ->
    reads_scoped this eng s index lowerBound upperBound key limit direction callback fault
    /\ writes_on_store this eng s any_index lowerBound upperBound key item.
Proof.
  intros this eng s st index any_index lb ub range key limit direction callback fault item
         Hat Hix Hb.
  unfold store_at in Hat.
  destruct (PixDB.db this) as [conn|] eqn:Hconn; [|discriminate].
  assert (forall (m : PixDB.Async Value) cs,
            issued eng (fst (m eng)) = cs ->
            issued eng (after (Ok (m eng)) eng) = cs) as Hafter.
  { intros m cs H. unfold after. destruct (m eng). exact H. }
  split.
  - unfold reads_scoped, PixDB.count, PixDB.get, PixDB.getAll, PixDB.getAllKeys,
      PixDB.with_bound.
    rewrite Hb. cbn zeta.
    repeat split.
    + erewrite Hafter
        by (apply (exec_read_issued this conn eng s st Hconn Hat (Some index) "count" _
                     eq_refl Hix)).
      rewrite targets_app. reflexivity.
    + rewrite (exec_read_issued this conn eng s st Hconn Hat (Some index) "get" _
                 eq_refl Hix).
      rewrite targets_app. reflexivity.
    + erewrite Hafter
        by (apply (exec_read_issued this conn eng s st Hconn Hat (Some index) "getAll" _
                     eq_refl Hix)).
      rewrite targets_app. reflexivity.
    + erewrite Hafter
        by (apply (exec_read_issued this conn eng s st Hconn Hat (Some index) "getAllKeys" _
                     eq_refl Hix)).
      rewrite targets_app. reflexivity.
    + destruct (getCursor_issued this conn eng s st Hconn Hat (Some index) lb ub range
                  direction callback fault Hix Hb) as (cs & Hiss & Ht & _).
      rewrite Hiss, !targets_app, Ht. reflexivity.
  - unfold writes_on_store, PixDB.add, PixDB.put, PixDB.delete, PixDB.deleteAll,
      PixDB.clear, PixDB.with_bound.
    rewrite Hb. cbn zeta.
    assert (items_of item = match default (PixDB.Many []) item with
                            | PixDB.Many l => l
                            | PixDB.One r => [r]
                            end) as ->
        by (destruct item as [[?|?]|]; reflexivity).
    repeat split.
    + rewrite (update_issued this conn eng s st Hconn Hat).
      rewrite !targets_app, (targets_writes false). cbn. apply app_nil_r.
    + rewrite (update_issued this conn eng s st Hconn Hat).
      rewrite !targets_app, (targets_writes true). cbn. apply app_nil_r.
    + rewrite (exec_write_issued this conn eng s st Hconn Hat None "delete" _ eq_refl).
      reflexivity.
    + erewrite Hafter
        by (apply (exec_write_issued this conn eng s st Hconn Hat any_index "delete" _
                     eq_refl)).
      reflexivity.
    + rewrite (exec_write_issued this conn eng s st Hconn Hat None "clear" _ eq_refl).
      reflexivity.
Qed.

(** The property at the sample store and its index [expireIdx]. *)
Lemma reads_use_index_writes_use_store_witness :
  store_at Sample.engine Sample.connected "state" = Some Sample.state
  /\ names_index Sample.state "expireIdx"
  /\ PixDB.bound None (Some (KDate 106)) = Ok (Some {| lower := None; upper := Some (KDate 106) |})
  /\ reads_scoped Sample.connected Sample.engine "state" "expireIdx"
       None (Some (KDate 106)) (KDate 106) None None None None
  /\ writes_on_store Sample.connected Sample.engine "state" (Some "expireIdx")
       None (Some (KDate 106)) (KDate 106) (Some (PixDB.One Sample.d)).
Proof.
  assert (store_at Sample.engine Sample.connected "state" = Some Sample.state) as H1
      by (vm_compute; reflexivity).
  assert (names_index Sample.state "expireIdx") as H2.
  { split; [discriminate|]. exists {| ix_keyPath := "expire"; ix_unique := false |}.
    vm_compute. reflexivity. }
  assert (PixDB.bound None (Some (KDate 106))
          = Ok (Some {| lower := None; upper := Some (KDate 106) |})) as H3
      by reflexivity.
  exact (conj H1 (conj H2 (conj H3
           (reads_use_index_writes_use_store
              Sample.connected Sample.engine "state" Sample.state "expireIdx"
              (Some "expireIdx") None (Some (KDate 106)) _ (KDate 106)
              None None None None (Some (PixDB.One Sample.d)) H1 H2 H3)))).
Defined.

(** C4, as stated, fails on an object that is not connected: [drop] on a
    closed object rejects with the [TypeError] of [close] (neither [true]
    nor [false]), asks for no deletion, and the database stays. *)
Lemma drop_on_closed_object_deletes_nothing :
  ~ drop_as_stated Sample.closed Granted Sample.engine
  /\ PixDB.drop Sample.closed Granted Sample.engine
     = (Sample.engine, (Sample.closed, Rejected TypeError)).
Proof.
  split; [|reflexivity].
  unfold drop_as_stated. cbn. intros (Hin & _).
  apply elem_of_nil in Hin. exact Hin.
Qed.

(** C4, amended. On a connected object, [drop] closes the connection,
    then asks for the deletion of the named database; the object is left
    disconnected. When the deletion succeeds the promise resolves with
    [true], the database is gone, and name and version are [null]; when it
    fails the promise rejects with [false] and databases, name and version
    are not touched. *)
Theorem drop_when_connected :
  forall (this : PixDB.t) (reply : Reply) (eng : Engine),
    PixDB.isConnected this = true ->
    drop_as_stated this reply eng
    /\ exists conn, PixDB.db this = Some conn
       /\ issued eng (fst (PixDB.drop this reply eng))
          = [CallClose (conn_name conn);
             CallDeleteDatabase (default "null" (PixDB.dbName this))].
Proof.
  intros this reply eng Hc.
  unfold PixDB.isConnected in Hc.
  destruct (PixDB.db this) as [conn|] eqn:Hconn; [|discriminate].
  unfold drop_as_stated, PixDB.drop, PixDB.close. rewrite Hconn.
  unfold bind, IDB.close, record_call, deleteDatabase. cbn.
  assert (forall cs, issued eng {| supported := supported eng;
                                   databases := databases eng;
                                   log := (log eng ++ [CallClose (conn_name conn)]) ++ cs |}
                     = CallClose (conn_name conn) :: cs) as Hissued.
  { intros cs. unfold issued. cbn. rewrite <- app_assoc. apply drop_app_length. }
  destruct reply as [|e]; cbn.
  - split.
    + split; [|repeat split].
      unfold issued, with_databases. cbn. rewrite <- app_assoc, drop_app_length.
      apply list_elem_of_further, list_elem_of_here.
    + exists conn. split; [reflexivity|].
      unfold issued, with_databases. cbn. rewrite <- app_assoc. apply drop_app_length.
  - split.
    + split; [|repeat split].
      rewrite Hissued. apply list_elem_of_further, list_elem_of_here.
    + exists conn. split; [reflexivity|]. apply Hissued.
Qed.

(** The property at the sample object, the deletion being granted. *)
Lemma drop_when_connected_witness :
  PixDB.isConnected Sample.connected = true
  /\ drop_as_stated Sample.connected Granted Sample.engine
  /\ exists conn, PixDB.db Sample.connected = Some conn
     /\ issued Sample.engine (fst (PixDB.drop Sample.connected Granted Sample.engine))
        = [CallClose (conn_name conn);
           CallDeleteDatabase (default "null" (PixDB.dbName Sample.connected))].
Proof.
  assert (PixDB.isConnected Sample.connected = true) as H1 by reflexivity.
  exact (conj H1 (drop_when_connected Sample.connected Granted Sample.engine H1)).
Defined.

(** C5, as stated, fails for a callback that returns a number the
    engine does not take as a count: at the record of key ["b"] the
    callback returns [-1], [advance] throws a [TypeError] inside the
    success handler, and the promise is left pending: the operation
    neither resolves nor rejects. *)
Lemma failed_advance_never_settles :
  ~ failed_step_rejects (Some Sample.stepping_back)
      (snd (PixDB.getCursor Sample.connected "state" None None None None
              (Some Sample.stepping_back) None Sample.engine)).
Proof.
  intros H.
  specialize (H (to_cursor (KStr "b", Sample.b)) TypeError).
  assert (PixDB.promise
            (snd (PixDB.getCursor Sample.connected "state" None None None None
                    (Some Sample.stepping_back) None Sample.engine))
          = Pending) as Hp by (vm_compute; reflexivity).
  rewrite Hp in H. discriminate H.
  - vm_compute. apply list_elem_of_further, list_elem_of_here.
  - intros eng. reflexivity.
Qed.

(** C5, amended. On a connected object, with a callback that is absent
    or returns nothing or a positive integer the engine takes as a count
    (at most [2^32 - 1]), [getCursor] goes through the positions of the
    cursor as documented: at each position delivered the success handler
    (which calls the callback with the cursor, when there is one) asks
    the engine to advance by the integer the callback returned, by [1]
    when it returned nothing or is absent; the promise resolves with
    [true] when the engine reports the cursor exhausted, and only then;
    when a fetch fails it rejects with the error the engine reports, the
    positions before the failure having been visited. *)
Theorem getCursor_traversal :
  forall (this : PixDB.t) (eng : Engine) (s : string) (st : Store)
         (index : option string) (lowerBound upperBound : option Key)
         (range : option IDBKeyRange) (direction : option string)
         (es : list Entry) (callback : option PixDB.Callback) (fault : PixDB.Fault)
         (conn : IDBDatabase),
    PixDB.db this = Some conn ->
    find_store eng (conn_name conn) s = Some st ->
    index_of st index ->
    PixDB.bound lowerBound upperBound = Ok range ->
    in_direction (default "next" direction) (matching st index range) = Ok es ->
    well_behaved callback ->
    let result := PixDB.getCursor this s index lowerBound upperBound
                                  direction callback fault eng in
    let ps := positions callback (map to_cursor es) in
    (* the handlers *)
    (forall c, PixDB.cursor_onsuccess callback (Some c)
               = PixDB.Advance (Z.of_nat (step_of callback c)))
    /\ (forall c f n, callback = Some f -> f c = Some n -> step_of callback c = Z.to_nat n)
    /\ (forall c f, callback = Some f -> f c = None -> step_of callback c = 1%nat)
    /\ (forall c, callback = None -> step_of callback c = 1%nat)
    /\ PixDB.cursor_onsuccess callback None = PixDB.Resolve true
    /\ (forall e, PixDB.cursor_onerror e = DOM e)
    (* the traversal *)
    /\ PixDB.visited (snd result) = reached fault ps
    /\ issued eng (fst result)
       = query_calls s index false
         ++ [CallOpenCursor (source_of conn s false index) range
                            (default "next" direction)]
         ++ map (advance_call callback) (reached fault ps)
    /\ PixDB.promise (snd result) = outcome fault ps
    /\ (PixDB.promise (snd result) = Fulfilled true <->
        match fault with Some (j, _) => (length ps < j)%nat | None => True end)
    /\ (forall j e, fault = Some (j, e) -> (j <= length ps)%nat ->
        PixDB.promise (snd result) = Rejected (DOM e)).
Proof.
  intros this eng s st index lb ub range direction es callback fault conn
         Hconn Hat Hix Hb Hdir Hwb result ps.
  assert (snd result = {| PixDB.promise := outcome fault ps;
                          PixDB.visited := reached fault ps |}
          /\ log (fst result)
             = (log eng ++ query_calls s index false
                ++ [CallOpenCursor (source_of conn s false index) range
                                   (default "next" direction)])
               ++ map (advance_call callback) (reached fault ps)) as [Hres Hlog].
  { assert (result
            = PixDB.traverse callback (map to_cursor es) 0 fault []
                (logged eng (query_calls s index false
                             ++ [CallOpenCursor (source_of conn s false index) range
                                                (default "next" direction)]))) as ->.
    { subst result. unfold PixDB.getCursor.
      unfold bind at 1. rewrite (query_read this conn eng s st Hconn Hat index Hix).
      unfold bind at 1, lift. rewrite Hb. cbn [PixDB.store].
      unfold openCursor, bind, record_call, get_store.
      cbn -[in_direction matching PixDB.traverse].
      pose proof Hat as Hst. unfold find_store in Hst |- *.
      cbn -[in_direction matching PixDB.traverse].
      destruct (databases eng !! conn_name conn) as [d|]; [|discriminate].
      rewrite Hst. cbn -[in_direction matching PixDB.traverse].
      unfold source_of at 1. cbn -[in_direction matching PixDB.traverse].
      rewrite Hdir. cbn -[PixDB.traverse].
      unfold logged. cbn. rewrite <- !app_assoc. reflexivity. }
    match goal with
    | |- context [PixDB.traverse _ ?l 0 _ [] ?e] =>
        destruct (traverse_positions callback Hwb l (length l) 0 fault [] e) as [Hs Hl];
          [lia|]
    end.
    rewrite drop_0 in Hs, Hl. cbn zeta in Hs, Hl.
    split; [exact Hs|exact Hl]. }
  repeat split.
  - intros c. cbn. destruct (advance_count_step callback Hwb c) as [-> _]. reflexivity.
  - intros c f n -> Hf. cbn. rewrite Hf. reflexivity.
  - intros c f -> Hf. cbn. rewrite Hf. reflexivity.
  - intros c ->. reflexivity.
  - rewrite Hres. reflexivity.
  - unfold issued. rewrite Hlog, <- !app_assoc. rewrite drop_app_length. reflexivity.
  - rewrite Hres. reflexivity.
  - rewrite Hres. cbn. unfold outcome. destruct fault as [[j e]|]; [|tauto].
    destruct (Nat.leb_spec j (length ps)); [discriminate|lia].
  - rewrite Hres. cbn. unfold outcome. destruct fault as [[j e]|]; [|tauto].
    destruct (Nat.leb_spec j (length ps)); [lia|reflexivity].
  - intros j e -> Hj. rewrite Hres. cbn.
    destruct (Nat.leb_spec j (length ps)); [reflexivity|lia].
Qed.

(** The property at the sample store, with a callback that jumps two
    positions at ["a"]: ["a"] and ["c"] are visited. *)
Lemma getCursor_traversal_witness :
  find_store Sample.engine "test" "state" = Some Sample.state
  /\ well_behaved (Some Sample.hop)
  /\ PixDB.visited (snd (PixDB.getCursor Sample.connected "state" None None None None
                           (Some Sample.hop) None Sample.engine))
     = map to_cursor [(KStr "a", Sample.a); (KStr "c", Sample.c)]
  /\ PixDB.promise (snd (PixDB.getCursor Sample.connected "state" None None None None
                           (Some Sample.hop) None Sample.engine))
     = Fulfilled true.
Proof.
  assert (find_store Sample.engine "test" "state" = Some Sample.state) as H1
      by (vm_compute; reflexivity).
  assert (well_behaved (Some Sample.hop)) as H2.
  { intros f c [= <-]. unfold Sample.hop, max_unsigned_long.
    destruct (bool_decide _); [lia|exact I]. }
  destruct (getCursor_traversal
              Sample.connected Sample.engine "state" Sample.state None None None None None
              [(KStr "a", Sample.a); (KStr "b", Sample.b); (KStr "c", Sample.c)]
              (Some Sample.hop) None {| conn_name := "test" |} eq_refl H1 I eq_refl eq_refl H2)
    as (_ & _ & _ & _ & _ & _ & Hv & _ & Hp & _).
  exact (conj H1 (conj H2 (conj Hv Hp))).
Defined.

(** C6. [connect] always resolves and never rejects, whatever the state
    of the object, the engine and the back end's answer to the open
    request: it gives [true] exactly when the open handshake succeeds (the
    engine is there and its open request fires success; the object is then
    connected), and [false] in every other case. *)
Theorem connect_always_resolves :
  forall (this : PixDB.t) (reply : Reply) (eng : Engine),
    exists b,
      snd (snd (PixDB.connect this reply eng)) = Fulfilled b
      /\ (b = true <->
          supported eng = true
          /\ exists eng1 conn,
               IDB.open (PixDB.dbName this) (PixDB.dbVersion this) None reply eng
               = (eng1, Ok (inr conn)))
      /\ (b = true <->
          exists v, snd (snd (PixDB.dbConnect this None reply eng)) = Fulfilled v)
      /\ (b = false <->
          exists r, snd (snd (PixDB.dbConnect this None reply eng)) = Rejected r)
      /\ (b = true -> PixDB.isConnected (fst (snd (PixDB.connect this reply eng))) = true).
Proof.
  intros this reply eng.
  unfold PixDB.connect, PixDB.dbConnect.
  destruct (supported eng) eqn:Hsup; cbn [negb].
  - destruct (IDB.open (PixDB.dbName this) (PixDB.dbVersion this) None reply eng)
      as [eng1 [[e|conn]|e]] eqn:Hopen; cbn.
    + exists false. repeat split; try discriminate; try (intros; eauto; fail).
      * intros (_ & ? & ? & ?). discriminate.
      * intros (? & ?). discriminate.
    + exists true. repeat split; try discriminate; eauto.
      intros (? & ?). discriminate.
    + exists false. repeat split; try discriminate; try (intros; eauto; fail).
      * intros (_ & ? & ? & ?). discriminate.
      * intros (? & ?). discriminate.
  - exists false. cbn. repeat split; try discriminate; try (intros; eauto; fail).
    + intros (? & _). discriminate.
    + intros (? & ?). discriminate.
Qed.

(** C7. [get] passes its key to [#exec] bare, and [#exec] takes an array
    for the argument list. So a key that is an array is spread: with the
    empty array, a key no record of the sample store has, [get] calls the
    engine's [get] without argument and rejects with a [TypeError]; with
    [["a", 1]], another key no record has, it looks up ["a"] and resolves
    with that record. [delete], which wraps its key, resolves for both. *)
Theorem get_spreads_array_key :
  (forall r, r ∈ st_records Sample.state -> rkey r <> KArr [])
  /\ snd (PixDB.get Sample.connected "state" None (KArr []) Sample.engine)
     = Rejected TypeError
  /\ (forall r, r ∈ st_records Sample.state -> rkey r <> KArr [KStr "a"; KNum 1])
  /\ snd (PixDB.get Sample.connected "state" None (KArr [KStr "a"; KNum 1]) Sample.engine)
     = Fulfilled (VRecord Sample.a)
  /\ snd (PixDB.delete Sample.connected "state" (KArr []) Sample.engine)
     = Fulfilled VUndefined
  /\ snd (PixDB.delete Sample.connected "state" (KArr [KStr "a"; KNum 1]) Sample.engine)
     = Fulfilled VUndefined.
Proof.
  assert (forall k, (forall r, r ∈ [Sample.b; Sample.a; Sample.c] -> rkey r <> KArr k)) as Hno.
  { intros k r Hr.
    repeat (apply elem_of_cons in Hr as [->|Hr]; [discriminate|]).
    inversion Hr. }
  split; [apply Hno|].
  split; [vm_compute; reflexivity|].
  split; [apply Hno|].
  repeat split; vm_compute; reflexivity.
Qed.

(** C8. For every store, optional index and optional bounds, [getAllKeys]
    (called without a maximum) and [count] end the same way: where one
    throws or rejects the other does so with the same error, and where
    they resolve the number [count] gives is the length of the array
    [getAllKeys] gives. *)
Theorem getAllKeys_length_is_count :
  forall (this : PixDB.t) (eng : Engine) (s : string) (index : option string)
         (lowerBound upperBound : option Key),
    match PixDB.count this s index lowerBound upperBound eng,
          PixDB.getAllKeys this s index lowerBound upperBound None eng with
    | Ok (_, Fulfilled (VNumber n)), Ok (_, Fulfilled (VKeys ks)) =>
        n = Z.of_nat (length ks)
    | Ok (_, Rejected e1), Ok (_, Rejected e2) => e1 = e2
    | Throw e1, Throw e2 => e1 = e2
    | _, _ => False
    end.
Proof.
  intros this eng s index lb ub.
  unfold PixDB.count, PixDB.getAllKeys, PixDB.with_bound.
  destruct (PixDB.bound lb ub) as [range|e]; [|reflexivity].
  unfold PixDB.exec, PixDB.new_Promise, bind. cbn [String.eqb Ascii.eqb Bool.eqb orb].
  destruct (PixDB.query this s index false eng) as [eng1 [q|e]]; [|reflexivity].
  unfold invoke, bind, record_call, get_store, find_store. cbn.
  destruct (databases eng1 !! src_db (PixDB.store q)) as [d|]; [|reflexivity].
  destruct (db_stores d !! src_store (PixDB.store q)) as [st|]; [|reflexivity].
  destruct range as [r|]; cbn; rewrite length_map; reflexivity.
Qed.

(** C9, as stated, fails for [drop]: on a [null] handle the call of [drop]
    does not throw, it returns a promise, rejected with the [TypeError]
    that [close] threw inside the promise's executor. *)
Lemma drop_on_null_handle_does_not_throw :
  ~ null_handle_throws Sample.closed Granted Sample.engine.
Proof.
  unfold null_handle_throws, throws. intros [_ [e He]]. cbn in He. discriminate.
Qed.

(** C9, amended. [close] needs a connected object. When the handle is
    [null], [close] dereferences it and throws a [TypeError] at the call,
    leaving everything as it was; [drop], which calls [close] first thing
    inside its promise's executor, does not throw: it returns a promise
    rejected with that [TypeError], sends nothing to the engine and
    clears nothing. When the handle is not [null], [close] does not throw:
    it closes the connection and leaves the object disconnected. *)
Theorem close_needs_connection :
  forall (this : PixDB.t) (reply : Reply) (eng : Engine),
    match PixDB.db this with
    | None =>
        PixDB.close this eng = (eng, Throw TypeError)
        /\ throws (PixDB.close this eng)
        /\ call (PixDB.drop this reply) eng = (eng, Ok (this, Rejected TypeError))
        /\ ~ throws (call (PixDB.drop this reply) eng)
    | Some conn =>
        ~ throws (PixDB.close this eng)
        /\ exists this',
             PixDB.close this eng = (logged eng [CallClose (conn_name conn)], Ok this')
             /\ PixDB.isConnected this' = false
             /\ PixDB.name this' = PixDB.name this
             /\ PixDB.version this' = PixDB.version this
    end.
Proof.
  intros this reply eng.
  destruct (PixDB.db this) as [conn|] eqn:Hconn.
  - unfold PixDB.close, throws. rewrite Hconn. cbn. split.
    + intros [e He]. discriminate.
    + eexists. repeat split.
  - unfold call, PixDB.drop, PixDB.close, throws. rewrite Hconn. cbn.
    repeat split.
    + eexists; reflexivity.
    + intros [e He]. discriminate.
Qed.

(** C10. On a connected object, [add] and [put] take an empty batch: with
    [item] left out or an empty array, the call opens a read-write
    transaction, places no write, commits, resolves (with nothing), and
    the databases, hence the store's contents, are as before. *)
Theorem empty_batch_commits_nothing :
  forall (this : PixDB.t) (eng : Engine) (s : string) (st : Store)
         (overwrite : bool) (item : option PixDB.Item),
    store_at eng this s = Some st ->
    item = None \/ item = Some (PixDB.Many []) ->
    exists eng',
      (if overwrite then PixDB.put this s item eng else PixDB.add this s item eng)
      = (eng', Fulfilled VUndefined)
      /\ issued eng eng' = [CallTransaction s ReadWrite Strict; CallCommit s]
      /\ databases eng' = databases eng
      /\ store_at eng' this s = Some st.
Proof.
  intros this eng s st overwrite item Hat Hitem.
  unfold store_at in Hat.
  destruct (PixDB.db this) as [conn|] eqn:Hconn; [|discriminate].
  assert (default (PixDB.Many []) item = PixDB.Many []) as Hdef
      by (destruct Hitem as [->| ->]; reflexivity).
  exists (logged eng [CallTransaction s ReadWrite Strict; CallCommit s]).
  split.
  - assert (PixDB.update this s (PixDB.Many []) overwrite eng
            = (logged eng [CallTransaction s ReadWrite Strict; CallCommit s],
               Fulfilled VUndefined)) as Hupd.
    { unfold PixDB.update, PixDB.new_Promise.
      unfold bind at 1.
      rewrite (query_store this conn eng s st Hconn Hat None true eq_refl).
      cbn [PixDB.forEach PixDB.transaction]. unfold bind at 1, ret at 1.
      unfold bind at 1, commit, bind, record_call. cbn.
      match goal with
      | |- context [find_store ?E (conn_name conn) s] =>
          assert (find_store E (conn_name conn) s = Some st) as HE by exact Hat;
          rewrite HE; cbn; rewrite (set_store_same E _ _ _ HE)
      end.
      unfold logged. cbn. rewrite <- app_assoc. reflexivity. }
    unfold PixDB.put, PixDB.add. rewrite Hdef.
    destruct overwrite; exact Hupd.
  - split; [apply issued_logged|].
    split; [reflexivity|].
    unfold store_at. rewrite Hconn. exact Hat.
Qed.

(** The property at the sample store, [item] being left out. *)
Lemma empty_batch_commits_nothing_witness :
  store_at Sample.engine Sample.connected "state" = Some Sample.state
  /\ (@None PixDB.Item = None \/ @None PixDB.Item = Some (PixDB.Many []))
  /\ exists eng',
       PixDB.add Sample.connected "state" None Sample.engine = (eng', Fulfilled VUndefined)
       /\ issued Sample.engine eng'
          = [CallTransaction "state" ReadWrite Strict; CallCommit "state"]
       /\ databases eng' = databases Sample.engine
       /\ store_at eng' Sample.connected "state" = Some Sample.state.
Proof.
  assert (store_at Sample.engine Sample.connected "state" = Some Sample.state) as H1
      by (vm_compute; reflexivity).
  assert (@None PixDB.Item = None \/ @None PixDB.Item = Some (PixDB.Many [])) as H2
      by (left; reflexivity).
  exact (conj H1 (conj H2
           (empty_batch_commits_nothing
              Sample.connected Sample.engine "state" Sample.state false None H1 H2))).
Defined.

(* ===================================================================== *)
(** ** Further facts on the engine model *)
(* ===================================================================== *)

Section Keys.

Lemma key_cmp_antisym (a : Key) : forall b, key_cmp b a = CompOpp (key_cmp a b).
Proof.
  induction a as [n|t|s|ks IH] using Key_induction; intros [m|u|v|xs]; cbn;
    try reflexivity.
  - apply Z.compare_antisym.
  - apply Z.compare_antisym.
  - apply String.compare_antisym.
  - revert xs. induction IH as [|k ks Hk _ IHks]; intros [|x xs]; try reflexivity.
    rewrite (Hk x). destruct (key_cmp k x); cbn; try reflexivity. apply IHks.
Qed.

Lemma key_cmp_eq (a : Key) : forall b, key_cmp a b = Eq -> a = b.
Proof.
  induction a as [n|t|s|ks IH] using Key_induction; intros [m|u|v|xs]; cbn;
    try discriminate.
  - intros H. apply Z.compare_eq in H. congruence.
  - intros H. apply Z.compare_eq in H. congruence.
  - intros H. apply String.compare_eq_iff in H. congruence.
  - intros H. f_equal. revert xs H.
    induction IH as [|k ks Hk _ IHks]; intros [|x xs] H; try discriminate;
      [reflexivity|].
    destruct (key_cmp k x) eqn:Hc; try discriminate.
    rewrite (Hk x Hc), (IHks xs H). reflexivity.
Qed.

Lemma key_cmp_refl (a : Key) : key_cmp a a = Eq.
Proof.
  pose proof (key_cmp_antisym a a) as H.
  destruct (key_cmp a a); [reflexivity|discriminate..].
Qed.

(** The range [only k] holds the key [k] and no other. *)
Lemma includes_only (k x : Key) :
  includes (IDBKeyRange_only k) x = true <-> x = k.
Proof.
  unfold includes, IDBKeyRange_only, key_leb. cbn. split.
  - rewrite (key_cmp_antisym k x).
    destruct (key_cmp k x) eqn:H; cbn; try discriminate.
    intros _. symmetry. apply key_cmp_eq. exact H.
  - intros ->. rewrite key_cmp_refl. reflexivity.
Qed.

End Keys.

Section Sorting.

Lemma insert_sorted_elem (e x : Entry) (l : list Entry) :
  x ∈ insert_sorted e l <-> x = e \/ x ∈ l.
Proof.
  induction l as [|y l IH]; cbn.
  - rewrite list_elem_of_singleton, elem_of_nil. tauto.
  - destruct (entry_leb e y).
    + rewrite elem_of_cons. tauto.
    + rewrite !elem_of_cons, IH. tauto.
Qed.

(** Sorting keeps the entries. *)
Lemma sort_entries_elem (x : Entry) (l : list Entry) :
  x ∈ sort_entries l <-> x ∈ l.
Proof.
  induction l as [|y l IH]; cbn; [tauto|].
  rewrite insert_sorted_elem, elem_of_cons, IH. tauto.
Qed.

Lemma insert_sorted_length (e : Entry) (l : list Entry) :
  length (insert_sorted e l) = S (length l).
Proof.
  induction l as [|y l IH]; cbn; [reflexivity|].
  destruct (entry_leb e y); cbn; [reflexivity|]. rewrite IH. reflexivity.
Qed.

Lemma sort_entries_length (l : list Entry) : length (sort_entries l) = length l.
Proof.
  unfold sort_entries. induction l as [|y l IH]; cbn; [reflexivity|].
  rewrite insert_sorted_length, IH. reflexivity.
Qed.

(** The entries of a store are its records under their keys. *)
Lemma entries_store_elem (st : Store) (e : Entry) :
  e ∈ entries st None <-> exists r, r ∈ st_records st /\ e = (rkey r, r).
Proof.
  unfold entries, store_entries. rewrite sort_entries_elem.
  rewrite list_elem_of_fmap. split; intros (r & H1 & H2); exists r; tauto.
Qed.

Lemma entries_store_length (st : Store) :
  length (entries st None) = length (st_records st).
Proof.
  unfold entries, store_entries. rewrite sort_entries_length. apply length_map.
Qed.

End Sorting.

Section Results.

Lemma find_store_set_store eng db s st st' :
  find_store eng db s = Some st ->
  find_store (set_store eng db s st') db s = Some st'.
Proof.
  unfold find_store, set_store. intros H.
  destruct (databases eng !! db) as [d|] eqn:Hd; [|discriminate].
  cbn. rewrite lookup_insert_eq. cbn. apply lookup_insert_eq.
Qed.

Lemma handlers_all_success evs :
  Forall (fun ev => ev = TxRequestSuccess) evs ->
  foldl PixDB.update_handlers Pending (evs ++ [TxComplete]) = Fulfilled VUndefined.
Proof.
  induction 1 as [|ev evs -> _ IH]; [reflexivity|exact IH].
Qed.

(** How a queue of writes ends: all done on the working copy, or none and
    the handlers reject with the error of the first request that failed. *)
Lemma run_queue_outcome q : forall st,
  match run_queue st q with
  | (Some _, evs) =>
      foldl PixDB.update_handlers Pending (evs ++ [TxComplete]) = Fulfilled VUndefined
  | (None, evs) =>
      foldl PixDB.update_handlers Pending (evs ++ [TxAbort])
      = Rejected (Error (ex_message constraint_error)
                        (Some (error_event constraint_error)))
  end.
Proof.
  induction q as [|w q IH]; intros st; cbn [run_queue]; [reflexivity|].
  destruct (apply_write st w) as [d|st'] eqn:Hw.
  - assert (d = constraint_error) as ->.
    { destruct w as [v|v]; cbn in Hw.
      - destruct (has_key (rkey v) (st_records st)); [congruence|].
        destruct (unique_clash st v); congruence.
      - destruct (unique_clash st v); congruence. }
    cbn. apply handlers_rejected.
  - specialize (IH st'). destruct (run_queue st' q) as [[st''|] evs]; exact IH.
Qed.

Variables (this : PixDB.t) (conn : IDBDatabase) (eng : Engine) (s : string) (st : Store).
Hypothesis Hconn : PixDB.db this = Some conn.
Hypothesis Hstore : find_store eng (conn_name conn) s = Some st.

(** What [#update] comes to on a connected object: the queue of the batch
    is run on the store; it is written back and the promise resolves, or
    nothing is written and the promise rejects. *)
Lemma update_result (record : PixDB.Item) (overwrite : bool) :
  let recs := match record with PixDB.Many l => l | PixDB.One r => [r] end in
  let cs := query_calls s None true
            ++ map (fun v => if overwrite then CallPut s v else CallAdd s v) recs
            ++ [CallCommit s] in
  PixDB.update this s record overwrite eng
  = match run_queue st (map (fun v => if overwrite then WPut v else WAdd v) recs) with
    | (Some st', _) =>
        (set_store (logged eng cs) (conn_name conn) s st', Fulfilled VUndefined)
    | (None, _) =>
        (logged eng cs,
         Rejected (Error (ex_message constraint_error)
                         (Some (error_event constraint_error))))
    end.
Proof.
  cbn zeta. unfold PixDB.update, PixDB.new_Promise.
  unfold bind at 1. rewrite (query_write this conn eng s st Hconn Hstore None).
  unfold bind at 1. cbn [PixDB.transaction].
  rewrite (forEach_places overwrite) by reflexivity.
  unfold bind at 1, commit, bind, record_call.
  cbn -[run_queue].
  pose proof Hstore as Hst. unfold find_store in Hst |- *. cbn -[run_queue].
  destruct (databases eng !! conn_name conn) as [d|] eqn:Hd; [|discriminate].
  rewrite Hst.
  match goal with
  | |- context [run_queue st ?q] =>
      pose proof (run_queue_outcome q st) as Hout; destruct (run_queue st q) as [[st'|] evs]
  end; cbn; rewrite Hout; unfold set_store, logged; cbn; rewrite ?Hd, <- ?app_assoc;
    reflexivity.
Qed.

End Results.

Section Invocations.

Variables (src : Source) (eng : Engine) (st : Store) (args : list Arg).
Hypothesis Hst : find_store eng (src_db src) (src_store src) = Some st.

Ltac run_invoke :=
  unfold invoke, bind, record_call, get_store, lift, ret, throw, writable, put_store;
  cbn -[matching arg_query arg_count];
  pose proof Hst as Hst'; unfold find_store in Hst' |- *;
  cbn -[matching arg_query arg_count];
  destruct (databases eng !! src_db src) as [d|] eqn:Hd; [|discriminate];
  rewrite Hst'; cbn -[matching arg_query arg_count].

Lemma invoke_count :
  invoke src "count" args eng
  = (logged eng [CallMethod src "count" args],
     match arg_query (args !! 0%nat) false with
     | Ok q => Ok (Success (VNumber (Z.of_nat (length (matching st (src_index src) q)))))
     | Throw e => Throw e
     end).
Proof. run_invoke. destruct (arg_query _ _); reflexivity. Qed.

Lemma invoke_get :
  invoke src "get" args eng
  = (logged eng [CallMethod src "get" args],
     match arg_query (args !! 0%nat) true with
     | Ok q => Ok (Success (match matching st (src_index src) q with
                            | e :: _ => VRecord (snd e)
                            | [] => VUndefined
                            end))
     | Throw e => Throw e
     end).
Proof. run_invoke. destruct (arg_query _ _); reflexivity. Qed.

Lemma invoke_getAll :
  invoke src "getAll" args eng
  = (logged eng [CallMethod src "getAll" args],
     match arg_query (args !! 0%nat) false with
     | Ok q =>
         match arg_count (args !! 1%nat) with
         | Ok n => Ok (Success (VRecords (map snd (limit n (matching st (src_index src) q)))))
         | Throw e => Throw e
         end
     | Throw e => Throw e
     end).
Proof.
  run_invoke. destruct (arg_query _ _); [|reflexivity].
  destruct (arg_count _); reflexivity.
Qed.

Lemma invoke_getAllKeys :
  invoke src "getAllKeys" args eng
  = (logged eng [CallMethod src "getAllKeys" args],
     match arg_query (args !! 0%nat) false with
     | Ok q =>
         match arg_count (args !! 1%nat) with
         | Ok n => Ok (Success (VKeys (map (fun e => rkey (snd e))
                                          (limit n (matching st (src_index src) q)))))
         | Throw e => Throw e
         end
     | Throw e => Throw e
     end).
Proof.
  run_invoke. destruct (arg_query _ _); [|reflexivity].
  destruct (arg_count _); reflexivity.
Qed.

Hypothesis Hstore : src_index src = None.
Hypothesis Hrw : src_mode src = ReadWrite.

Lemma invoke_delete :
  invoke src "delete" args eng
  = match arg_query (args !! 0%nat) true with
    | Ok q =>
        (set_store (logged eng [CallMethod src "delete" args]) (src_db src) (src_store src)
                   (with_records st (without q (st_records st))),
         Ok (Success VUndefined))
    | Throw e => (logged eng [CallMethod src "delete" args], Throw e)
    end.
Proof.
  run_invoke. rewrite Hstore, Hrw. cbn -[arg_query].
  destruct (arg_query _ _); reflexivity.
Qed.

Lemma invoke_clear :
  invoke src "clear" args eng
  = (set_store (logged eng [CallMethod src "clear" args]) (src_db src) (src_store src)
               (with_records st []),
     Ok (Success VUndefined)).
Proof. run_invoke. rewrite Hstore, Hrw. reflexivity. Qed.

End Invocations.

Section Executions.

Variables (this : PixDB.t) (conn : IDBDatabase) (eng : Engine) (s : string) (st : Store).
Hypothesis Hconn : PixDB.db this = Some conn.
Hypothesis Hstore : find_store eng (conn_name conn) s = Some st.

(** [#exec] for a method that reads: the method is called on the source
    [#query] hands out, and the promise is what the handlers make of it. *)
Lemma exec_read index method args :
  String.eqb method "delete" || String.eqb method "clear" = false ->
  index_of st index ->
  PixDB.exec this s index method args eng
  = match invoke (source_of conn s false index) method (as_array args)
                 (logged eng (query_calls s index false)) with
    | (eng', Ok request) => (eng', PixDB.exec_handlers Pending request)
    | (eng', Throw e) => (eng', Rejected e)
    end.
Proof.
  intros Hm Hix. unfold PixDB.exec, PixDB.new_Promise. rewrite Hm.
  unfold bind at 1. rewrite (query_read this conn eng s st Hconn Hstore index Hix).
  unfold bind. cbn [PixDB.store].
  destruct (invoke _ method (as_array args) _) as [eng1 [req|e]]; reflexivity.
Qed.

(** [#exec] for [delete] and [clear]. *)
Lemma exec_write index method args :
  String.eqb method "delete" || String.eqb method "clear" = true ->
  PixDB.exec this s index method args eng
  = match invoke (source_of conn s true None) method (as_array args)
                 (logged eng (query_calls s None true)) with
    | (eng', Ok request) => (eng', PixDB.exec_handlers Pending request)
    | (eng', Throw e) => (eng', Rejected e)
    end.
Proof.
  intros Hm. unfold PixDB.exec, PixDB.new_Promise. rewrite Hm.
  unfold bind at 1. rewrite (query_write this conn eng s st Hconn Hstore index).
  unfold bind. cbn [PixDB.store].
  destruct (invoke _ method (as_array args) _) as [eng1 [req|e]]; reflexivity.
Qed.

End Executions.

(* ===================================================================== *)
(** ** Further properties *)
(* ===================================================================== *)

Section Opening.

Lemma or_string_default dbName : PixDB.or_string dbName "db" = name_or_default dbName.
Proof.
  unfold PixDB.or_string, name_or_default, truthy_string.
  destruct dbName as [n|]; [|reflexivity]. destruct (String.eqb n ""); reflexivity.
Qed.

Lemma or_number_default dbVersion : PixDB.or_number dbVersion 1 = version_or_default dbVersion.
Proof.
  unfold PixDB.or_number, version_or_default, truthy_number.
  destruct dbVersion as [v|]; [|reflexivity]. destruct (v =? 0); reflexivity.
Qed.

(** What [#dbConnect] comes to, case by case. *)
Lemma dbConnect_cases this upgrade reply eng :
  let n := default "null" (PixDB.dbName this) in
  let v := default 0 (PixDB.dbVersion this) in
  let old := default empty_database (databases eng !! n) in
  let connected := {| PixDB.db := Some {| conn_name := n |};
                      PixDB.dbName := PixDB.dbName this;
                      PixDB.dbVersion := PixDB.dbVersion this |} in
  PixDB.dbConnect this upgrade reply eng
  = if negb (supported eng)
    then (eng, (this, Rejected (Error "No indexedDB support" None)))
    else if (v <=? 0) || (max_unsigned_long_long <? v)
    then (logged eng [CallOpen n v], (this, Rejected TypeError))
    else match reply with
         | Refused e =>
             (logged eng [CallOpen n v],
              (this, Rejected (Error (String.append "IndexedDB error "
                                        (String.append (target_errorCode e)
                                           (String.append ": " (target_message e))))
                                     (Some e))))
         | Granted =>
             if v <? db_version old
             then (logged eng [CallOpen n v],
                   (this, Rejected (Error "IndexedDB error undefined: undefined"
                                          (Some (error_event version_error)))))
             else if db_version old <? v
             then (with_databases (logged eng [CallOpen n v])
                     (<[n := opened_database eng n v upgrade]> (databases eng)),
                   (connected, Fulfilled connected))
             else (logged eng [CallOpen n v], (connected, Fulfilled connected))
         end.
Proof.
  cbn zeta. unfold PixDB.dbConnect.
  destruct (supported eng); cbn [negb]; [|reflexivity].
  unfold IDB.open, bind, record_call. cbn.
  destruct ((default 0 (PixDB.dbVersion this) <=? 0)
            || (max_unsigned_long_long <? default 0 (PixDB.dbVersion this)));
    [reflexivity|].
  destruct reply as [|e]; [|reflexivity]. cbn.
  destruct (default 0 (PixDB.dbVersion this)
            <? db_version (default empty_database
                             (databases eng !! default "null" (PixDB.dbName this))));
    [reflexivity|].
  unfold opened_database.
  destruct (db_version (default empty_database
                          (databases eng !! default "null" (PixDB.dbName this)))
            <? default 0 (PixDB.dbVersion this)); reflexivity.
Qed.

End Opening.

(** X1. The constructor takes the name ["db"] for a missing or empty name
    and the version [1] for a missing or zero version. Where the engine
    is there and grants the open, for a version the engine takes
    (positive and at most [2^53 - 1]) that is not below the stored one,
    it resolves with the object, connected, with that name and that
    version; the database then exists at that version, upgraded by the
    routine if the version went up, and no other database is touched. *)
Theorem constructor_connects :
  forall (eng : Engine) (dbName : option string) (dbVersion : option Z)
         (upgrade : option UpgradeFn),
    let n := name_or_default dbName in
    let v := version_or_default dbVersion in
    supported eng = true ->
    0 < v <= max_unsigned_long_long ->
    (forall d, databases eng !! n = Some d -> db_version d <= v) ->
    exists eng' this,
      PixDB.constructor dbName dbVersion upgrade Granted eng = (eng', (this, Fulfilled this))
      /\ PixDB.isConnected this = true
      /\ PixDB.name this = Some n
      /\ PixDB.version this = Some v
      /\ PixDB.db this = Some {| conn_name := n |}
      /\ databases eng' !! n = Some (opened_database eng n v upgrade)
      /\ db_version (opened_database eng n v upgrade) = v
      /\ (forall m, m <> n -> databases eng' !! m = databases eng !! m).
Proof.
  intros eng dbName dbVersion upgrade n v Hsup Hv Hold.
  unfold PixDB.constructor. rewrite dbConnect_cases. cbn zeta.
  rewrite or_string_default, or_number_default.
  cbn [PixDB.dbName PixDB.dbVersion from_option id].
  fold n. fold v. rewrite Hsup. cbn [negb].
  assert ((v <=? 0) || (max_unsigned_long_long <? v) = false) as -> by lia.
  assert ((v <? db_version (default empty_database (databases eng !! n))) = false) as Hlt.
  { destruct (databases eng !! n) as [d|] eqn:Hd; cbn; [specialize (Hold d eq_refl)|]; lia. }
  rewrite Hlt.
  destruct (db_version (default empty_database (databases eng !! n)) <? v) eqn:Hup.
  - eexists _, _. split; [reflexivity|]. cbn. repeat split.
    + apply lookup_insert_eq.
    + unfold opened_database. rewrite Hup. reflexivity.
    + intros m Hm. apply lookup_insert_ne. congruence.
  - eexists _, _. split; [reflexivity|]. cbn.
    assert (opened_database eng n v upgrade
            = default empty_database (databases eng !! n)) as Hsame
        by (unfold opened_database; rewrite Hup; reflexivity).
    rewrite Hsame. repeat split.
    + destruct (databases eng !! n) as [d|] eqn:Hd; [reflexivity|].
      cbn in Hup. lia.
    + lia.
Qed.

(** The property for the test page's database on an engine that has none. *)
Lemma constructor_connects_witness :
  supported TestPage.fresh = true
  /\ 0 < version_or_default (Some 1) <= max_unsigned_long_long
  /\ (forall d, databases TestPage.fresh !! name_or_default (Some "test") = Some d ->
        db_version d <= version_or_default (Some 1))
  /\ exists eng' this,
       PixDB.constructor (Some "test") (Some 1) (Some TestPage.upgrade) Granted TestPage.fresh
       = (eng', (this, Fulfilled this))
       /\ PixDB.isConnected this = true
       /\ PixDB.name this = Some "test"
       /\ PixDB.version this = Some 1
       /\ PixDB.db this = Some {| conn_name := "test" |}
       /\ databases eng' !! "test"
          = Some (opened_database TestPage.fresh "test" 1 (Some TestPage.upgrade))
       /\ db_version (opened_database TestPage.fresh "test" 1 (Some TestPage.upgrade)) = 1
       /\ (forall m, m <> "test" -> databases eng' !! m = databases TestPage.fresh !! m).
Proof.
  assert (supported TestPage.fresh = true) as H1 by reflexivity.
  assert (0 < version_or_default (Some 1) <= max_unsigned_long_long) as H2
      by (split; [reflexivity|discriminate]).
  assert (forall d, databases TestPage.fresh !! name_or_default (Some "test") = Some d ->
            db_version d <= version_or_default (Some 1)) as H3
      by (intros d Hd; vm_compute in Hd; discriminate).
  exact (conj H1 (conj H2 (conj H3
           (constructor_connects TestPage.fresh (Some "test") (Some 1)
              (Some TestPage.upgrade) H1 H2 H3)))).
Defined.

(** X2. [connect] never changes the name or the version, and touches no
    database but the one of the stored name. When it gives [false] the
    object and all databases are as before. When it gives [true] the
    object is connected to the database of the stored name, which is at
    the stored version, with the stores it had (none if it did not
    exist): a reconnect runs no upgrade routine. *)
Theorem connect_keeps_identity :
  forall (this : PixDB.t) (reply : Reply) (eng : Engine),
    let n := default "null" (PixDB.dbName this) in
    let result := PixDB.connect this reply eng in
    let eng' := fst result in
    let this' := fst (snd result) in
    let p := snd (snd result) in
    PixDB.name this' = PixDB.name this
    /\ PixDB.version this' = PixDB.version this
    /\ (forall m, m <> n -> databases eng' !! m = databases eng !! m)
    /\ (p = Fulfilled false -> this' = this /\ databases eng' = databases eng)
    /\ (p = Fulfilled true ->
        PixDB.db this' = Some {| conn_name := n |}
        /\ exists d, databases eng' !! n = Some d
             /\ Some (db_version d) = PixDB.dbVersion this
             /\ db_stores d = db_stores (default empty_database (databases eng !! n))).
Proof.
  intros this reply eng. cbn zeta. unfold PixDB.connect.
  rewrite dbConnect_cases. cbn zeta.
  destruct (supported eng); cbn [negb]; [|cbn; repeat split; discriminate].
  destruct ((default 0 (PixDB.dbVersion this) <=? 0)
            || (max_unsigned_long_long <? default 0 (PixDB.dbVersion this))) eqn:Hv;
    [cbn; repeat split; discriminate|].
  apply orb_false_iff in Hv as [Hv _].
  destruct reply as [|e]; [|cbn; repeat split; discriminate].
  set (old := default empty_database
                (databases eng !! default "null" (PixDB.dbName this))).
  destruct (default 0 (PixDB.dbVersion this) <? db_version old) eqn:Hlt;
    [cbn; repeat split; discriminate|].
  assert (PixDB.dbVersion this = Some (default 0 (PixDB.dbVersion this))) as Hsome.
  { destruct (PixDB.dbVersion this); [reflexivity|]. cbn in Hv. discriminate. }
  destruct (db_version old <? default 0 (PixDB.dbVersion this)) eqn:Hup; cbn.
  - repeat split; try discriminate.
    + intros m Hm. apply lookup_insert_ne. congruence.
    + eexists. split; [apply lookup_insert_eq|].
      unfold opened_database. fold old. rewrite Hup. cbn. split; [|reflexivity].
      symmetry. exact Hsome.
  - repeat split; try discriminate.
    exists old. subst old.
    destruct (databases eng !! default "null" (PixDB.dbName this)) as [d|] eqn:Hd.
    + cbn in *. repeat split. rewrite Hsome. f_equal. lia.
    + cbn in *. lia.
Qed.

(** X3. Closing and reconnecting gets the object back: on an engine that
    is there, for an object connected to the database of its name, stored
    at its version (one the engine takes: positive and at most
    [2^53 - 1], as the version of every database an engine stores is),
    [close] leaves it disconnected and a granted [connect] resolves with
    [true] and gives the object as it was; the databases are untouched
    throughout. *)
Theorem close_connect_round_trip :
  forall (this : PixDB.t) (eng : Engine) (n : string) (v : Z) (d : Database),
    supported eng = true ->
    PixDB.db this = Some {| conn_name := n |} ->
    PixDB.dbName this = Some n ->
    PixDB.dbVersion this = Some v ->
    0 < v <= max_unsigned_long_long ->
    databases eng !! n = Some d ->
    db_version d = v ->
    exists eng1 this1 eng2,
      PixDB.close this eng = (eng1, Ok this1)
      /\ PixDB.isConnected this1 = false
      /\ PixDB.connect this1 Granted eng1 = (eng2, (this, Fulfilled true))
      /\ databases eng1 = databases eng
      /\ databases eng2 = databases eng
      /\ issued eng eng2 = [CallClose n; CallOpen n v].
Proof.
  intros this eng n v d Hsup Hdb Hname Hver Hv Hd Hdv.
  unfold PixDB.close. rewrite Hdb. unfold bind, IDB.close, record_call. cbn.
  eexists _, _, _. split; [reflexivity|]. split; [reflexivity|].
  unfold PixDB.connect. rewrite dbConnect_cases. cbn zeta.
  cbn [supported databases PixDB.dbName PixDB.dbVersion PixDB.db].
  rewrite Hsup, Hname, Hver. cbn [negb from_option id].
  assert ((v <=? 0) || (max_unsigned_long_long <? v) = false) as -> by lia.
  rewrite Hd. cbn [from_option id]. rewrite Hdv.
  rewrite Z.ltb_irrefl. cbn.
  split.
  - f_equal. f_equal. destruct this as [db0 nm vs]. cbn in *. subst. reflexivity.
  - repeat split. unfold issued. cbn. rewrite <- app_assoc. apply drop_app_length.
Qed.

(** The property for the sample object. *)
Lemma close_connect_round_trip_witness :
  supported Sample.engine = true
  /\ databases Sample.engine !! "test" = Some Sample.database
  /\ exists eng1 this1 eng2,
       PixDB.close Sample.connected Sample.engine = (eng1, Ok this1)
       /\ PixDB.isConnected this1 = false
       /\ PixDB.connect this1 Granted eng1 = (eng2, (Sample.connected, Fulfilled true))
       /\ databases eng1 = databases Sample.engine
       /\ databases eng2 = databases Sample.engine
       /\ issued Sample.engine eng2 = [CallClose "test"; CallOpen "test" 1].
Proof.
  assert (supported Sample.engine = true) as H1 by reflexivity.
  assert (databases Sample.engine !! "test" = Some Sample.database) as H2
      by (vm_compute; reflexivity).
  assert (0 < 1 <= max_unsigned_long_long) as H3 by (unfold max_unsigned_long_long; lia).
  exact (conj H1 (conj H2
           (close_connect_round_trip Sample.connected Sample.engine "test" 1
              Sample.database H1 eq_refl eq_refl eq_refl H3 H2 eq_refl))).
Defined.

(** X4. Every object a program can hold (resolved by a constructor, then
    taken through any calls of [connect], [close] and [drop]) is well
    formed: a connection is to the database of the stored name; name and
    version are [null] together, and only on an object that is not
    connected; a name is never empty and a version is positive. So a
    connected object always has a name and a version. *)
Theorem reachable_well_formed :
  forall this : PixDB.t,
    reachable this ->
    well_formed this
    /\ (PixDB.isConnected this = true ->
        exists n v, PixDB.name this = Some n /\ PixDB.version this = Some v
                    /\ PixDB.db this = Some {| conn_name := n |}).
Proof.
  assert (forall this, well_formed this ->
            PixDB.isConnected this = true ->
            exists n v, PixDB.name this = Some n /\ PixDB.version this = Some v
                        /\ PixDB.db this = Some {| conn_name := n |}) as Hcor.
  { intros this (Hconn & Hiff & Hnone & _ & _) Hc. unfold PixDB.isConnected in Hc.
    destruct (PixDB.db this) as [[n]|] eqn:Hdb; [|discriminate].
    specialize (Hconn _ eq_refl). cbn in Hconn.
    destruct (PixDB.dbVersion this) as [v|] eqn:Hv.
    - exists n, v. repeat split; assumption.
    - destruct Hiff as [_ Hiff]. specialize (Hiff eq_refl). congruence. }
  intros this Hr. cut (well_formed this); [intros Hwf; split; [exact Hwf|apply Hcor, Hwf]|].
  induction Hr as
      [dbName dbVersion up reply eng eng' this Hnew
      |this reply eng eng' this' p Hr IH Hc
      |this eng eng' this' Hr IH Hc
      |this reply eng eng' this' p Hr IH Hd].
  - unfold PixDB.constructor in Hnew. rewrite dbConnect_cases in Hnew. cbn zeta in Hnew.
    rewrite or_string_default, or_number_default in Hnew.
    cbn [PixDB.dbName PixDB.dbVersion from_option id] in Hnew.
    assert (name_or_default dbName <> "") as Hne.
    { unfold name_or_default. destruct dbName as [n|]; [|discriminate].
      destruct (String.eqb n "") eqn:E; [discriminate|]. apply String.eqb_neq. exact E. }
    destruct (supported eng); cbn [negb] in Hnew; [|discriminate].
    destruct ((version_or_default dbVersion <=? 0)
              || (max_unsigned_long_long <? version_or_default dbVersion)) eqn:Hv;
      [discriminate|].
    apply orb_false_iff in Hv as [Hv _].
    assert (this = {| PixDB.db := Some {| conn_name := name_or_default dbName |};
                      PixDB.dbName := Some (name_or_default dbName);
                      PixDB.dbVersion := Some (version_or_default dbVersion) |}) as ->.
    { destruct reply; [|discriminate].
      repeat match type of Hnew with
             | context [if ?b then _ else _] => destruct b
             end; congruence. }
    unfold well_formed. cbn. repeat split; try discriminate; try congruence.
    + intros conn [= <-]. reflexivity.
    + intros v [= <-]. lia.
  - destruct IH as (Hconn & Hiff & Hnone & Hname & Hver).
    unfold PixDB.connect in Hc. rewrite dbConnect_cases in Hc. cbn zeta in Hc.
    assert (this' = this
            \/ (0 < default 0 (PixDB.dbVersion this)
                /\ this' = {| PixDB.db := Some {| conn_name := default "null" (PixDB.dbName this) |};
                              PixDB.dbName := PixDB.dbName this;
                              PixDB.dbVersion := PixDB.dbVersion this |})) as [->|[Hv ->]].
    { destruct ((default 0 (PixDB.dbVersion this) <=? 0)
                || (max_unsigned_long_long <? default 0 (PixDB.dbVersion this))) eqn:Hv.
      - left. repeat match type of Hc with
                     | context [if ?b then _ else _] => destruct b
                     end; cbn in Hc; congruence.
      - apply orb_false_iff in Hv as [Hv _].
        destruct (supported eng); cbn [negb] in Hc; [|left; cbn in Hc; congruence].
        destruct reply; [|left; cbn in Hc; congruence].
        repeat match type of Hc with
               | context [if ?b then _ else _] => destruct b
               end; cbn in Hc; first [left; congruence | right; split; [lia|congruence]]. }
    + unfold well_formed. tauto.
    + unfold well_formed. cbn. repeat split; try tauto.
      * intros conn [= <-]. cbn.
        destruct (PixDB.dbName this) as [n|] eqn:Hn; [reflexivity|].
        destruct Hiff as [Hiff _]. rewrite (Hiff eq_refl) in Hv. cbn in Hv. lia.
      * intros Hn. destruct Hiff as [Hiff _]. rewrite (Hiff Hn) in Hv. cbn in Hv. lia.
  - destruct IH as (Hconn & Hiff & Hnone & Hname & Hver).
    unfold PixDB.close in Hc.
    destruct (PixDB.db this) as [conn|]; [|discriminate].
    unfold bind, IDB.close, record_call in Hc. cbn in Hc. injection Hc as _ <-.
    unfold well_formed. cbn. repeat split; try tauto. discriminate.
  - destruct IH as (Hconn & Hiff & Hnone & Hname & Hver).
    unfold PixDB.drop, PixDB.close in Hd.
    destruct (PixDB.db this) as [conn|] eqn:Hdb.
    + unfold bind, IDB.close, record_call, deleteDatabase in Hd. cbn in Hd.
      destruct reply; cbn in Hd; injection Hd as _ <- _;
        unfold well_formed; cbn; repeat split; try tauto; discriminate.
    + cbn in Hd. injection Hd as _ <- _. unfold well_formed. rewrite Hdb. tauto.
Qed.

(** The sample object is the one the constructor of the test page
    resolves with. *)
Lemma reachable_well_formed_witness :
  reachable Sample.connected
  /\ well_formed Sample.connected
  /\ (PixDB.isConnected Sample.connected = true ->
      exists n v, PixDB.name Sample.connected = Some n
                  /\ PixDB.version Sample.connected = Some v
                  /\ PixDB.db Sample.connected = Some {| conn_name := n |}).
Proof.
  assert (reachable Sample.connected) as H1.
  { apply (reach_new (Some "test") (Some 1) (Some TestPage.upgrade) Granted TestPage.fresh
             (fst (PixDB.constructor (Some "test") (Some 1) (Some TestPage.upgrade)
                     Granted TestPage.fresh))).
    vm_compute. reflexivity. }
  exact (conj H1 (reachable_well_formed Sample.connected H1)).
Defined.

(** X5. A dropped object stays dropped: after a successful [drop] of a
    connected object, whatever the back end answers, [connect] resolves
    with [false] (the stored version is [null], which the engine's [open]
    refuses) and a second [drop] rejects with a [TypeError]; neither
    changes the object or any database. *)
Theorem dropped_object_stays_dropped :
  forall (this : PixDB.t) (eng : Engine),
    PixDB.isConnected this = true ->
    let dropped := fst (snd (PixDB.drop this Granted eng)) in
    snd (snd (PixDB.drop this Granted eng)) = Fulfilled true
    /\ forall (reply : Reply) (eng2 : Engine),
         snd (PixDB.connect dropped reply eng2) = (dropped, Fulfilled false)
         /\ databases (fst (PixDB.connect dropped reply eng2)) = databases eng2
         /\ PixDB.drop dropped reply eng2 = (eng2, (dropped, Rejected TypeError)).
Proof.
  intros this eng Hc. unfold PixDB.isConnected in Hc.
  destruct (PixDB.db this) as [conn|] eqn:Hdb; [|discriminate].
  unfold PixDB.drop at 1 2. unfold PixDB.close. rewrite Hdb.
  unfold bind, IDB.close, record_call, deleteDatabase. cbn.
  split; [reflexivity|]. intros reply eng2.
  unfold PixDB.connect. rewrite dbConnect_cases. cbn.
  destruct (supported eng2); cbn; repeat split.
Qed.

(** The property for the sample object. *)
Lemma dropped_object_stays_dropped_witness :
  PixDB.isConnected Sample.connected = true
  /\ snd (snd (PixDB.drop Sample.connected Granted Sample.engine)) = Fulfilled true
  /\ forall (reply : Reply) (eng2 : Engine),
       let dropped := fst (snd (PixDB.drop Sample.connected Granted Sample.engine)) in
       snd (PixDB.connect dropped reply eng2) = (dropped, Fulfilled false)
       /\ databases (fst (PixDB.connect dropped reply eng2)) = databases eng2
       /\ PixDB.drop dropped reply eng2 = (eng2, (dropped, Rejected TypeError)).
Proof.
  assert (PixDB.isConnected Sample.connected = true) as H1 by reflexivity.
  exact (conj H1 (dropped_object_stays_dropped Sample.connected Sample.engine H1)).
Defined.

Section Failures.

Variables (this : PixDB.t) (eng : Engine) (s : string).

(** When [#query] throws, with the engine as it was, every data operation
    rejects with what it threw, the engine still as it was. *)
Lemma query_throws_rejects (e : Reason) :
  (forall index write, PixDB.query this s index write eng = (eng, Throw e)) ->
  (forall item, PixDB.add this s item eng = (eng, Rejected e))
  /\ (forall item, PixDB.put this s item eng = (eng, Rejected e))
  /\ (forall index key, PixDB.get this s index key eng = (eng, Rejected e))
  /\ (forall key, PixDB.delete this s key eng = (eng, Rejected e))
  /\ PixDB.clear this s eng = (eng, Rejected e)
  /\ (forall index lowerBound upperBound range,
        PixDB.bound lowerBound upperBound = Ok range ->
        PixDB.count this s index lowerBound upperBound eng = Ok (eng, Rejected e)
        /\ (forall limit,
              PixDB.getAll this s index lowerBound upperBound limit eng
              = Ok (eng, Rejected e)
              /\ PixDB.getAllKeys this s index lowerBound upperBound limit eng
                 = Ok (eng, Rejected e))
        /\ PixDB.deleteAll this s index lowerBound upperBound eng = Ok (eng, Rejected e))
  /\ (forall index lowerBound upperBound direction callback fault,
        PixDB.getCursor this s index lowerBound upperBound direction callback fault eng
        = (eng, {| PixDB.promise := Rejected e; PixDB.visited := [] |})).
Proof.
  intros Hq.
  assert (forall index method args,
            PixDB.exec this s index method args eng = (eng, Rejected e)) as Hexec.
  { intros. unfold PixDB.exec, PixDB.new_Promise, bind. rewrite Hq. reflexivity. }
  assert (forall record overwrite,
            PixDB.update this s record overwrite eng = (eng, Rejected e)) as Hupd.
  { intros. unfold PixDB.update, PixDB.new_Promise, bind. rewrite Hq. reflexivity. }
  repeat split; intros;
    unfold PixDB.add, PixDB.put, PixDB.get, PixDB.delete, PixDB.clear, PixDB.count,
      PixDB.getAll, PixDB.getAllKeys, PixDB.deleteAll, PixDB.with_bound;
    rewrite ?Hexec, ?Hupd; try reflexivity;
    try (match goal with H : PixDB.bound _ _ = Ok _ |- _ => rewrite H end;
         rewrite Hexec; reflexivity).
  unfold PixDB.getCursor, bind. rewrite Hq. reflexivity.
Qed.

End Failures.

(** X6. On an object that is not connected every data operation rejects
    with a [TypeError] (the [null] handle is dereferenced inside the
    promise), and the engine receives nothing: [add], [put], [get],
    [delete], [clear], [getCursor], and, for bounds the range helper
    accepts, [count], [getAll], [getAllKeys] and [deleteAll]. *)
Theorem closed_object_rejects :
  forall (this : PixDB.t) (eng : Engine) (s : string),
    PixDB.isConnected this = false ->
    (forall item, PixDB.add this s item eng = (eng, Rejected TypeError))
    /\ (forall item, PixDB.put this s item eng = (eng, Rejected TypeError))
    /\ (forall index key, PixDB.get this s index key eng = (eng, Rejected TypeError))
    /\ (forall key, PixDB.delete this s key eng = (eng, Rejected TypeError))
    /\ PixDB.clear this s eng = (eng, Rejected TypeError)
    /\ (forall index lowerBound upperBound range,
          PixDB.bound lowerBound upperBound = Ok range ->
          PixDB.count this s index lowerBound upperBound eng = Ok (eng, Rejected TypeError)
          /\ (forall limit,
                PixDB.getAll this s index lowerBound upperBound limit eng
                = Ok (eng, Rejected TypeError)
                /\ PixDB.getAllKeys this s index lowerBound upperBound limit eng
                   = Ok (eng, Rejected TypeError))
          /\ PixDB.deleteAll this s index lowerBound upperBound eng
             = Ok (eng, Rejected TypeError))
    /\ (forall index lowerBound upperBound direction callback fault,
          PixDB.getCursor this s index lowerBound upperBound direction callback fault eng
          = (eng, {| PixDB.promise := Rejected TypeError; PixDB.visited := [] |})).
Proof.
  intros this eng s Hc. apply query_throws_rejects.
  intros index write. unfold PixDB.query. unfold PixDB.isConnected in Hc.
  destruct (PixDB.db this); [discriminate|reflexivity].
Qed.

(** The property for the closed sample object. *)
Lemma closed_object_rejects_witness :
  PixDB.isConnected Sample.closed = false
  /\ PixDB.add Sample.closed "state" (Some (PixDB.One Sample.d)) Sample.engine
     = (Sample.engine, Rejected TypeError)
  /\ PixDB.get Sample.closed "state" None (KStr "a") Sample.engine
     = (Sample.engine, Rejected TypeError).
Proof.
  assert (PixDB.isConnected Sample.closed = false) as H1 by reflexivity.
  destruct (closed_object_rejects Sample.closed Sample.engine "state" H1)
    as (Hadd & _ & Hget & _).
  exact (conj H1 (conj (Hadd _) (Hget _ _))).
Defined.

(** X7. On a connected object, for a name that is not a store of the
    database, every data operation rejects with the engine's
    [NotFoundError], thrown when the transaction is asked for, and the
    engine receives nothing more. *)
Theorem missing_store_rejects :
  forall (this : PixDB.t) (conn : IDBDatabase) (eng : Engine) (d : Database) (s : string),
    PixDB.db this = Some conn ->
    databases eng !! conn_name conn = Some d ->
    db_stores d !! s = None ->
    let e := raise NotFoundError "One of the specified object stores was not found." in
    (forall item, PixDB.add this s item eng = (eng, Rejected e))
    /\ (forall item, PixDB.put this s item eng = (eng, Rejected e))
    /\ (forall index key, PixDB.get this s index key eng = (eng, Rejected e))
    /\ (forall key, PixDB.delete this s key eng = (eng, Rejected e))
    /\ PixDB.clear this s eng = (eng, Rejected e)
    /\ (forall index lowerBound upperBound range,
          PixDB.bound lowerBound upperBound = Ok range ->
          PixDB.count this s index lowerBound upperBound eng = Ok (eng, Rejected e)
          /\ (forall limit,
                PixDB.getAll this s index lowerBound upperBound limit eng
                = Ok (eng, Rejected e)
                /\ PixDB.getAllKeys this s index lowerBound upperBound limit eng
                   = Ok (eng, Rejected e))
          /\ PixDB.deleteAll this s index lowerBound upperBound eng = Ok (eng, Rejected e))
    /\ (forall index lowerBound upperBound direction callback fault,
          PixDB.getCursor this s index lowerBound upperBound direction callback fault eng
          = (eng, {| PixDB.promise := Rejected e; PixDB.visited := [] |})).
Proof.
  intros this conn eng d s Hconn Hd Hs e. apply query_throws_rejects.
  intros index write. unfold PixDB.query. rewrite Hconn.
  unfold bind, IDB.transaction. rewrite Hd, Hs. reflexivity.
Qed.

(** The property for the sample object and a store it does not have. *)
Lemma missing_store_rejects_witness :
  PixDB.db Sample.connected = Some {| conn_name := "test" |}
  /\ databases Sample.engine !! "test" = Some Sample.database
  /\ db_stores Sample.database !! "other" = None
  /\ PixDB.clear Sample.connected "other" Sample.engine
     = (Sample.engine,
        Rejected (raise NotFoundError "One of the specified object stores was not found.")).
Proof.
  assert (databases Sample.engine !! "test" = Some Sample.database) as H2
      by (vm_compute; reflexivity).
  assert (db_stores Sample.database !! "other" = None) as H3 by (vm_compute; reflexivity).
  destruct (missing_store_rejects Sample.connected {| conn_name := "test" |} Sample.engine
              Sample.database "other" eq_refl H2 H3) as (_ & _ & _ & _ & Hclear & _).
  exact (conj eq_refl (conj H2 (conj H3 Hclear))).
Defined.

Section Untouched.

Lemma query_databases this s index write eng :
  databases (fst (PixDB.query this s index write eng)) = databases eng.
Proof.
  unfold PixDB.query. destruct (PixDB.db this) as [conn|]; [|reflexivity].
  unfold bind, IDB.transaction, record_call, objectStore, IDB.index, find_store.
  destruct (databases eng !! conn_name conn) as [d|] eqn:Hd; [|reflexivity].
  destruct (db_stores d !! s) as [st|] eqn:Hs; [|reflexivity].
  cbn. rewrite String.eqb_refl. cbn.
  destruct (truthy_string index && negb write); [|reflexivity].
  cbn. rewrite Hd, Hs.
  destruct (st_indexes st !! default "" index); reflexivity.
Qed.

(** A method that reads leaves the databases as they are. *)
Lemma invoke_read_databases src method args eng :
  String.eqb method "delete" || String.eqb method "clear" = false ->
  databases (fst (invoke src method args eng)) = databases eng.
Proof.
  intros Hm. apply orb_false_iff in Hm as [E1 E2].
  unfold invoke, bind, record_call, get_store, lift, writable, put_store, throw, ret.
  cbn. rewrite E1, E2.
  repeat (match goal with
          | |- context [match find_store ?e ?d ?s with _ => _ end] =>
              destruct (find_store e d s)
          | |- context [if ?b then _ else _] => destruct b
          | |- context [match arg_query ?a ?r with _ => _ end] =>
              destruct (arg_query a r)
          | |- context [match arg_count ?a with _ => _ end] =>
              destruct (arg_count a)
          end; cbn); reflexivity.
Qed.

Lemma exec_read_databases this s index method args eng :
  String.eqb method "delete" || String.eqb method "clear" = false ->
  databases (fst (PixDB.exec this s index method args eng)) = databases eng.
Proof.
  intros Hm. unfold PixDB.exec, PixDB.new_Promise. rewrite Hm. unfold bind at 1.
  pose proof (query_databases this s index false eng) as Hq.
  destruct (PixDB.query this s index false eng) as [eng1 [q|e]]; [|exact Hq].
  unfold bind.
  pose proof (invoke_read_databases (PixDB.store q) method (as_array args) eng1 Hm) as Hi.
  destruct (invoke _ method _ eng1) as [eng2 [r|e]]; cbn in *; congruence.
Qed.

(** A traversal only asks the engine to advance, and leaves the databases
    as they are. *)
Lemma traverse_advances callback rest : forall skip fault seen eng,
  databases (fst (PixDB.traverse callback rest skip fault seen eng)) = databases eng
  /\ exists cs,
       log (fst (PixDB.traverse callback rest skip fault seen eng)) = log eng ++ cs
       /\ Forall is_advance cs.
Proof.
  induction rest as [|cursor rest IH]; intros skip fault seen eng; cbn [PixDB.traverse].
  - split; [destruct (PixDB.due fault); reflexivity|].
    exists []. rewrite app_nil_r. split; [destruct (PixDB.due fault); reflexivity|].
    constructor.
  - destruct skip as [|k]; [|apply IH].
    destruct (PixDB.due fault); cbn [PixDB.cursor_onsuccess].
    + split; [reflexivity|]. exists []. rewrite app_nil_r. split; [reflexivity|constructor].
    + unfold advance, bind, record_call. cbn.
      destruct ((PixDB.advance_count callback cursor <=? 0)
                || (max_unsigned_long <? PixDB.advance_count callback cursor)); cbn.
      * split; [reflexivity|].
        exists [CallAdvance (PixDB.advance_count callback cursor)].
        split; [reflexivity|]. repeat constructor. eexists; reflexivity.
      * match goal with
        | |- context [PixDB.traverse _ _ ?k' ?f' ?s' ?e'] =>
            destruct (IH k' f' s' e') as (Hdb & cs & Hlog & Hadv)
        end.
        split; [exact Hdb|].
        exists (CallAdvance (PixDB.advance_count callback cursor) :: cs).
        rewrite Hlog. cbn. rewrite <- app_assoc. split; [reflexivity|].
        constructor; [eexists; reflexivity|exact Hadv].
Qed.

Lemma getCursor_databases this s index lowerBound upperBound direction callback fault eng :
  databases (fst (PixDB.getCursor this s index lowerBound upperBound
                                  direction callback fault eng))
  = databases eng.
Proof.
  unfold PixDB.getCursor. unfold bind at 1.
  pose proof (query_databases this s index false eng) as Hq.
  destruct (PixDB.query this s index false eng) as [eng1 [q|e]]; [|exact Hq].
  unfold bind at 1, lift.
  destruct (PixDB.bound lowerBound upperBound) as [range|e]; [|exact Hq].
  unfold openCursor, bind, record_call, get_store, lift, throw, ret. cbn.
  destruct (find_store _ _ _) as [st|]; [|exact Hq]. cbn.
  destruct (in_direction _ _) as [es|e]; cbn; [|exact Hq].
  match goal with
  | |- context [PixDB.traverse ?c ?r ?k ?f ?sn ?e] =>
      destruct (traverse_advances c r k f sn e) as [Hdb _]
  end.
  rewrite Hdb. exact Hq.
Qed.

End Untouched.

(** X8. Reading writes nothing: whatever the object, the engine and the
    arguments, and however the call ends, [count], [get], [getAll],
    [getAllKeys] and [getCursor] leave every database as it was. *)
Theorem reads_change_nothing :
  forall (this : PixDB.t) (eng : Engine) (s : string) (index : option string)
         (lowerBound upperBound : option Key) (key : Key) (limit : option Z)
         (direction : option string) (callback : option PixDB.Callback)
         (fault : PixDB.Fault),
    databases (after (PixDB.count this s index lowerBound upperBound eng) eng)
    = databases eng
    /\ databases (fst (PixDB.get this s index key eng)) = databases eng
    /\ databases (after (PixDB.getAll this s index lowerBound upperBound limit eng) eng)
       = databases eng
    /\ databases (after (PixDB.getAllKeys this s index lowerBound upperBound limit eng) eng)
       = databases eng
    /\ databases (fst (PixDB.getCursor this s index lowerBound upperBound
                                       direction callback fault eng))
       = databases eng.
Proof.
  intros this eng s index lowerBound upperBound key limit direction callback fault.
  assert (forall method args,
            String.eqb method "delete" || String.eqb method "clear" = false ->
            databases (after (PixDB.with_bound lowerBound upperBound
                                (fun range => PixDB.exec this s index method (args range))
                                eng) eng)
            = databases eng) as Hb.
  { intros method args Hm. unfold PixDB.with_bound, after.
    destruct (PixDB.bound lowerBound upperBound) as [range|e]; [|reflexivity].
    pose proof (exec_read_databases this s index method (args range) eng Hm) as He.
    destruct (PixDB.exec this s index method (args range) eng). exact He. }
  repeat split.
  - apply (Hb "count" (fun range => PixDB.of_range range)). reflexivity.
  - apply exec_read_databases. reflexivity.
  - apply (Hb "getAll" (fun range => AList [PixDB.of_range range; PixDB.of_number limit])).
    reflexivity.
  - apply (Hb "getAllKeys"
              (fun range => AList [PixDB.of_range range; PixDB.of_number limit])).
    reflexivity.
  - apply getCursor_databases.
Qed.

Section Transactions.

Lemma transactions_app l k : transactions (l ++ k) = transactions l ++ transactions k.
Proof. apply omap_app. Qed.

Lemma transactions_query_calls s index write :
  transactions (query_calls s index write)
  = [(s, if write then ReadWrite else ReadOnly, if write then Strict else Default)].
Proof. destruct index; reflexivity. Qed.

Lemma transactions_advances cs : Forall is_advance cs -> transactions cs = [].
Proof.
  induction 1 as [|c cs [n ->] _ IH]; [reflexivity|exact IH].
Qed.

Lemma transactions_writes (overwrite : bool) s recs :
  transactions (map (fun v => if overwrite then CallPut s v else CallAdd s v) recs) = [].
Proof.
  induction recs as [|v recs IH]; [reflexivity|].
  cbn [map]. change (?x :: ?l) with ([x] ++ l) at 1. rewrite transactions_app, IH.
  destruct overwrite; reflexivity.
Qed.

Variables (this : PixDB.t) (conn : IDBDatabase) (eng : Engine) (s : string) (st : Store).
Hypothesis Hconn : PixDB.db this = Some conn.
Hypothesis Hstore : find_store eng (conn_name conn) s = Some st.

(** The calls of [getCursor]: the transaction, the index if any, the
    cursor, and then requests to advance only. *)
Lemma getCursor_calls index lowerBound upperBound range direction callback fault :
  index_of st index ->
  PixDB.bound lowerBound upperBound = Ok range ->
  exists cs,
    issued eng (fst (PixDB.getCursor this s index lowerBound upperBound
                                     direction callback fault eng))
    = query_calls s index false
      ++ [CallOpenCursor (source_of conn s false index) range (default "next" direction)]
      ++ cs
    /\ Forall is_advance cs.
Proof.
  intros Hix Hb. unfold PixDB.getCursor.
  unfold bind at 1. rewrite (query_read this conn eng s st Hconn Hstore index Hix).
  unfold bind at 1, lift. rewrite Hb. cbn [PixDB.store].
  unfold openCursor, bind, record_call, get_store. cbn.
  pose proof Hstore as Hst. unfold find_store in Hst |- *. cbn.
  destruct (databases eng !! conn_name conn) as [d|]; [|discriminate].
  rewrite Hst. cbn.
  destruct (in_direction _ _) as [es|e]; cbn.
  - match goal with
    | |- context [PixDB.traverse ?c ?r ?k ?f ?sn ?e] =>
        destruct (traverse_advances c r k f sn e) as (_ & cs & Hlog & Hadv)
    end.
    exists cs. split; [|exact Hadv].
    unfold issued. rewrite Hlog. cbn. rewrite <- !app_assoc. apply drop_app_length.
  - exists []. split; [|constructor].
    unfold issued. cbn. rewrite <- !app_assoc. apply drop_app_length.
Qed.

End Transactions.

(** X9. On a connected object each data operation opens one transaction,
    on the store alone: read-only with the default durability for
    [count], [get], [getAll], [getAllKeys] and [getCursor] (so the cursor
    a callback is given cannot write), read-write with strict durability
    for [add], [put], [delete], [deleteAll] and [clear]. *)
Theorem one_transaction_per_call :
  forall (this : PixDB.t) (eng : Engine) (s : string) (st : Store)
         (index any_index : option string)
         (lowerBound upperBound : option Key) (range : option IDBKeyRange)
         (key : Key) (limit : option Z) (direction : option string)
         (callback : option PixDB.Callback) (fault : PixDB.Fault)
         (item : option PixDB.Item),
    store_at eng this s = Some st ->
    index_of st index ->
    PixDB.bound lowerBound upperBound = Ok range ->
    let reading := [(s, ReadOnly, Default)] in
    let writing := [(s, ReadWrite, Strict)] in
    transactions (issued eng (after (PixDB.count this s index lowerBound upperBound eng) eng))
    = reading
    /\ transactions (issued eng (fst (PixDB.get this s index key eng))) = reading
    /\ transactions (issued eng (after (PixDB.getAll this s index lowerBound upperBound
                                                     limit eng) eng))
       = reading
    /\ transactions (issued eng (after (PixDB.getAllKeys this s index lowerBound upperBound
                                                         limit eng) eng))
       = reading
    /\ transactions (issued eng (fst (PixDB.getCursor this s index lowerBound upperBound
                                                      direction callback fault eng)))
       = reading
    /\ transactions (issued eng (fst (PixDB.add this s item eng))) = writing
    /\ transactions (issued eng (fst (PixDB.put this s item eng))) = writing
    /\ transactions (issued eng (fst (PixDB.delete this s key eng))) = writing
    /\ transactions (issued eng (after (PixDB.deleteAll this s any_index
                                                        lowerBound upperBound eng) eng))
       = writing
    /\ transactions (issued eng (fst (PixDB.clear this s eng))) = writing.
Proof.
  intros this eng s st index any_index lb ub range key limit direction callback fault item
         Hat Hix Hb.
  unfold store_at in Hat.
  destruct (PixDB.db this) as [conn|] eqn:Hconn; [|discriminate].
  assert (forall (m : PixDB.Async Value) cs,
            issued eng (fst (m eng)) = cs ->
            issued eng (after (Ok (m eng)) eng) = cs) as Hafter.
  { intros m cs H. unfold after. destruct (m eng). exact H. }
  unfold PixDB.count, PixDB.get, PixDB.getAll, PixDB.getAllKeys, PixDB.add, PixDB.put,
    PixDB.delete, PixDB.deleteAll, PixDB.clear, PixDB.with_bound.
  rewrite Hb. cbn zeta.
  repeat split.
  - erewrite Hafter
      by (apply (exec_read_issued this conn eng s st Hconn Hat index "count" _ eq_refl Hix)).
    rewrite transactions_app, transactions_query_calls. reflexivity.
  - rewrite (exec_read_issued this conn eng s st Hconn Hat index "get" _ eq_refl Hix).
    rewrite transactions_app, transactions_query_calls. reflexivity.
  - erewrite Hafter
      by (apply (exec_read_issued this conn eng s st Hconn Hat index "getAll" _ eq_refl Hix)).
    rewrite transactions_app, transactions_query_calls. reflexivity.
  - erewrite Hafter
      by (apply (exec_read_issued this conn eng s st Hconn Hat index "getAllKeys" _
                   eq_refl Hix)).
    rewrite transactions_app, transactions_query_calls. reflexivity.
  - destruct (getCursor_calls this conn eng s st Hconn Hat index lb ub range
                direction callback fault Hix Hb) as (cs & Hiss & Hadv).
    rewrite Hiss, !transactions_app, transactions_query_calls,
      (transactions_advances cs Hadv). reflexivity.
  - rewrite (update_issued this conn eng s st Hconn Hat).
    rewrite !transactions_app, transactions_query_calls, (transactions_writes false).
    reflexivity.
  - rewrite (update_issued this conn eng s st Hconn Hat).
    rewrite !transactions_app, transactions_query_calls, (transactions_writes true).
    reflexivity.
  - rewrite (exec_write_issued this conn eng s st Hconn Hat None "delete" _ eq_refl).
    rewrite transactions_app, transactions_query_calls. reflexivity.
  - erewrite Hafter
      by (apply (exec_write_issued this conn eng s st Hconn Hat any_index "delete" _
                   eq_refl)).
    rewrite transactions_app, transactions_query_calls. reflexivity.
  - rewrite (exec_write_issued this conn eng s st Hconn Hat None "clear" _ eq_refl).
    rewrite transactions_app, transactions_query_calls. reflexivity.
Qed.

(** The property for the sample store and its index [expireIdx]. *)
Lemma one_transaction_per_call_witness :
  store_at Sample.engine Sample.connected "state" = Some Sample.state
  /\ index_of Sample.state (Some "expireIdx")
  /\ PixDB.bound None None = Ok None
  /\ transactions (issued Sample.engine
                     (fst (PixDB.getCursor Sample.connected "state" (Some "expireIdx")
                             None None None None None Sample.engine)))
     = [("state", ReadOnly, Default)]
  /\ transactions (issued Sample.engine
                     (fst (PixDB.add Sample.connected "state"
                             (Some (PixDB.One Sample.d)) Sample.engine)))
     = [("state", ReadWrite, Strict)].
Proof.
  assert (store_at Sample.engine Sample.connected "state" = Some Sample.state) as H1
      by (vm_compute; reflexivity).
  assert (index_of Sample.state (Some "expireIdx")) as H2.
  { split; [discriminate|]. exists {| ix_keyPath := "expire"; ix_unique := false |}.
    vm_compute. reflexivity. }
  assert (PixDB.bound None None = Ok None) as H3 by reflexivity.
  destruct (one_transaction_per_call Sample.connected Sample.engine "state" Sample.state
              (Some "expireIdx") None None None None (KStr "a") None None None None
              (Some (PixDB.One Sample.d)) H1 H2 H3)
    as (_ & _ & _ & _ & Hcursor & Hadd & _).
  exact (conj H1 (conj H2 (conj H3 (conj Hcursor Hadd)))).
Defined.

Section WriteOutcomes.


Lemma no_unique_clash st v : no_unique st -> unique_clash st v = false.
Proof.
  intros Hno. unfold unique_clash.
  apply not_true_is_false. intros H. apply existsb_exists in H as (d & Hd & Hc).
  apply list_elem_of_In, list_elem_of_fmap in Hd as ([i d'] & -> & Hin).
  apply elem_of_map_to_list in Hin. cbn in Hc.
  rewrite (Hno i d' Hin) in Hc. discriminate.
Qed.

Lemma has_key_snoc k recs v :
  has_key k (recs ++ [v]) = has_key k recs || bool_decide (rkey v = k).
Proof. unfold has_key. rewrite existsb_app. cbn. rewrite orb_false_r. reflexivity. Qed.

Lemma has_key_false k recs :
  has_key k recs = false <-> forall r, r ∈ recs -> rkey r <> k.
Proof.
  unfold has_key. split.
  - intros H r Hr Hk. apply not_true_iff_false in H. apply H.
    apply existsb_exists. exists r. split; [apply list_elem_of_In, Hr|].
    apply bool_decide_eq_true. exact Hk.
  - intros H. apply not_true_iff_false. intros Hex.
    apply existsb_exists in Hex as (r & Hr & Hk).
    apply bool_decide_eq_true in Hk. apply (H r); [apply list_elem_of_In, Hr|exact Hk].
Qed.

(** A queue of inserts that runs to its end has appended the batch. *)
Lemma run_queue_adds recs : forall st st' evs,
  run_queue st (map WAdd recs) = (Some st', evs) ->
  st' = with_records st (st_records st ++ recs).
Proof.
  induction recs as [|v recs IH]; intros st st' evs H; cbn in H.
  - injection H as <- _. rewrite app_nil_r. destruct st; reflexivity.
  - destruct (has_key (rkey v) (st_records st)); [discriminate|].
    destruct (unique_clash st v); [discriminate|].
    destruct (run_queue _ (map WAdd recs)) as [[st''|] evs'] eqn:Hrun; [|discriminate].
    injection H as <- _. rewrite (IH _ _ _ Hrun). cbn.
    rewrite <- app_assoc. reflexivity.
Qed.

(** Without unique indexes, a queue of inserts runs to its end exactly
    when the keys of the batch are new to the store and differ from one
    another. *)
Lemma run_queue_adds_iff recs : forall st,
  no_unique st ->
  (exists st' evs, run_queue st (map WAdd recs) = (Some st', evs))
  <-> NoDup (map rkey recs)
      /\ forall r, r ∈ recs -> has_key (rkey r) (st_records st) = false.
Proof.
  induction recs as [|v recs IH]; intros st Hno; cbn [map run_queue].
  - split; [intros _; split; [constructor|intros r Hr; inversion Hr]|].
    intros _. eexists _, _. reflexivity.
  - cbn [apply_write]. rewrite (no_unique_clash st v Hno).
    destruct (has_key (rkey v) (st_records st)) eqn:Hv.
    + split; [intros (? & ? & ?); discriminate|].
      intros [_ H]. rewrite (H v) in Hv by apply list_elem_of_here. discriminate.
    + specialize (IH (with_records st (st_records st ++ [v])) Hno).
      unfold with_records in IH |- *. cbn [st_records] in IH.
      rewrite NoDup_cons, list_elem_of_fmap. split.
      * intros (st' & evs & H).
        destruct (run_queue _ (map WAdd recs)) as [[st''|] evs'] eqn:Hrun; [|discriminate].
        destruct IH as [IH _]. destruct IH as [Hnd Hnew]; [eexists _, _; reflexivity|].
        split; [split; [|exact Hnd]|].
        -- intros (r & Hk & Hr). specialize (Hnew r Hr).
           rewrite has_key_snoc in Hnew. apply orb_false_iff in Hnew as [_ Hnew].
           apply bool_decide_eq_false in Hnew. congruence.
        -- intros r Hr. apply elem_of_cons in Hr as [->|Hr]; [exact Hv|].
           specialize (Hnew r Hr). rewrite has_key_snoc in Hnew.
           apply orb_false_iff in Hnew as [Hnew _]. exact Hnew.
      * intros [[Hnotin Hnd] Hnew].
        destruct IH as [_ IH]. destruct IH as (st' & evs & Hrun).
        { split; [exact Hnd|]. intros r Hr. rewrite has_key_snoc.
          apply orb_false_iff. split; [apply Hnew, list_elem_of_further, Hr|].
          apply bool_decide_eq_false. intros Hk. apply Hnotin. exists r. split; congruence. }
        rewrite Hrun. eexists _, _. reflexivity.
Qed.

End WriteOutcomes.



(** X11. On a connected object whose store has no unique index, [add]
    resolves exactly when the keys of the batch are new to the store and
    differ from one another; and whenever [add] resolves, the store holds
    its old records followed by the batch, in order, and its indexes are
    as before. *)
Theorem add_resolves_iff_keys_new :
  forall (this : PixDB.t) (eng : Engine) (s : string) (st : Store)
         (item : option PixDB.Item),
    store_at eng this s = Some st ->
    no_unique st ->
    let result := PixDB.add this s item eng in
    (snd result = Fulfilled VUndefined <->
     NoDup (map rkey (items_of item))
     /\ forall r, r ∈ items_of item -> has_key (rkey r) (st_records st) = false)
    /\ (snd result = Fulfilled VUndefined ->
        store_at (fst result) this s
        = Some (with_records st (st_records st ++ items_of item))).
Proof.
  intros this eng s st item Hat Hno. cbn zeta.
  pose proof Hat as Hat'. unfold store_at in Hat.
  destruct (PixDB.db this) as [conn|] eqn:Hconn; [|discriminate].
  assert (items_of item = match default (PixDB.Many []) item with
                          | PixDB.Many l => l
                          | PixDB.One r => [r]
                          end) as Hitems
      by (destruct item as [[?|?]|]; reflexivity).
  unfold PixDB.add. rewrite (update_result this conn eng s st Hconn Hat). cbn zeta.
  rewrite <- Hitems. change (fun v : Rec => WAdd v) with WAdd.
  pose proof (run_queue_adds_iff (items_of item) st Hno) as Hiff.
  destruct (run_queue st (map WAdd (items_of item))) as [[st'|] evs] eqn:Hrun; cbn.
  - split.
    + split; [intros _; apply Hiff; eexists _, _; reflexivity|reflexivity].
    + intros _. unfold store_at. rewrite Hconn.
      rewrite (find_store_set_store _ _ _ st) by exact Hat.
      rewrite (run_queue_adds _ _ _ _ Hrun). reflexivity.
  - split; [|discriminate].
    split; [discriminate|]. intros H. apply Hiff in H as (? & ? & ?). discriminate.
Qed.

(** The property for the sample store: a record with a new key. *)
Lemma add_resolves_iff_keys_new_witness :
  store_at Sample.engine Sample.connected "state" = Some Sample.state
  /\ no_unique Sample.state
  /\ snd (PixDB.add Sample.connected "state" (Some (PixDB.One Sample.d)) Sample.engine)
     = Fulfilled VUndefined
  /\ store_at (fst (PixDB.add Sample.connected "state" (Some (PixDB.One Sample.d))
                      Sample.engine)) Sample.connected "state"
     = Some (with_records Sample.state [Sample.b; Sample.a; Sample.c; Sample.d]).
Proof.
  assert (store_at Sample.engine Sample.connected "state" = Some Sample.state) as H1
      by (vm_compute; reflexivity).
  assert (no_unique Sample.state) as H2.
  { intros i d Hd. cbn in Hd. unfold Sample.indexes in Hd.
    destruct (decide (i = "updateIdx")) as [->|N1];
      [rewrite lookup_insert_eq in Hd; injection Hd as <-; reflexivity|].
    rewrite lookup_insert_ne in Hd by congruence.
    destruct (decide (i = "expireIdx")) as [->|N2];
      [rewrite lookup_insert_eq in Hd; injection Hd as <-; reflexivity|].
    rewrite lookup_insert_ne in Hd by congruence.
    destruct (decide (i = "")) as [->|N3];
      [rewrite lookup_singleton_eq in Hd; injection Hd as <-; reflexivity|].
    rewrite lookup_singleton_ne in Hd by congruence. discriminate. }
  destruct (add_resolves_iff_keys_new Sample.connected Sample.engine "state" Sample.state
              (Some (PixDB.One Sample.d)) H1 H2) as [Hiff Hafter].
  assert (snd (PixDB.add Sample.connected "state" (Some (PixDB.One Sample.d)) Sample.engine)
          = Fulfilled VUndefined) as H3 by (vm_compute; reflexivity).
  exact (conj H1 (conj H2 (conj H3 (Hafter H3)))).
Defined.

Section Overwriting.

Lemma has_key_true k recs :
  has_key k recs = true <-> exists r, r ∈ recs /\ rkey r = k.
Proof.
  unfold has_key. rewrite existsb_exists. split; intros (r & Hr & Hk); exists r.
  - split; [apply list_elem_of_In, Hr|]. apply bool_decide_eq_true in Hk. exact Hk.
  - split; [apply list_elem_of_In, Hr|]. apply bool_decide_eq_true. exact Hk.
Qed.

(** What putting one record leaves: that record, and the others whose key
    is not its key. *)
Lemma store_put_elem v l x :
  x ∈ store_put v l <-> x = v \/ (x ∈ l /\ rkey x <> rkey v).
Proof.
  unfold store_put. destruct (has_key (rkey v) l) eqn:Hk.
  - rewrite list_elem_of_fmap. split.
    + intros (y & -> & Hy). destruct (bool_decide (rkey y = rkey v)) eqn:E.
      * left. reflexivity.
      * right. apply bool_decide_eq_false in E. split; assumption.
    + intros [->|[Hx Hne]].
      * apply has_key_true in Hk as (y & Hy & Hky). exists y.
        rewrite bool_decide_eq_true_2 by exact Hky. split; [reflexivity|exact Hy].
      * exists x. rewrite bool_decide_eq_false_2 by exact Hne.
        split; [reflexivity|exact Hx].
  - rewrite elem_of_app, list_elem_of_singleton.
    pose proof (proj1 (has_key_false _ _) Hk) as Hno. split.
    + intros [Hx| ->]; [right; split; [exact Hx|apply Hno, Hx]|left; reflexivity].
    + intros [->|[Hx _]]; [right; reflexivity|left; exact Hx].
Qed.

Lemma put_all_snoc recs v old :
  put_all (recs ++ [v]) old = store_put v (put_all recs old).
Proof. unfold put_all. rewrite foldl_app. reflexivity. Qed.

(** What putting a batch leaves. *)
Lemma put_all_elem recs : forall old,
  (forall x, x ∈ put_all recs old -> x ∈ old \/ x ∈ recs)
  /\ (forall x, x ∈ old -> rkey x ∉ map rkey recs -> x ∈ put_all recs old)
  /\ (forall k, has_key k (put_all recs old) = true <->
                has_key k old = true \/ k ∈ map rkey recs).
Proof.
  induction recs as [|v recs IH] using rev_ind; intros old.
  - cbn. repeat split; try tauto.
    + intros [H|H]; [exact H|inversion H].
  - rewrite put_all_snoc. destruct (IH old) as (Ha & Hb & Hc).
    split; [|split].
    + intros x Hx. apply store_put_elem in Hx as [->|[Hx _]].
      * right. apply elem_of_app. right. apply list_elem_of_here.
      * destruct (Ha x Hx) as [H|H]; [left; exact H|].
        right. apply elem_of_app. left. exact H.
    + intros x Hx Hnot. rewrite map_app in Hnot. apply store_put_elem. right. split.
      * apply Hb; [exact Hx|]. intros Hin. apply Hnot, elem_of_app. left. exact Hin.
      * intros Hk. apply Hnot, elem_of_app. right. cbn. rewrite Hk. apply list_elem_of_here.
    + intros k. rewrite has_key_true. rewrite map_app, elem_of_app. cbn.
      rewrite list_elem_of_singleton. split.
      * intros (x & Hx & Hk). apply store_put_elem in Hx as [->|[Hx Hne]].
        -- right. right. symmetry. exact Hk.
        -- destruct (proj1 (Hc k)) as [H|H];
             [apply has_key_true; exists x; split; assumption|left; exact H|].
           right. left. exact H.
      * intros H. destruct (decide (k = rkey v)) as [->|Hne].
        -- exists v. split; [apply store_put_elem; left; reflexivity|reflexivity].
        -- assert (has_key k (put_all recs old) = true) as Hk
               by (apply Hc; destruct H as [H|[H|H]]; [left; exact H|right; exact H|congruence]).
           apply has_key_true in Hk as (x & Hx & Hkx). exists x. split; [|exact Hkx].
           apply store_put_elem. right. split; [exact Hx|congruence].
Qed.

(** Without unique indexes a queue of puts always runs to its end. *)
Lemma run_queue_puts recs : forall st,
  no_unique st ->
  exists evs,
    run_queue st (map WPut recs)
    = (Some (with_records st (put_all recs (st_records st))), evs).
Proof.
  induction recs as [|v recs IH]; intros st Hno; cbn [map run_queue].
  - eexists. destruct st; reflexivity.
  - cbn [apply_write]. rewrite (no_unique_clash st v Hno).
    destruct (IH (with_records st (store_put v (st_records st))) Hno) as [evs Hrun].
    rewrite Hrun. eexists. reflexivity.
Qed.

End Overwriting.

(** X12. On a connected object whose store has no unique index, [put]
    never fails on a duplicate key: it resolves for every batch, and the
    store then holds a record under a key exactly when it held one before
    or the batch has one; what it holds comes from the old store or from
    the batch, and an old record whose key is not in the batch stays. *)
Theorem put_always_resolves :
  forall (this : PixDB.t) (eng : Engine) (s : string) (st : Store)
         (item : option PixDB.Item),
    store_at eng this s = Some st ->
    no_unique st ->
    let result := PixDB.put this s item eng in
    let after := put_all (items_of item) (st_records st) in
    snd result = Fulfilled VUndefined
    /\ store_at (fst result) this s = Some (with_records st after)
    /\ (forall k, has_key k after = true <->
                  has_key k (st_records st) = true \/ k ∈ map rkey (items_of item))
    /\ (forall x, x ∈ after -> x ∈ st_records st \/ x ∈ items_of item)
    /\ (forall x, x ∈ st_records st -> rkey x ∉ map rkey (items_of item) -> x ∈ after).
Proof.
  intros this eng s st item Hat Hno. cbn zeta.
  unfold store_at in Hat |- *.
  destruct (PixDB.db this) as [conn|] eqn:Hconn; [|discriminate].
  assert (items_of item = match default (PixDB.Many []) item with
                          | PixDB.Many l => l
                          | PixDB.One r => [r]
                          end) as Hitems
      by (destruct item as [[?|?]|]; reflexivity).
  unfold PixDB.put. rewrite (update_result this conn eng s st Hconn Hat). cbn zeta.
  rewrite <- Hitems. change (fun v : Rec => WPut v) with WPut.
  destruct (run_queue_puts (items_of item) st Hno) as [evs ->]. cbn.
  destruct (put_all_elem (items_of item) (st_records st)) as (Ha & Hb & Hc).
  split; [reflexivity|]. split; [|split; [exact Hc|split; [exact Ha|exact Hb]]].
  apply (find_store_set_store _ _ _ st). exact Hat.
Qed.

Section SampleFacts.

Lemma sample_no_unique : no_unique Sample.state.
Proof.
  intros i d Hd. cbn in Hd. unfold Sample.indexes in Hd.
  destruct (decide (i = "updateIdx")) as [->|N1];
    [rewrite lookup_insert_eq in Hd; injection Hd as <-; reflexivity|].
  rewrite lookup_insert_ne in Hd by congruence.
  destruct (decide (i = "expireIdx")) as [->|N2];
    [rewrite lookup_insert_eq in Hd; injection Hd as <-; reflexivity|].
  rewrite lookup_insert_ne in Hd by congruence.
  destruct (decide (i = "")) as [->|N3];
    [rewrite lookup_singleton_eq in Hd; injection Hd as <-; reflexivity|].
  rewrite lookup_singleton_ne in Hd by congruence. discriminate.
Qed.

Lemma sample_store : store_at Sample.engine Sample.connected "state" = Some Sample.state.
Proof. vm_compute. reflexivity. Qed.

End SampleFacts.

(** The property for the sample store: the record of key ["a"] is put
    again, and one with a new key. *)
Lemma put_always_resolves_witness :
  store_at Sample.engine Sample.connected "state" = Some Sample.state
  /\ no_unique Sample.state
  /\ snd (PixDB.put Sample.connected "state" (Some (PixDB.Many [Sample.a; Sample.d]))
            Sample.engine) = Fulfilled VUndefined
  /\ store_at (fst (PixDB.put Sample.connected "state"
                      (Some (PixDB.Many [Sample.a; Sample.d])) Sample.engine))
              Sample.connected "state"
     = Some (with_records Sample.state [Sample.b; Sample.a; Sample.c; Sample.d]).
Proof.
  destruct (put_always_resolves Sample.connected Sample.engine "state" Sample.state
              (Some (PixDB.Many [Sample.a; Sample.d])) sample_store sample_no_unique)
    as (Hp & Hs & _).
  exact (conj sample_store (conj sample_no_unique (conj Hp Hs))).
Defined.

Section DataResults.

Variables (this : PixDB.t) (conn : IDBDatabase) (eng : Engine) (s : string) (st : Store).
Hypothesis Hconn : PixDB.db this = Some conn.
Hypothesis Hstore : find_store eng (conn_name conn) s = Some st.

Lemma find_store_source cs write index :
  find_store (logged eng cs) (src_db (source_of conn s write index))
             (src_store (source_of conn s write index)) = Some st.
Proof. exact Hstore. Qed.

(** [get] with a key that is not an array: the first entry of the source
    under that key, or nothing. *)
Lemma get_result index key :
  index_of st index ->
  scalar key ->
  PixDB.get this s index key eng
  = (logged eng (query_calls s index false
                 ++ [CallMethod (source_of conn s false index) "get" [AVal key]]),
     Fulfilled (match matching st index (Some (IDBKeyRange_only key)) with
                | e :: _ => VRecord (snd e)
                | [] => VUndefined
                end)).
Proof.
  intros Hix Hk. unfold PixDB.get.
  rewrite (exec_read this conn eng s st Hconn Hstore index "get" _ eq_refl Hix).
  assert (as_array (AVal key) = [AVal key]) as ->
      by (destruct key; [reflexivity..|contradiction]).
  rewrite (invoke_get _ _ st _ (find_store_source _ false index)).
  cbn -[matching]. unfold logged. cbn -[matching]. rewrite <- app_assoc. reflexivity.
Qed.

(** [count]: the number of entries of the source in the range. *)
Lemma count_result index lowerBound upperBound range :
  index_of st index ->
  PixDB.bound lowerBound upperBound = Ok range ->
  PixDB.count this s index lowerBound upperBound eng
  = Ok (logged eng (query_calls s index false
                    ++ [CallMethod (source_of conn s false index) "count"
                                   [PixDB.of_range range]]),
        Fulfilled (VNumber (Z.of_nat (length (matching st index range))))).
Proof.
  intros Hix Hb. unfold PixDB.count, PixDB.with_bound. rewrite Hb.
  rewrite (exec_read this conn eng s st Hconn Hstore index "count" _ eq_refl Hix).
  assert (as_array (PixDB.of_range range) = [PixDB.of_range range]) as ->
      by (destruct range; reflexivity).
  rewrite (invoke_count _ _ st _ (find_store_source _ false index)).
  assert (arg_query ([PixDB.of_range range] !! 0%nat) false = Ok range) as ->
      by (destruct range; reflexivity).
  cbn -[matching]. unfold logged. cbn -[matching]. rewrite <- app_assoc. reflexivity.
Qed.

(** [getAll] without a maximum: the records of the entries in the range,
    in the order of the source. *)
Lemma getAll_result index lowerBound upperBound range :
  index_of st index ->
  PixDB.bound lowerBound upperBound = Ok range ->
  PixDB.getAll this s index lowerBound upperBound None eng
  = Ok (logged eng (query_calls s index false
                    ++ [CallMethod (source_of conn s false index) "getAll"
                                   [PixDB.of_range range; AUndefined]]),
        Fulfilled (VRecords (map snd (matching st index range)))).
Proof.
  intros Hix Hb. unfold PixDB.getAll, PixDB.with_bound. rewrite Hb.
  rewrite (exec_read this conn eng s st Hconn Hstore index "getAll" _ eq_refl Hix).
  cbn [as_array PixDB.of_number].
  rewrite (invoke_getAll _ _ st _ (find_store_source _ false index)).
  assert (arg_query ([PixDB.of_range range; AUndefined] !! 0%nat) false = Ok range) as ->
      by (destruct range; reflexivity).
  cbn -[matching]. unfold logged. cbn -[matching]. rewrite <- app_assoc. reflexivity.
Qed.

(** A request to delete what a query holds, on the store: the records
    outside the query are left. *)
Lemma delete_query_result index (args : Arg) (q : option IDBKeyRange) :
  arg_query (as_array args !! 0%nat) true = Ok q ->
  PixDB.exec this s index "delete" args eng
  = (set_store (logged eng (query_calls s None true
                            ++ [CallMethod (source_of conn s true None) "delete"
                                           (as_array args)]))
               (conn_name conn) s (with_records st (without q (st_records st))),
     Fulfilled VUndefined).
Proof.
  intros Hq.
  rewrite (exec_write this conn eng s st Hconn Hstore index "delete" _ eq_refl).
  rewrite (invoke_delete _ _ st _ (find_store_source _ true None) eq_refl eq_refl).
  rewrite Hq. cbn. unfold logged. cbn. rewrite <- app_assoc. reflexivity.
Qed.

Lemma clear_result :
  PixDB.clear this s eng
  = (set_store (logged eng (query_calls s None true
                            ++ [CallMethod (source_of conn s true None) "clear"
                                           [AUndefined]]))
               (conn_name conn) s (with_records st []),
     Fulfilled VUndefined).
Proof.
  unfold PixDB.clear.
  rewrite (exec_write this conn eng s st Hconn Hstore None "clear" _ eq_refl).
  rewrite (invoke_clear _ _ st _ (find_store_source _ true None) eq_refl eq_refl).
  cbn. unfold logged. cbn. rewrite <- app_assoc. reflexivity.
Qed.

End DataResults.

Section Lookups.

Lemma includes_only_decide (k x : Key) :
  includes (IDBKeyRange_only k) x = bool_decide (x = k).
Proof.
  destruct (bool_decide (x = k)) eqn:E.
  - apply bool_decide_eq_true in E. apply includes_only. exact E.
  - apply bool_decide_eq_false in E. apply not_true_is_false.
    intros H. apply E, includes_only. exact H.
Qed.

Lemma without_only k recs : without (Some (IDBKeyRange_only k)) recs = other_keys k recs.
Proof.
  unfold without, other_keys. apply List.filter_ext. intros r. cbn.
  rewrite includes_only_decide. reflexivity.
Qed.

Lemma filter_all {A} (f : A -> bool) (l : list A) :
  (forall x, x ∈ l -> f x = true) -> List.filter f l = l.
Proof.
  induction l as [|x l IH]; intros H; [reflexivity|].
  cbn. rewrite (H x) by apply list_elem_of_here. f_equal.
  apply IH. intros y Hy. apply H. apply list_elem_of_further. exact Hy.
Qed.

Lemma filter_elem {A} (f : A -> bool) (l : list A) (x : A) :
  x ∈ List.filter f l <-> x ∈ l /\ f x = true.
Proof. rewrite !list_elem_of_In. apply List.filter_In. Qed.

Lemma other_keys_absent k recs : has_key k recs = false -> other_keys k recs = recs.
Proof.
  intros H. apply filter_all. intros x Hx.
  apply negb_true_iff, bool_decide_eq_false. apply (proj1 (has_key_false _ _) H x Hx).
Qed.

Lemma has_key_other_keys k recs : has_key k (other_keys k recs) = false.
Proof.
  apply has_key_false. intros r Hr. apply filter_elem in Hr as [_ Hr].
  apply negb_true_iff, bool_decide_eq_false in Hr. exact Hr.
Qed.

(** With no bounds every entry of a store matches. *)
Lemma matching_all_length st : length (matching st None None) = length (st_records st).
Proof.
  unfold matching. rewrite filter_all by reflexivity. apply entries_store_length.
Qed.

(** Under a key that only the record [r] has, the first match is [r]. *)
Lemma matching_only_store st k r :
  r ∈ st_records st ->
  rkey r = k ->
  (forall x, x ∈ st_records st -> rkey x = k -> x = r) ->
  exists rest, matching st None (Some (IDBKeyRange_only k)) = (k, r) :: rest.
Proof.
  intros Hr Hk Honly.
  assert (forall e, e ∈ matching st None (Some (IDBKeyRange_only k)) <-> e = (k, r)) as Hm.
  { intros e. unfold matching. rewrite filter_elem, entries_store_elem. cbn. split.
    - intros [(x & Hx & ->) Hinc]. cbn in Hinc. apply includes_only in Hinc.
      rewrite (Honly x Hx Hinc) in *. congruence.
    - intros ->. split; [exists r; split; [exact Hr|congruence]|].
      cbn. apply includes_only. reflexivity. }
  destruct (matching st None (Some (IDBKeyRange_only k))) as [|e rest].
  - exfalso. apply (elem_of_nil (k, r)). apply Hm. reflexivity.
  - exists rest. f_equal. apply Hm. apply list_elem_of_here.
Qed.

(** Under a key that no record has, nothing matches. *)
Lemma matching_absent st k :
  has_key k (st_records st) = false ->
  matching st None (Some (IDBKeyRange_only k)) = [].
Proof.
  intros H. unfold matching. apply filter_none. intros e He. cbn.
  apply entries_store_elem in He as (x & Hx & ->). cbn.
  rewrite includes_only_decide. apply bool_decide_eq_false.
  apply (proj1 (has_key_false _ _) H x Hx).
Qed.

Lemma store_put_length v l :
  length (store_put v l) = (length l + if has_key (rkey v) l then 0 else 1)%nat.
Proof.
  unfold store_put. destruct (has_key (rkey v) l).
  - rewrite length_map. lia.
  - rewrite length_app. reflexivity.
Qed.

Lemma find_store_set_store_ne eng db s s' st' :
  s' <> s -> find_store (set_store eng db s st') db s' = find_store eng db s'.
Proof.
  intros Hne. unfold find_store, set_store.
  destruct (databases eng !! db) as [d|] eqn:Hd; [|rewrite Hd; reflexivity].
  cbn. rewrite lookup_insert_eq. cbn. apply lookup_insert_ne. congruence.
Qed.

Lemma databases_set_store_ne eng db db' s st' :
  db' <> db -> databases (set_store eng db s st') !! db' = databases eng !! db'.
Proof.
  intros Hne. unfold set_store.
  destruct (databases eng !! db) as [d|]; [|reflexivity].
  cbn. apply lookup_insert_ne. congruence.
Qed.

End Lookups.

(** X13. What is written is what is read: on a connected object, a
    record written alone with [put], or with [add] when its key is new,
    with no clash on a unique index and a key that is not an array, is
    what [get] on its key then resolves with; the write resolves, and
    [count] then gives one more than the store had, or as many when [put]
    replaced a record. *)
Theorem write_then_get :
  forall (this : PixDB.t) (eng : Engine) (s : string) (st : Store) (r : Rec)
         (overwrite : bool),
    store_at eng this s = Some st ->
    unique_clash st r = false ->
    scalar (rkey r) ->
    (overwrite = false -> has_key (rkey r) (st_records st) = false) ->
    let written := if overwrite then PixDB.put this s (Some (PixDB.One r)) eng
                   else PixDB.add this s (Some (PixDB.One r)) eng in
    snd written = Fulfilled VUndefined
    /\ snd (PixDB.get this s None (rkey r) (fst written)) = Fulfilled (VRecord r)
    /\ match PixDB.count this s None None None (fst written) with
       | Ok (_, p) =>
           p = Fulfilled (VNumber (Z.of_nat (length (st_records st)
                                             + if has_key (rkey r) (st_records st)
                                               then 0 else 1)))
       | Throw _ => False
       end.
Proof.
  intros this eng s st r overwrite Hat Hclash Hscalar Hnew. cbn zeta.
  unfold store_at in Hat.
  destruct (PixDB.db this) as [conn|] eqn:Hconn; [|discriminate].
  set (st' := with_records st (store_put r (st_records st))).
  assert (exists cs,
            (if overwrite then PixDB.put this s (Some (PixDB.One r)) eng
             else PixDB.add this s (Some (PixDB.One r)) eng)
            = (set_store (logged eng cs) (conn_name conn) s st', Fulfilled VUndefined))
    as [cs ->].
  { destruct overwrite; unfold PixDB.put, PixDB.add;
      rewrite (update_result this conn eng s st Hconn Hat); cbn; rewrite Hclash.
    - eexists. reflexivity.
    - rewrite (Hnew eq_refl). cbn. eexists. subst st'. unfold store_put.
      rewrite (Hnew eq_refl). reflexivity. }
  cbn [fst snd].
  assert (find_store (set_store (logged eng cs) (conn_name conn) s st') (conn_name conn) s
          = Some st') as Hst'
      by (apply (find_store_set_store _ _ _ st); exact Hat).
  split; [reflexivity|]. split.
  - rewrite (get_result this conn _ s st' Hconn Hst' None (rkey r) I Hscalar).
    destruct (matching_only_store st' (rkey r) r) as [rest ->]; [|reflexivity| |reflexivity].
    + apply store_put_elem. left. reflexivity.
    + intros x Hx Hk. apply store_put_elem in Hx as [->|[_ Hne]];
        [reflexivity|contradiction].
  - rewrite (count_result this conn _ s st' Hconn Hst' None None None None I eq_refl).
    rewrite matching_all_length. subst st'. cbn [st_records with_records].
    rewrite store_put_length. reflexivity.
Qed.

(** The property for the sample store, twice: the record of key ["a"]
    is put with other contents, and [get] then gives the new contents,
    the store still counting three records; the record [d], whose key is
    new, is added, and [get] then gives it, the store counting four. *)
Lemma write_then_get_witness :
  store_at Sample.engine Sample.connected "state" = Some Sample.state
  /\ unique_clash Sample.state Sample.a_updated = false
  /\ unique_clash Sample.state Sample.d = false
  /\ has_key (rkey Sample.d) (st_records Sample.state) = false
  /\ (snd (PixDB.put Sample.connected "state" (Some (PixDB.One Sample.a_updated))
             Sample.engine)
      = Fulfilled VUndefined
      /\ snd (PixDB.get Sample.connected "state" None (KStr "a")
                (fst (PixDB.put Sample.connected "state"
                        (Some (PixDB.One Sample.a_updated)) Sample.engine)))
         = Fulfilled (VRecord Sample.a_updated)
      /\ match PixDB.count Sample.connected "state" None None None
                 (fst (PixDB.put Sample.connected "state"
                         (Some (PixDB.One Sample.a_updated)) Sample.engine)) with
         | Ok (_, p) => p = Fulfilled (VNumber 3)
         | Throw _ => False
         end)
  /\ (snd (PixDB.add Sample.connected "state" (Some (PixDB.One Sample.d)) Sample.engine)
      = Fulfilled VUndefined
      /\ snd (PixDB.get Sample.connected "state" None (KStr "d")
                (fst (PixDB.add Sample.connected "state" (Some (PixDB.One Sample.d))
                        Sample.engine)))
         = Fulfilled (VRecord Sample.d)
      /\ match PixDB.count Sample.connected "state" None None None
                 (fst (PixDB.add Sample.connected "state" (Some (PixDB.One Sample.d))
                         Sample.engine)) with
         | Ok (_, p) => p = Fulfilled (VNumber 4)
         | Throw _ => False
         end).
Proof.
  assert (unique_clash Sample.state Sample.a_updated = false) as H2
      by (apply no_unique_clash, sample_no_unique).
  assert (unique_clash Sample.state Sample.d = false) as H3
      by (apply no_unique_clash, sample_no_unique).
  assert (has_key (rkey Sample.d) (st_records Sample.state) = false) as H4 by reflexivity.
  assert (true = false -> has_key (rkey Sample.a_updated) (st_records Sample.state) = false)
    as H5 by discriminate.
  exact (conj sample_store (conj H2 (conj H3 (conj H4 (conj
           (write_then_get Sample.connected Sample.engine "state" Sample.state
              Sample.a_updated true sample_store H2 I H5)
           (write_then_get Sample.connected Sample.engine "state" Sample.state
              Sample.d false sample_store H3 I (fun _ => H4))))))).
Defined.

Section Removal.

Lemma with_records_same st : with_records st (st_records st) = st.
Proof. destruct st; reflexivity. Qed.

Lemma entries_no_records st index : st_records st = [] -> entries st index = [].
Proof.
  intros H. unfold entries, store_entries, index_entries. rewrite H.
  destruct index as [i|]; [|reflexivity].
  destruct (st_indexes st !! i); reflexivity.
Qed.

(** Once the records in a range are removed, the range holds no entry of
    the store. *)
Lemma matching_without st r :
  matching (with_records st (without (Some r) (st_records st))) None (Some r) = [].
Proof.
  unfold matching. apply filter_none. intros e He.
  apply entries_store_elem in He as (x & Hx & ->). cbn [with_records st_records] in Hx.
  apply filter_elem in Hx as [_ Hx]. apply negb_true_iff in Hx. exact Hx.
Qed.

End Removal.

(** X14. [delete] on a connected object and a store of its database
    resolves, whether or not a record has the key, and leaves the store
    with exactly the records of other keys, in their order; with no
    record of that key no database changes; a [get] on the key (not an
    array) then resolves with [undefined]. *)
Theorem delete_removes_key :
  forall (this : PixDB.t) (eng : Engine) (s : string) (st : Store) (key : Key),
    store_at eng this s = Some st ->
    snd (PixDB.delete this s key eng) = Fulfilled VUndefined
    /\ store_at (fst (PixDB.delete this s key eng)) this s
       = Some (with_records st (other_keys key (st_records st)))
    /\ (has_key key (st_records st) = false ->
        databases (fst (PixDB.delete this s key eng)) = databases eng)
    /\ (scalar key ->
        snd (PixDB.get this s None key (fst (PixDB.delete this s key eng)))
        = Fulfilled VUndefined).
Proof.
  intros this eng s st key Hat. unfold store_at in *.
  destruct (PixDB.db this) as [conn|] eqn:Hconn; [|discriminate].
  unfold PixDB.delete.
  rewrite (delete_query_result this conn eng s st Hconn Hat None (AList [AVal key])
             (Some (IDBKeyRange_only key)) eq_refl).
  cbn [fst snd]. rewrite without_only.
  set (eng1 := logged eng _).
  assert (find_store eng1 (conn_name conn) s = Some st) as H1 by exact Hat.
  pose proof (find_store_set_store eng1 (conn_name conn) s st
                (with_records st (other_keys key (st_records st))) H1) as H2.
  split; [reflexivity|]. split; [exact H2|]. split.
  - intros Hno. rewrite (other_keys_absent _ _ Hno), with_records_same.
    rewrite (set_store_same _ _ _ _ H1). reflexivity.
  - intros Hk. rewrite (get_result this conn _ s _ Hconn H2 None key I Hk).
    rewrite matching_absent; [reflexivity|]. apply has_key_other_keys.
Qed.

(** The property for the sample store and the key ["a"]. *)
Lemma delete_removes_key_witness :
  store_at Sample.engine Sample.connected "state" = Some Sample.state
  /\ store_at (fst (PixDB.delete Sample.connected "state" (KStr "a") Sample.engine))
       Sample.connected "state"
     = Some (with_records Sample.state [Sample.b; Sample.c]).
Proof.
  split; [exact sample_store|].
  exact (proj1 (proj2 (delete_removes_key Sample.connected Sample.engine "state"
                         Sample.state (KStr "a") sample_store))).
Defined.

(** X15. [clear] on a connected object and a store of its database
    resolves and leaves that store without records and with its indexes;
    the other stores and the other databases are as they were, and
    [count] on the store, by the store or by an index of it and with any
    bounds the helper accepts, then resolves with [0]. *)
Theorem clear_empties_store :
  forall (this : PixDB.t) (conn : IDBDatabase) (eng : Engine) (s : string) (st : Store),
    PixDB.db this = Some conn ->
    find_store eng (conn_name conn) s = Some st ->
    snd (PixDB.clear this s eng) = Fulfilled VUndefined
    /\ find_store (fst (PixDB.clear this s eng)) (conn_name conn) s
       = Some {| st_records := []; st_indexes := st_indexes st |}
    /\ (forall s', s' <> s ->
          find_store (fst (PixDB.clear this s eng)) (conn_name conn) s'
          = find_store eng (conn_name conn) s')
    /\ (forall n, n <> conn_name conn ->
          databases (fst (PixDB.clear this s eng)) !! n = databases eng !! n)
    /\ (forall index lowerBound upperBound range,
          index_of st index ->
          PixDB.bound lowerBound upperBound = Ok range ->
          exists eng',
            PixDB.count this s index lowerBound upperBound (fst (PixDB.clear this s eng))
            = Ok (eng', Fulfilled (VNumber 0))).
Proof.
  intros this conn eng s st Hconn Hat.
  rewrite (clear_result this conn eng s st Hconn Hat). cbn [fst snd].
  set (eng1 := logged eng _).
  assert (find_store eng1 (conn_name conn) s = Some st) as H1 by exact Hat.
  pose proof (find_store_set_store eng1 (conn_name conn) s st (with_records st []) H1) as H2.
  split; [reflexivity|]. split; [exact H2|]. split; [|split].
  - intros s' Hne. apply (find_store_set_store_ne eng1). exact Hne.
  - intros n Hne. apply (databases_set_store_ne eng1). exact Hne.
  - intros index lowerBound upperBound range Hix Hb.
    assert (index_of (with_records st []) index) as Hix' by exact Hix.
    rewrite (count_result this conn _ s _ Hconn H2 index lowerBound upperBound range Hix' Hb).
    unfold matching. rewrite entries_no_records by reflexivity.
    eexists. reflexivity.
Qed.

(** The property for the sample store. *)
Lemma clear_empties_store_witness :
  PixDB.db Sample.connected = Some {| conn_name := "test" |}
  /\ find_store Sample.engine "test" "state" = Some Sample.state
  /\ find_store (fst (PixDB.clear Sample.connected "state" Sample.engine)) "test" "state"
     = Some {| st_records := []; st_indexes := Sample.indexes |}.
Proof.
  split; [reflexivity|]. split; [exact sample_store|].
  exact (proj1 (proj2 (clear_empties_store Sample.connected {| conn_name := "test" |}
                         Sample.engine "state" Sample.state eq_refl sample_store))).
Defined.

(** X16. [deleteAll] with no bound that counts (both absent, [0] or the
    empty string) on a connected object and a store of its database
    returns a promise rejected with the engine's [DataError], whatever
    the index argument, and no database changes. *)
Theorem deleteAll_needs_bound :
  forall (this : PixDB.t) (eng : Engine) (s : string) (st : Store)
         (index : option string) (lowerBound upperBound : option Key),
    store_at eng this s = Some st ->
    truthy lowerBound = false ->
    truthy upperBound = false ->
    exists eng',
      PixDB.deleteAll this s index lowerBound upperBound eng
      = Ok (eng', Rejected (raise DataError "No key or key range specified."))
      /\ databases eng' = databases eng.
Proof.
  intros this eng s st index lowerBound upperBound Hat Hl Hu. unfold store_at in Hat.
  destruct (PixDB.db this) as [conn|] eqn:Hconn; [|discriminate].
  unfold PixDB.deleteAll, PixDB.with_bound, PixDB.bound. rewrite Hl, Hu. cbn [andb].
  rewrite (exec_write this conn eng s st Hconn Hat index "delete" _ eq_refl).
  rewrite (invoke_delete _ _ st _ (find_store_source conn eng s st Hat _ true None)
             eq_refl eq_refl).
  cbn. eexists. split; reflexivity.
Qed.

(** The property for the sample store, with the bounds [0] and the empty
    string. *)
Lemma deleteAll_needs_bound_witness :
  store_at Sample.engine Sample.connected "state" = Some Sample.state
  /\ truthy (Some (KNum 0)) = false
  /\ truthy (Some (KStr "")) = false
  /\ exists eng',
       PixDB.deleteAll Sample.connected "state" (Some "expireIdx") (Some (KNum 0))
         (Some (KStr "")) Sample.engine
       = Ok (eng', Rejected (raise DataError "No key or key range specified."))
       /\ databases eng' = databases Sample.engine.
Proof.
  split; [exact sample_store|]. split; [reflexivity|]. split; [reflexivity|].
  exact (deleteAll_needs_bound Sample.connected Sample.engine "state" Sample.state
           (Some "expireIdx") (Some (KNum 0)) (Some (KStr "")) sample_store eq_refl eq_refl).
Defined.

(** X17. [deleteAll] with bounds that give a range, on a connected
    object and a store of its database, resolves and removes exactly the
    records whose primary key is in the range, whatever the index
    argument: the range is never applied to the keys of an index.
    [count] on the store with the same bounds then resolves with [0]. *)
Theorem deleteAll_removes_range :
  forall (this : PixDB.t) (eng : Engine) (s : string) (st : Store)
         (index : option string) (lowerBound upperBound : option Key) (r : IDBKeyRange),
    store_at eng this s = Some st ->
    PixDB.bound lowerBound upperBound = Ok (Some r) ->
    exists eng',
      PixDB.deleteAll this s index lowerBound upperBound eng
      = Ok (eng', Fulfilled VUndefined)
      /\ store_at eng' this s
         = Some {| st_records :=
                     List.filter (fun x => negb (includes r (rkey x))) (st_records st);
                   st_indexes := st_indexes st |}
      /\ exists eng'',
           PixDB.count this s None lowerBound upperBound eng'
           = Ok (eng'', Fulfilled (VNumber 0)).
Proof.
  intros this eng s st index lowerBound upperBound r Hat Hb. unfold store_at in *.
  destruct (PixDB.db this) as [conn|] eqn:Hconn; [|discriminate].
  unfold PixDB.deleteAll, PixDB.with_bound. rewrite Hb. cbn [PixDB.of_range].
  rewrite (delete_query_result this conn eng s st Hconn Hat index (AList [ARange r])
             (Some r) eq_refl).
  set (eng1 := logged eng _).
  assert (find_store eng1 (conn_name conn) s = Some st) as H1 by exact Hat.
  pose proof (find_store_set_store eng1 (conn_name conn) s st
                (with_records st (without (Some r) (st_records st))) H1) as H2.
  eexists. split; [reflexivity|]. split; [exact H2|].
  rewrite (count_result this conn _ s _ Hconn H2 None lowerBound upperBound (Some r) I Hb).
  rewrite matching_without. eexists. reflexivity.
Qed.

(** The property for the sample store, through an index and with the
    bounds ["a"] and ["b"]: the records of those primary keys go. *)
Lemma deleteAll_removes_range_witness :
  store_at Sample.engine Sample.connected "state" = Some Sample.state
  /\ PixDB.bound (Some (KStr "a")) (Some (KStr "b"))
     = Ok (Some {| lower := Some (KStr "a"); upper := Some (KStr "b") |})
  /\ exists eng',
       PixDB.deleteAll Sample.connected "state" (Some "expireIdx") (Some (KStr "a"))
         (Some (KStr "b")) Sample.engine
       = Ok (eng', Fulfilled VUndefined)
       /\ store_at eng' Sample.connected "state" = Some (with_records Sample.state [Sample.c]).
Proof.
  split; [exact sample_store|]. split; [reflexivity|].
  destruct (deleteAll_removes_range Sample.connected Sample.engine "state" Sample.state
              (Some "expireIdx") (Some (KStr "a")) (Some (KStr "b")) _ sample_store eq_refl)
    as (eng' & H1 & H2 & _).
  exists eng'. split; [exact H1|exact H2].
Defined.

Section Walks.

Lemma one_by_one_count callback c :
  one_by_one callback -> PixDB.advance_count callback c = 1.
Proof.
  intros H. unfold PixDB.advance_count. destruct callback as [f|]; [|reflexivity].
  destruct (H f c eq_refl) as [-> | [-> | ->]]; reflexivity.
Qed.

(** Over positions at which the handler asks for one step, a traversal
    without failure visits them all; the databases stay as they are. *)
Lemma traverse_by_one callback pre : forall rest seen eng,
  (forall c, c ∈ pre -> PixDB.advance_count callback c = 1) ->
  PixDB.traverse callback (pre ++ rest) 0 None seen eng
  = PixDB.traverse callback rest 0 None (seen ++ pre)
      (logged eng (map (fun _ => CallAdvance 1) pre)).
Proof.
  induction pre as [|c pre IH]; intros rest seen eng H.
  - cbn. rewrite app_nil_r. unfold logged. rewrite app_nil_r. destruct eng; reflexivity.
  - cbn [app PixDB.traverse PixDB.due PixDB.cursor_onsuccess PixDB.tick].
    rewrite (H c) by apply list_elem_of_here.
    unfold advance, bind, record_call. cbn.
    change (Nat.pred (Z.to_nat 1)) with 0%nat.
    rewrite IH by (intros x Hx; apply H; apply list_elem_of_further; exact Hx).
    unfold logged. cbn. rewrite <- !app_assoc. reflexivity.
Qed.

(** Once [#query] handed out a source whose store is there and the
    engine accepted the direction, [getCursor] is the traversal of the
    cursor's positions. *)
Lemma getCursor_opened this s index lowerBound upperBound direction callback fault
    eng eng1 q range st es :
  PixDB.query this s index false eng = (eng1, Ok q) ->
  PixDB.bound lowerBound upperBound = Ok range ->
  find_store eng1 (src_db (PixDB.store q)) (src_store (PixDB.store q)) = Some st ->
  in_direction (default "next" direction) (matching st (src_index (PixDB.store q)) range)
  = Ok es ->
  PixDB.getCursor this s index lowerBound upperBound direction callback fault eng
  = PixDB.traverse callback (map to_cursor es) 0 fault []
      (logged eng1 [CallOpenCursor (PixDB.store q) range (default "next" direction)]).
Proof.
  intros Hq Hb Hst Hdir. unfold PixDB.getCursor.
  unfold bind at 1. rewrite Hq. unfold bind at 1, lift. rewrite Hb.
  unfold openCursor, bind, record_call, get_store.
  cbn -[in_direction matching PixDB.traverse].
  pose proof Hst as Hst'. unfold find_store in Hst' |- *.
  cbn -[in_direction matching PixDB.traverse].
  destruct (databases eng1 !! src_db (PixDB.store q)) as [d|]; [|discriminate].
  rewrite Hst'. cbn -[in_direction matching PixDB.traverse].
  rewrite Hdir. reflexivity.
Qed.

Lemma getCursor_no_store this s index lowerBound upperBound direction callback fault
    eng eng1 q range :
  PixDB.query this s index false eng = (eng1, Ok q) ->
  PixDB.bound lowerBound upperBound = Ok range ->
  find_store eng1 (src_db (PixDB.store q)) (src_store (PixDB.store q)) = None ->
  snd (PixDB.getCursor this s index lowerBound upperBound direction callback fault eng)
  = {| PixDB.promise :=
         Rejected (raise InvalidStateError "The object store has been deleted.");
       PixDB.visited := [] |}.
Proof.
  intros Hq Hb Hst. unfold PixDB.getCursor.
  unfold bind at 1. rewrite Hq. unfold bind at 1, lift. rewrite Hb.
  unfold openCursor, bind, record_call, get_store. cbn.
  pose proof Hst as Hst'. unfold find_store in Hst' |- *. cbn.
  destruct (databases eng1 !! src_db (PixDB.store q)) as [d|]; [rewrite Hst'|]; reflexivity.
Qed.

End Walks.

(** X18. For every object, engine, store, index, bounds and maximum,
    [getAllKeys] and [getAll] end the same way: where one throws or
    rejects the other does so with the same error, and where they resolve
    the keys [getAllKeys] gives are the primary keys of the records
    [getAll] gives, in the same order. *)
Theorem getAllKeys_are_keys_of_getAll :
  forall (this : PixDB.t) (eng : Engine) (s : string) (index : option string)
         (lowerBound upperBound : option Key) (count : option Z),
    match PixDB.getAll this s index lowerBound upperBound count eng,
          PixDB.getAllKeys this s index lowerBound upperBound count eng with
    | Ok (_, Fulfilled (VRecords l)), Ok (_, Fulfilled (VKeys ks)) => ks = map rkey l
    | Ok (_, Rejected e1), Ok (_, Rejected e2) => e1 = e2
    | Throw e1, Throw e2 => e1 = e2
    | _, _ => False
    end.
Proof.
  intros this eng s index lb ub count.
  unfold PixDB.getAll, PixDB.getAllKeys, PixDB.with_bound.
  destruct (PixDB.bound lb ub) as [range|e]; [|reflexivity].
  unfold PixDB.exec, PixDB.new_Promise, bind. cbn [String.eqb Ascii.eqb Bool.eqb orb].
  destruct (PixDB.query this s index false eng) as [eng1 [q|e]]; [|reflexivity].
  unfold invoke, bind, record_call, get_store, find_store. cbn -[arg_query arg_count].
  destruct (databases eng1 !! src_db (PixDB.store q)) as [d|]; [|reflexivity].
  destruct (db_stores d !! src_store (PixDB.store q)) as [st|]; [|reflexivity].
  unfold lift. cbn -[arg_query arg_count].
  destruct (arg_query _ _) as [qr|e]; [|reflexivity].
  destruct (arg_count _) as [n|e]; [|reflexivity].
  cbn. symmetry. apply map_map.
Qed.

(** X19. The maximum of [getAll]: for every object, engine, store, index
    and bounds, where [getAll] without a maximum resolves with a list of
    records, [getAll] with the maximum [n] resolves with its first [n]
    records when [n] is from [1] to [2^32 - 1], with the whole list when
    [n] is [0], and rejects with a [TypeError] when [n] is negative or
    above [2^32 - 1]; where the one throws or rejects, the other does so
    with the same error. *)
Theorem getAll_maximum :
  forall (this : PixDB.t) (eng : Engine) (s : string) (index : option string)
         (lowerBound upperBound : option Key) (n : Z),
    match PixDB.getAll this s index lowerBound upperBound None eng,
          PixDB.getAll this s index lowerBound upperBound (Some n) eng with
    | Ok (_, Fulfilled (VRecords l)), Ok (_, p) =>
        p = if (n <? 0) || (max_unsigned_long <? n) then Rejected TypeError
            else Fulfilled (VRecords (if n =? 0 then l else take (Z.to_nat n) l))
    | Ok (_, Rejected e1), Ok (_, Rejected e2) => e1 = e2
    | Throw e1, Throw e2 => e1 = e2
    | _, _ => False
    end.
Proof.
  intros this eng s index lb ub n.
  unfold PixDB.getAll, PixDB.with_bound.
  destruct (PixDB.bound lb ub) as [range|e]; [|reflexivity].
  unfold PixDB.exec, PixDB.new_Promise, bind. cbn [String.eqb Ascii.eqb Bool.eqb orb].
  destruct (PixDB.query this s index false eng) as [eng1 [q|e]]; [|reflexivity].
  unfold invoke, bind, record_call, get_store, find_store. cbn -[arg_query].
  destruct (databases eng1 !! src_db (PixDB.store q)) as [d|]; [|reflexivity].
  destruct (db_stores d !! src_store (PixDB.store q)) as [st|]; [|reflexivity].
  unfold lift. cbn -[arg_query].
  destruct (arg_query _ _) as [qr|e]; [|reflexivity].
  cbn. destruct ((n <? 0) || (max_unsigned_long <? n)); [reflexivity|].
  destruct (n =? 0); cbn; [reflexivity|].
  rewrite <- fmap_take. reflexivity.
Qed.

(** X20. A cursor that goes one position at a time visits what [getAll]
    returns. For every object, engine, store, index and bounds, with no
    failure of the back end, a callback that is absent or returns
    nothing, [0] or [1], and the direction left out, ["next"] or
    ["prev"]: where [getAll] resolves with a list of records, [getCursor]
    resolves with [true] after visiting those records, in that order, in
    the reverse order for ["prev"]; where [getAll] rejects, [getCursor]
    rejects with the same error and visits nothing; where [getAll] throws
    (the bounds are refused), [getCursor] does not throw: it rejects, and
    visits nothing. *)
Theorem cursor_visits_what_getAll_returns :
  forall (this : PixDB.t) (eng : Engine) (s : string) (index : option string)
         (lowerBound upperBound : option Key) (direction : option string)
         (callback : option PixDB.Callback),
    one_by_one callback ->
    direction ∈ [None; Some "next"; Some "prev"] ->
    let result := snd (PixDB.getCursor this s index lowerBound upperBound direction
                         callback None eng) in
    match PixDB.getAll this s index lowerBound upperBound None eng with
    | Ok (_, Fulfilled (VRecords l)) =>
        PixDB.promise result = Fulfilled true
        /\ map cur_value (PixDB.visited result)
           = (if String.eqb (default "next" direction) "prev" then rev l else l)
    | Ok (_, Rejected e) =>
        PixDB.promise result = Rejected e /\ PixDB.visited result = []
    | Throw _ =>
        (exists e, PixDB.promise result = Rejected e) /\ PixDB.visited result = []
    | _ => False
    end.
Proof.
  intros this eng s index lb ub direction callback Hone Hdir. cbn zeta.
  unfold PixDB.getAll, PixDB.with_bound.
  destruct (PixDB.bound lb ub) as [range|e] eqn:Hb.
  - unfold PixDB.exec, PixDB.new_Promise, bind. cbn [String.eqb Ascii.eqb Bool.eqb orb].
    destruct (PixDB.query this s index false eng) as [eng1 [q|e]] eqn:Hq.
    + unfold invoke, bind, record_call, get_store. cbn -[arg_query arg_count matching].
      destruct (find_store _ (src_db (PixDB.store q)) (src_store (PixDB.store q)))
        as [st|] eqn:Hst.
      * assert (find_store eng1 (src_db (PixDB.store q)) (src_store (PixDB.store q))
                = Some st) as Hst1 by exact Hst.
        unfold lift. cbn -[matching arg_query].
        assert (arg_query (Some (PixDB.of_range range)) false = Ok range) as ->
            by (destruct range; reflexivity).
        cbn -[matching].
        set (es := matching st (src_index (PixDB.store q)) range).
        assert (exists l, in_direction (default "next" direction) es = Ok l
                          /\ map snd l
                             = if String.eqb (default "next" direction) "prev"
                               then rev (map snd es) else map snd es) as (l & Hl & Hmap).
        { repeat (apply elem_of_cons in Hdir as [->|Hdir]).
          - exists es. split; reflexivity.
          - exists es. split; reflexivity.
          - exists (rev es). split; [reflexivity|]. cbn. apply map_rev.
          - inversion Hdir. }
        rewrite (getCursor_opened this s index lb ub direction callback None
                   eng eng1 q range st l Hq Hb Hst1 Hl).
        match goal with
        | |- context [PixDB.traverse _ ?ps 0 None [] ?e'] =>
            pose proof (traverse_by_one callback ps [] [] e') as Heq
        end.
        rewrite app_nil_r in Heq.
        rewrite Heq by (intros c _; apply one_by_one_count; exact Hone). cbn.
        split; [reflexivity|]. rewrite <- Hmap, map_map. reflexivity.
      * assert (find_store eng1 (src_db (PixDB.store q)) (src_store (PixDB.store q))
                = None) as Hst1 by exact Hst.
        rewrite (getCursor_no_store this s index lb ub direction callback None
                   eng eng1 q range Hq Hb Hst1).
        cbn. split; reflexivity.
    + unfold PixDB.getCursor, bind. rewrite Hq. cbn. split; reflexivity.
  - unfold PixDB.getCursor, bind, lift. rewrite Hb.
    destruct (PixDB.query this s index false eng) as [eng1 [q|e']];
      cbn; (split; [eexists|]; reflexivity).
Qed.

(** The property for the sample store, backwards: the records come in
    the descending order of their keys. *)
Lemma cursor_visits_what_getAll_returns_witness :
  one_by_one None
  /\ Some "prev" ∈ [None; Some "next"; Some "prev"]
  /\ map cur_value
       (PixDB.visited (snd (PixDB.getCursor Sample.connected "state" None None None
                              (Some "prev") None None Sample.engine)))
     = [Sample.c; Sample.b; Sample.a].
Proof.
  assert (one_by_one None) as H1 by (intros f c H; discriminate).
  assert (Some "prev" ∈ [None; Some "next"; Some "prev"]) as H2
      by (apply list_elem_of_further, list_elem_of_further, list_elem_of_here).
  split; [exact H1|]. split; [exact H2|].
  exact (proj2 (cursor_visits_what_getAll_returns Sample.connected Sample.engine "state"
                  None None None (Some "prev") None H1 H2)).
Defined.

(** X21. A callback that returns a negative number stops the traversal
    for good. On a connected object, with no failure of the back end and
    a callback that asks for one step at the positions before, at the
    first position where the callback returns a negative number the
    engine is asked to advance by it and refuses; the promise is never
    settled, and the positions up to that one, and no other, have been
    visited. *)
Theorem negative_step_never_settles :
  forall (this : PixDB.t) (conn : IDBDatabase) (eng : Engine) (s : string) (st : Store)
         (index : option string) (lowerBound upperBound : option Key)
         (range : option IDBKeyRange) (direction : option string)
         (pre : list Entry) (e : Entry) (post : list Entry)
         (f : PixDB.Callback) (n : Z),
    PixDB.db this = Some conn ->
    find_store eng (conn_name conn) s = Some st ->
    index_of st index ->
    PixDB.bound lowerBound upperBound = Ok range ->
    in_direction (default "next" direction) (matching st index range)
    = Ok (pre ++ e :: post) ->
    (forall x, x ∈ pre -> PixDB.advance_count (Some f) (to_cursor x) = 1) ->
    f (to_cursor e) = Some n ->
    n < 0 ->
    let result := PixDB.getCursor this s index lowerBound upperBound direction
                    (Some f) None eng in
    PixDB.promise (snd result) = Pending
    /\ PixDB.visited (snd result) = map to_cursor (pre ++ [e])
    /\ CallAdvance n ∈ issued eng (fst result)
    /\ databases (fst result) = databases eng.
Proof.
  intros this conn eng s st index lb ub range direction pre e post f n
         Hconn Hat Hix Hb Hdir Hpre Hf Hn. cbn zeta.
  rewrite (getCursor_opened this s index lb ub direction (Some f) None eng _ _ range st
             (pre ++ e :: post)
             (query_read this conn eng s st Hconn Hat index Hix) Hb Hat Hdir).
  rewrite map_app, traverse_by_one.
  2:{ intros c Hc. apply list_elem_of_fmap in Hc as (x & -> & Hx). apply Hpre, Hx. }
  assert (PixDB.advance_count (Some f) (to_cursor e) = n) as Hc.
  { unfold PixDB.advance_count. rewrite Hf. unfold PixDB.or_number, truthy_number.
    assert ((n =? 0) = false) as -> by lia. reflexivity. }
  cbn [map PixDB.traverse PixDB.due PixDB.cursor_onsuccess].
  rewrite Hc. unfold advance, bind, record_call. cbn.
  assert ((n <=? 0) = true) as -> by lia. cbn.
  split; [reflexivity|]. split; [rewrite map_app; reflexivity|]. split; [|reflexivity].
  unfold issued. cbn. rewrite <- !app_assoc. rewrite drop_app_length.
  rewrite !elem_of_app. right. right. right. apply list_elem_of_here.
Qed.


(** The property for the sample store: the traversal stops at ["b"], the
    second position. *)
Lemma negative_step_never_settles_witness :
  find_store Sample.engine "test" "state" = Some Sample.state
  /\ in_direction "next" (matching Sample.state None None)
     = Ok ([(KStr "a", Sample.a)] ++ (KStr "b", Sample.b) :: [(KStr "c", Sample.c)])
  /\ Sample.stepping_back (to_cursor (KStr "b", Sample.b)) = Some (-1)
  /\ PixDB.promise (snd (PixDB.getCursor Sample.connected "state" None None None None
                           (Some Sample.stepping_back) None Sample.engine))
     = Pending
  /\ PixDB.visited (snd (PixDB.getCursor Sample.connected "state" None None None None
                           (Some Sample.stepping_back) None Sample.engine))
     = map to_cursor [(KStr "a", Sample.a); (KStr "b", Sample.b)].
Proof.
  assert (find_store Sample.engine "test" "state" = Some Sample.state) as H1
      by exact sample_store.
  assert (in_direction "next" (matching Sample.state None None)
          = Ok ([(KStr "a", Sample.a)] ++ (KStr "b", Sample.b) :: [(KStr "c", Sample.c)]))
    as H2 by reflexivity.
  assert (forall x, x ∈ [(KStr "a", Sample.a)] ->
                    PixDB.advance_count (Some Sample.stepping_back) (to_cursor x) = 1) as H3.
  { intros x Hx. apply list_elem_of_singleton in Hx as ->. reflexivity. }
  assert (Sample.stepping_back (to_cursor (KStr "b", Sample.b)) = Some (-1)) as H4 by reflexivity.
  assert (-1 < 0) as H5 by lia.
  destruct (negative_step_never_settles Sample.connected {| conn_name := "test" |}
              Sample.engine "state" Sample.state None None None None None
              [(KStr "a", Sample.a)] (KStr "b", Sample.b) [(KStr "c", Sample.c)]
              Sample.stepping_back (-1) eq_refl H1 I eq_refl H2 H3 H4 H5) as (Hp & Hv & _).
  exact (conj H1 (conj H2 (conj H4 (conj Hp Hv)))).
Defined.

Section UnknownIndex.

Variables (this : PixDB.t) (conn : IDBDatabase) (eng : Engine) (s : string) (st : Store).
Hypothesis Hconn : PixDB.db this = Some conn.
Hypothesis Hstore : find_store eng (conn_name conn) s = Some st.

(** For a read, [#query] with a name that is not empty and names no
    index of the store throws what the engine's [index] throws, the
    transaction being open by then. *)
Lemma query_unknown_index index :
  index <> "" ->
  st_indexes st !! index = None ->
  PixDB.query this s (Some index) false eng
  = (logged eng [CallTransaction s ReadOnly Default],
     Throw (raise NotFoundError "The specified index was not found.")).
Proof.
  intros Hne Hno. unfold PixDB.query. rewrite Hconn.
  pose proof Hstore as Hst. unfold find_store in Hst.
  unfold bind at 1. unfold IDB.transaction.
  destruct (databases eng !! conn_name conn) as [d|] eqn:Hd; [|discriminate].
  rewrite Hst. cbn.
  unfold bind, objectStore. cbn. rewrite String.eqb_refl. cbn.
  assert (String.eqb index "" = false) as -> by (apply String.eqb_neq; exact Hne).
  cbn. unfold IDB.index. cbn. unfold find_store. cbn. rewrite Hd, Hst, Hno. reflexivity.
Qed.

End UnknownIndex.

(** X22. On a connected object and a store of its database, an index
    argument that is not empty and names no index of the store makes
    every read reject with the engine's [NotFoundError], the read-only
    transaction having been opened and no database changed: [get],
    [getCursor] (which visits nothing), and, for bounds the helper
    accepts, [count], [getAll] and [getAllKeys]. *)
Theorem unknown_index_rejects_reads :
  forall (this : PixDB.t) (conn : IDBDatabase) (eng : Engine) (s : string) (st : Store)
         (index : string),
    PixDB.db this = Some conn ->
    find_store eng (conn_name conn) s = Some st ->
    index <> "" ->
    st_indexes st !! index = None ->
    let e := raise NotFoundError "The specified index was not found." in
    let eng' := logged eng [CallTransaction s ReadOnly Default] in
    (forall key, PixDB.get this s (Some index) key eng = (eng', Rejected e))
    /\ (forall lowerBound upperBound direction callback fault,
          PixDB.getCursor this s (Some index) lowerBound upperBound direction callback
            fault eng
          = (eng', {| PixDB.promise := Rejected e; PixDB.visited := [] |}))
    /\ (forall lowerBound upperBound range,
          PixDB.bound lowerBound upperBound = Ok range ->
          PixDB.count this s (Some index) lowerBound upperBound eng
          = Ok (eng', Rejected e)
          /\ forall count,
               PixDB.getAll this s (Some index) lowerBound upperBound count eng
               = Ok (eng', Rejected e)
               /\ PixDB.getAllKeys this s (Some index) lowerBound upperBound count eng
                  = Ok (eng', Rejected e)).
Proof.
  intros this conn eng s st index Hconn Hat Hne Hno. cbn zeta.
  pose proof (query_unknown_index this conn eng s st Hconn Hat index Hne Hno) as Hq.
  assert (forall method args,
            String.eqb method "delete" || String.eqb method "clear" = false ->
            PixDB.exec this s (Some index) method args eng
            = (logged eng [CallTransaction s ReadOnly Default],
               Rejected (raise NotFoundError "The specified index was not found.")))
    as Hexec.
  { intros method args Hm. unfold PixDB.exec, PixDB.new_Promise, bind.
    rewrite Hm, Hq. reflexivity. }
  split; [|split].
  - intros key. apply Hexec. reflexivity.
  - intros. unfold PixDB.getCursor, bind. rewrite Hq. reflexivity.
  - intros lowerBound upperBound range Hb.
    unfold PixDB.count, PixDB.getAll, PixDB.getAllKeys, PixDB.with_bound. rewrite Hb.
    split; [|intros count; split]; rewrite Hexec; reflexivity.
Qed.

(** The property for the sample store and an index it does not have. *)
Lemma unknown_index_rejects_reads_witness :
  find_store Sample.engine "test" "state" = Some Sample.state
  /\ "sizeIdx" <> ""
  /\ st_indexes Sample.state !! "sizeIdx" = None
  /\ forall key,
       PixDB.get Sample.connected "state" (Some "sizeIdx") key Sample.engine
       = (logged Sample.engine [CallTransaction "state" ReadOnly Default],
          Rejected (raise NotFoundError "The specified index was not found.")).
Proof.
  assert ("sizeIdx" <> "") as H2 by discriminate.
  assert (st_indexes Sample.state !! "sizeIdx" = None) as H3 by (vm_compute; reflexivity).
  exact (conj sample_store
           (conj H2
              (conj H3
                 (proj1 (unknown_index_rejects_reads Sample.connected
                           {| conn_name := "test" |} Sample.engine "state" Sample.state
                           "sizeIdx" eq_refl sample_store H2 H3))))).
Defined.
